(** * News pipeline: feed fetcher, identifier matcher, entity extractor,
      summarizer, notifier and driver loop.

    A shallow embedding of the Python sources
    [google_news_business_scraper.py], [isin_matcher.py], [isin.py] and
    [prompts.py].  External collaborators (the RSS endpoint, the date parser,
    the browser, the fuzzy scorer, the LLM, the webhook) are parameters;
    everything the repository itself computes is a Rocq function.

    Conventions: Python [str] is [string] (characters of the ASCII range, so
    case folding and white space are those of that range); Python [int] is
    [Z]; a call that may raise returns [exn + A]; code that talks to the LLM
    or the webhook runs in the monad [M] over a [world] that records the
    calls made. *)

From Stdlib Require Import ZArith String Ascii Bool Lia Sorted.
From stdpp Require Import base gmap strings list pretty.

Local Open Scope string_scope.
Local Open Scope list_scope.
Local Open Scope Z_scope.

(* ===================================================================== *)
(** * Python strings *)
(* ===================================================================== *)

Module Py.

(** [str.isspace] on one character of the ASCII range. *)
Definition is_space (c : ascii) : bool :=
  let n := nat_of_ascii c in
  ((9 <=? n) && (n <=? 13) || (28 <=? n) && (n <=? 32))%nat.

Definition lower_char (c : ascii) : ascii :=
  let n := nat_of_ascii c in
  if ((65 <=? n) && (n <=? 90))%nat then ascii_of_nat (n + 32) else c.

Definition upper_char (c : ascii) : ascii :=
  let n := nat_of_ascii c in
  if ((97 <=? n) && (n <=? 122))%nat then ascii_of_nat (n - 32) else c.

(** [s.lower()] *)
Fixpoint lower (s : string) : string :=
  match s with
  | EmptyString => EmptyString
  | String c s' => String (lower_char c) (lower s')
  end.

(** [s.upper()] *)
Fixpoint upper (s : string) : string :=
  match s with
  | EmptyString => EmptyString
  | String c s' => String (upper_char c) (upper s')
  end.

(** [s.startswith(p)] *)
Fixpoint startswith (p s : string) : bool :=
  match p, s with
  | EmptyString, _ => true
  | String _ _, EmptyString => false
  | String a p', String b s' => Ascii.eqb a b && startswith p' s'
  end.

(** [sub in s] *)
Fixpoint contains (sub s : string) : bool :=
  startswith sub s ||
  match s with
  | EmptyString => false
  | String _ s' => contains sub s'
  end.

Fixpoint find_from (sub s : string) (i : Z) : Z :=
  if startswith sub s then i
  else match s with
       | EmptyString => -1
       | String _ s' => find_from sub s' (i + 1)
       end.

(** [s.find(sub)]: the first index, or -1. *)
Definition find (sub s : string) : Z := find_from sub s 0.

Fixpoint rfind_from (sub s : string) (i last : Z) : Z :=
  let last' := if startswith sub s then i else last in
  match s with
  | EmptyString => last'
  | String _ s' => rfind_from sub s' (i + 1) last'
  end.

(** [s.rfind(sub)]: the last index, or -1. *)
Definition rfind (sub s : string) : Z := rfind_from sub s 0 (-1).

Definition len (s : string) : Z := Z.of_nat (String.length s).

(** How Python clamps one bound of a slice. *)
Definition slice_bound (n i : Z) : Z :=
  if i <? 0 then Z.max 0 (i + n) else Z.min i n.

(** [s[a:b]] *)
Definition slice (s : string) (a b : Z) : string :=
  let a' := slice_bound (len s) a in
  let b' := slice_bound (len s) b in
  if a' <? b' then substring (Z.to_nat a') (Z.to_nat (b' - a')) s else "".

(** [s[:n]] *)
Definition prefix_slice (s : string) (n : Z) : string := slice s 0 n.

Fixpoint lstrip_list (l : list ascii) : list ascii :=
  match l with
  | c :: l' => if is_space c then lstrip_list l' else l
  | [] => []
  end.

(** [s.strip()] *)
Definition strip (s : string) : string :=
  string_of_list_ascii
    (rev (lstrip_list (rev (lstrip_list (list_ascii_of_string s))))).

Fixpoint split_ws_go (s : string) (cur : list ascii) : list string :=
  match s with
  | EmptyString =>
      match cur with
      | [] => []
      | _ => [string_of_list_ascii (rev cur)]
      end
  | String c s' =>
      if is_space c then
        match cur with
        | [] => split_ws_go s' []
        | _ => string_of_list_ascii (rev cur) :: split_ws_go s' []
        end
      else split_ws_go s' (c :: cur)
  end.

(** [s.split()]: the maximal runs of non-blank characters. *)
Definition split_ws (s : string) : list string := split_ws_go s [].

Fixpoint split_go (sep s : string) (skip : nat) (cur : list ascii) : list string :=
  match s with
  | EmptyString => [string_of_list_ascii (rev cur)]
  | String c s' =>
      match skip with
      | S k => split_go sep s' k cur
      | O =>
          if startswith sep s then
            string_of_list_ascii (rev cur)
              :: split_go sep s' (Nat.pred (String.length sep)) []
          else split_go sep s' O (c :: cur)
      end
  end.

(** [s.split(sep)] for a non-empty separator. *)
Definition split (sep s : string) : list string := split_go sep s O [].

(** [sep.join(parts)] *)
Definition join (sep : string) (parts : list string) : string :=
  String.concat sep parts.

(** [s.replace(old, new)] for a non-empty [old]. *)
Definition replace (old new s : string) : string := join new (split old s).

(** Truthiness of a [str]. *)
Definition nonempty (s : string) : bool :=
  match s with EmptyString => false | String _ _ => true end.

(** [a or b] on strings. *)
Definition or_else (a b : string) : string := if nonempty a then a else b.

End Py.

(* ===================================================================== *)
(** * Exceptions, the recorded world and the monad of effectful code *)
(* ===================================================================== *)

(** The exception classes the sources can meet; all derive from
    [Exception], which is what every handler in the sources catches. *)
Inductive exn :=
| JSONDecodeError
| ValueError
| TypeError
| AttributeError
| IndexError
| OSError
| RequestException
| APIError.

(** What the process did to the outside: the prompts sent to
    [model.generate_content], the webhook posts [(url, text)], and the lines
    the notifier printed. *)
Record world := {
  llm_calls : list string;
  webhook_calls : list (string * string);
  console : list string
}.

Definition empty_world : world :=
  {| llm_calls := []; webhook_calls := []; console := [] |}.

Definition M (A : Type) : Type := world -> (exn + A) * world.

Definition ret {A} (a : A) : M A := fun w => (inr a, w).

Definition raise {A} (e : exn) : M A := fun w => (inl e, w).

Definition bind {A B} (m : M A) (k : A -> M B) : M B :=
  fun w =>
    match m w with
    | (inr a, w') => k a w'
    | (inl e, w') => (inl e, w')
    end.

(** [try: body except Exception: handler] *)
Definition try_except {A} (body : M A) (handler : exn -> M A) : M A :=
  fun w =>
    match body w with
    | (inr a, w') => (inr a, w')
    | (inl e, w') => handler e w'
    end.

(** A pure computation that may raise, run inside [M]. *)
Definition lift {A} (r : exn + A) : M A := fun w => (r, w).

Declare Scope monad_scope.
Delimit Scope monad_scope with monad.
Notation "x <- m ;; k" := (bind m (fun x => k))
  (at level 20, m at level 99, k at level 200, only parsing) : monad_scope.
Notation "'exec' m ;; k" := (bind m (fun _ => k))
  (at level 20, m at level 99, k at level 200, only parsing) : monad_scope.
Local Open Scope monad_scope.

(** The same for code that raises but touches nothing outside. *)
Definition bindE {A B} (r : exn + A) (k : A -> exn + B) : exn + B :=
  match r with
  | inr a => k a
  | inl e => inl e
  end.

Notation "x <-- r ;; k" := (bindE r (fun x => k))
  (at level 20, r at level 99, k at level 200, only parsing) : monad_scope.

(** [print(line)] as the notifier does it. *)
Definition print (line : string) : M unit :=
  fun w =>
    (inr tt, {| llm_calls := llm_calls w;
                webhook_calls := webhook_calls w;
                console := console w ++ [line] |}).

(* ===================================================================== *)
(** * JSON values as [json.loads] returns them *)
(* ===================================================================== *)

#[local] Set Warnings "-register-all".

(** Numbers are kept as integers. *)
Inductive json :=
| JNull
| JBool (b : bool)
| JNum (z : Z)
| JStr (s : string)
| JArr (items : list json)
| JObj (fields : list (string * json)).

Module Json.

Fixpoint lookup (k : string) (fields : list (string * json)) : option json :=
  match fields with
  | [] => None
  | (k', v) :: rest => if String.eqb k k' then Some v else lookup k rest
  end.

(** [d.get(k, default)] on a parsed object. *)
Definition get (fields : list (string * json)) (k : string) (default : json) : json :=
  match lookup k fields with
  | Some v => v
  | None => default
  end.

(** Python truthiness. *)
Definition truthy (v : json) : bool :=
  match v with
  | JNull => false
  | JBool b => b
  | JNum z => negb (z =? 0)
  | JStr s => Py.nonempty s
  | JArr items => match items with [] => false | _ => true end
  | JObj fields => match fields with [] => false | _ => true end
  end.

(** [len(v)]: defined on strings, lists and dicts. *)
Definition py_len (v : json) : exn + Z :=
  match v with
  | JStr s => inr (Py.len s)
  | JArr items => inr (Z.of_nat (length items))
  | JObj fields => inr (Z.of_nat (length fields))
  | _ => inl TypeError
  end.

(** [v[:n]]: defined on strings and lists. *)
Definition py_slice_prefix (v : json) (n : Z) : exn + json :=
  match v with
  | JStr s => inr (JStr (Py.prefix_slice s n))
  | JArr items => inr (JArr (take (Z.to_nat n) items))
  | _ => inl TypeError
  end.

End Json.

(* ===================================================================== *)
(** * Feed fetcher ([fetch_business_news_rss]) *)
(* ===================================================================== *)

Module Feed.

(** [article_id = (title, source)] *)
Abbreviation article_id := (string * string)%type.

(** What [dateutil.parser.parse] hands back: the wall-clock reading (in
    microseconds on the naive time line) and the zone offset, if any. *)
Record datetime := { wall : Z; tzinfo : option Z }.

(** One [<item>] of the parsed RSS document; [None] is [item.find(..)]
    finding nothing. *)
Record rss_item := {
  title_elem : option string;
  link_elem : option string;
  pubDate_elem : option string;
  source_elem : option string
}.

(** The dict appended to [articles_data]. *)
Record article := {
  title : string;
  link : string;
  source : string;
  pub_date : string;
  id : article_id
}.

(** Accumulator and counters of the [for] loop. *)
Record loop_state := {
  articles_data : list article;
  skipped_count : nat;
  time_filtered_count : nat;
  parse_errors : nat
}.

Definition time_window_minutes : Z := 1440.

(** [timedelta(minutes=m)] in microseconds. *)
Definition timedelta_minutes (m : Z) : Z := m * 60 * 1000000.

Definition cutoff_time (current_time : Z) : Z :=
  current_time - timedelta_minutes time_window_minutes.

(** [article_time.replace(tzinfo=None)]: the zone is dropped, the reading
    is kept. *)
Definition replace_tzinfo_None (t : datetime) : datetime :=
  {| wall := wall t; tzinfo := None |}.

(** [e.get_text() if e else default] *)
Definition get_text_or (e : option string) (default : string) : string :=
  match e with Some s => s | None => default end.

(** [if link:] - [None] and the empty string are falsy. *)
Definition truthy_link (l : option string) : option string :=
  match l with
  | Some s => if Py.nonempty s then Some s else None
  | None => None
  end.

(** The identity key the loop computes for an item. *)
Definition key_of (item : rss_item) : article_id :=
  (get_text_or (title_elem item) "No Title",
   get_text_or (source_elem item) "Unknown").

(** The dict the loop builds for an item it keeps. *)
Definition to_article (item : rss_item) : article :=
  {| title := get_text_or (title_elem item) "No Title";
     link := get_text_or (link_elem item) "";
     source := get_text_or (source_elem item) "Unknown";
     pub_date := get_text_or (pubDate_elem item) "Unknown";
     id := key_of item |}.

Section WithParser.

(** [date_parser.parse]; [None] stands for a raised exception. *)
Variable parse : string -> option datetime.

(** The inner [try]: [Some true] when the item is older than the cutoff,
    [Some false] when it is recent enough, [None] when parsing raised. *)
Definition older_than_cutoff (current_time : Z) (pub_date : string) : option bool :=
  match parse pub_date with
  | Some t =>
      let article_time :=
        match tzinfo t with
        | Some _ => replace_tzinfo_None t
        | None => t
        end in
      Some (wall article_time <? cutoff_time current_time)
  | None => None
  end.

(** One pass of the loop body. *)
Definition step (processed_articles : gset article_id) (current_time : Z)
    (st : loop_state) (item : rss_item) : loop_state :=
  match truthy_link (link_elem item) with
  | None => st
  | Some _ =>
      match older_than_cutoff current_time
              (get_text_or (pubDate_elem item) "Unknown") with
      | Some true =>
          {| articles_data := articles_data st;
             skipped_count := skipped_count st;
             time_filtered_count := S (time_filtered_count st);
             parse_errors := parse_errors st |}
      | verdict =>
          let parse_errors' :=
            match verdict with
            | None => S (parse_errors st)
            | Some _ => parse_errors st
            end in
          if decide (key_of item ∈ processed_articles) then
            {| articles_data := articles_data st;
               skipped_count := S (skipped_count st);
               time_filtered_count := time_filtered_count st;
               parse_errors := parse_errors' |}
          else
            {| articles_data := articles_data st ++ [to_article item];
               skipped_count := skipped_count st;
               time_filtered_count := time_filtered_count st;
               parse_errors := parse_errors' |}
      end
  end.

Definition initial_state : loop_state :=
  {| articles_data := []; skipped_count := 0%nat;
     time_filtered_count := 0%nat; parse_errors := 0%nat |}.

Definition run_loop (processed_articles : gset article_id) (current_time : Z)
    (items : list rss_item) (st : loop_state) : loop_state :=
  fold_left (step processed_articles current_time) items st.

(** [fetch_business_news_rss(processed_articles)].  [current_time] is
    [datetime.now()]; [response] is the list of [<item>]s, or [None] when the
    download or the XML parse raised (outer handler: [return []]). *)
Definition fetch_business_news_rss (processed_articles : gset article_id)
    (current_time : Z) (response : option (list rss_item)) : list article :=
  match response with
  | Some items =>
      articles_data (run_loop processed_articles current_time items initial_state)
  | None => []
  end.

(** Items that get past the link test and the time filter. *)
Definition admitted (current_time : Z) (item : rss_item) : bool :=
  match truthy_link (link_elem item) with
  | None => false
  | Some _ =>
      match older_than_cutoff current_time
              (get_text_or (pubDate_elem item) "Unknown") with
      | Some true => false
      | _ => true
      end
  end.

(** Items the loop appends: admitted, and their key not yet processed. *)
Definition kept (processed_articles : gset article_id) (current_time : Z)
    (item : rss_item) : bool :=
  admitted current_time item &&
  negb (bool_decide (key_of item ∈ processed_articles)).

(** How many admitted items of the feed carry key [k]. *)
Definition carriers (current_time : Z) (k : article_id) (items : list rss_item) : nat :=
  length (List.filter
            (fun item => admitted current_time item && bool_decide (key_of item = k))
            items).

End WithParser.

(** How many returned articles carry key [k]. *)
Definition occurrences (k : article_id) (out : list article) : nat :=
  length (List.filter (fun a => bool_decide (id a = k)) out).

(** A parser for the examples: ["old"] reads as time 0 in UTC, ["new"] as
    2000 minutes later, anything else does not parse. *)
Definition toy_parse (s : string) : option datetime :=
  if String.eqb s "old" then Some {| wall := 0; tzinfo := Some 0 |}
  else if String.eqb s "new" then
    Some {| wall := timedelta_minutes 2000; tzinfo := Some 0 |}
  else None.

Definition toy_now : Z := timedelta_minutes 2000.

Definition mk_item (t l d s : string) : rss_item :=
  {| title_elem := Some t; link_elem := Some l;
     pubDate_elem := Some d; source_elem := Some s |}.

End Feed.

(* ===================================================================== *)
(** * Identifier matcher ([get_isin_for_company]) *)
(* ===================================================================== *)

Module Matcher.

(** A cell of the reference spreadsheet: blank ([NaN]) or text. *)
Inductive cell := NaN | Text (s : string).

(** One row of the table: column name to cell. *)
Definition row := list (string * cell).

Record DataFrame := { columns : list string; rows : list row }.

Fixpoint row_lookup (col : string) (r : row) : option cell :=
  match r with
  | [] => None
  | (c, v) :: rest => if String.eqb col c then Some v else row_lookup col rest
  end.

(** [row[col]]; a cell the sheet does not have reads as blank. *)
Definition cell_at (col : string) (r : row) : cell :=
  match row_lookup col r with
  | Some v => v
  | None => NaN
  end.

(** [col in df.columns] *)
Definition has_column (df : DataFrame) (col : string) : bool :=
  existsb (String.eqb col) (columns df).

(** [df[col].dropna().tolist()] *)
Fixpoint dropna_tolist (col : string) (rs : list row) : list string :=
  match rs with
  | [] => []
  | r :: rest =>
      match cell_at col r with
      | Text s => s :: dropna_tolist col rest
      | NaN => dropna_tolist col rest
      end
  end.

Definition cell_eqb (c : cell) (name : string) : bool :=
  match c with
  | Text s => String.eqb s name
  | NaN => false
  end.

(** [df[df[col] == name]] *)
Definition rows_equal (df : DataFrame) (col name : string) : list row :=
  List.filter (fun r => cell_eqb (cell_at col r) name) (rows df).

(** [.iloc[0]] *)
Definition iloc0 (rs : list row) : exn + row :=
  match rs with
  | r :: _ => inr r
  | [] => inl IndexError
  end.

(** [v = row.get(col, ''); str(v) if pd.notna(v) else ''] *)
Definition get_str (df : DataFrame) (r : row) (col : string) : string :=
  if has_column df col then
    match cell_at col r with
    | Text s => s
    | NaN => ""
    end
  else "".

Record match_record := {
  matched_name : string;
  isin : string;
  nse_symbol : string;
  bse_code : string;
  industry : string;
  rank : Z;
  score : Z
}.

Definition company_column : string := "Company Name".

Definition default_excel_file : string := "accord_bse_mapping_original.xlsx".

(** [try: body except Exception: handler] for code without outside effects. *)
Definition try_exceptE {A} (body : exn + A) (handler : exn -> exn + A) : exn + A :=
  match body with
  | inr a => inr a
  | inl e => handler e
  end.

Section WithScorer.

(** [fuzz.token_sort_ratio] on the processed strings: an integer score. *)
Variable scorer : string -> string -> Z.

(** [pd.read_excel]; [inl] when the file cannot be read. *)
Variable read_excel : string -> exn + DataFrame.

(** [process.extractWithoutOrder] of the fuzzy-matching library with its
    default [score_cutoff=0]: every choice with its score, in table order. *)
Definition extractWithoutOrder (query : string) (choices : list string)
    : list (string * Z) :=
  List.filter (fun p => 0 <=? snd p) (map (fun c => (c, scorer query c)) choices).

(** Insertion that keeps earlier entries first among equal scores. *)
Fixpoint insert_desc (p : string * Z) (l : list (string * Z)) : list (string * Z) :=
  match l with
  | [] => [p]
  | q :: l' => if snd q <=? snd p then p :: l else q :: insert_desc p l'
  end.

(** [sorted(l, key=score, reverse=True)]: stable, highest score first. *)
Definition sorted_desc (l : list (string * Z)) : list (string * Z) :=
  foldr insert_desc [] l.

(** [heapq.nlargest(n, l, key=score)], which is [sorted_desc l] cut at [n]
    (nothing for [n <= 0]). *)
Definition nlargest (n : Z) (l : list (string * Z)) : list (string * Z) :=
  take (Z.to_nat n) (sorted_desc l).

(** [process.extract(query, choices, scorer=..., limit=limit)] *)
Definition extract (query : string) (choices : list string) (limit : Z)
    : list (string * Z) :=
  nlargest limit (extractWithoutOrder query choices).

(** The [for rank, (matched_name, score) in enumerate(matches, 1)] loop. *)
Fixpoint collect (df : DataFrame) (min_score : Z) (rank : Z)
    (matches : list (string * Z)) : exn + list match_record :=
  match matches with
  | [] => inr []
  | (matched_name, score) :: rest =>
      if score <? min_score then collect df min_score (rank + 1) rest
      else
        r <-- iloc0 (rows_equal df company_column matched_name) ;;
        results <-- collect df min_score (rank + 1) rest ;;
        inr ({| matched_name := matched_name;
                isin := get_str df r "CD_ISIN No";
                nse_symbol := get_str df r "CD_NSE Symbol";
                bse_code := get_str df r "CD_BSE Code";
                industry := get_str df r "CD_Industry1";
                rank := rank;
                score := score |} :: results)
  end.

(** [get_isin_for_company(company_name, excel_file, top_n, min_score)].
    The result is [inr] of the returned list; [inl] would be an exception
    leaving the function. *)
Definition get_isin_for_company (company_name : string) (excel_file : string)
    (top_n : Z) (min_score : Z) : exn + list match_record :=
  if negb (Py.nonempty company_name) then inr []
  else
    try_exceptE
      (df <-- read_excel excel_file ;;
       if negb (has_column df company_column) then inr []
       else
         let company_names := dropna_tolist company_column (rows df) in
         let matches := extract company_name company_names top_n in
         collect df min_score 1 matches)
      (fun _ => inr []).

End WithScorer.

(** Order on scored candidates: the first scores at least the second. *)
Definition outranks (p q : string * Z) : Prop := snd p >= snd q.

(** Highest score first: every score is at least every later one. *)
Definition descending (scores : list Z) : Prop := StronglySorted Z.ge scores.

(** Fixtures for the examples: a scorer that gives 100 to an exact match,
    80 to a match of the first word and 10 to anything else, and a
    three-row table. *)
Definition toy_scorer (query choice : string) : Z :=
  if String.eqb query choice then 100
  else if String.eqb (hd "" (Py.split_ws query)) (hd "" (Py.split_ws choice)) then 80
  else 10.

Definition toy_table : DataFrame :=
  {| columns := ["Company Name"; "CD_ISIN No"; "CD_Industry1"];
     rows :=
       [ [("Company Name", Text "Tata Steel Ltd"); ("CD_ISIN No", Text "INE081A01020");
          ("CD_Industry1", Text "Steel")];
         [("Company Name", NaN); ("CD_ISIN No", Text "INE000000000");
          ("CD_Industry1", NaN)];
         [("Company Name", Text "Tata Motors Ltd"); ("CD_ISIN No", Text "INE155A01022");
          ("CD_Industry1", Text "Automobiles")];
         [("Company Name", Text "Infosys Ltd"); ("CD_ISIN No", NaN);
          ("CD_Industry1", Text "IT")] ] |}.

Definition toy_read_excel (path : string) : exn + DataFrame :=
  if String.eqb path default_excel_file then inr toy_table else inl OSError.

End Matcher.

(* ===================================================================== *)
(** * Talking to the LLM (shared by [isin.py] and [prompts.py]) *)
(* ===================================================================== *)

Module Llm.

(** [os.getenv("GEMINI_API_KEY")] is usable: set and not empty. *)
Definition key_present (api_key : option string) : bool :=
  match api_key with
  | Some k => Py.nonempty k
  | None => false
  end.

(** [l[i]] for [i = 0, 1] *)
Definition index (l : list string) (i : nat) : exn + string :=
  match nth_error l i with
  | Some s => inr s
  | None => inl IndexError
  end.

(** The newline character. *)
Definition nl : string := String (ascii_of_nat 10) "".

Definition fence_json : string := "```json".

Definition fence : string := "```".

(** The four-way [if] that cuts the JSON text out of the response. *)
Definition json_str_of (response_text : string) : exn + string :=
  if Py.contains fence_json response_text then
    a <-- index (Py.split fence_json response_text) 1 ;;
    b <-- index (Py.split fence a) 0 ;;
    inr (Py.strip b)
  else if Py.contains fence response_text then
    a <-- index (Py.split fence response_text) 1 ;;
    b <-- index (Py.split fence a) 0 ;;
    inr (Py.strip b)
  else if Py.contains "{" response_text then
    let start := Py.find "{" response_text in
    let end_ := Py.rfind "}" response_text + 1 in
    inr (Py.slice response_text start end_)
  else inr response_text.

(** [result.get(..)] needs [result] to be a dict. *)
Definition as_dict (v : json) : exn + list (string * json) :=
  match v with
  | JObj fields => inr fields
  | _ => inl AttributeError
  end.

(** A [str] method called on a JSON value. *)
Definition as_str (v : json) : exn + string :=
  match v with
  | JStr s => inr s
  | _ => inl AttributeError
  end.

Section WithModel.

(** [model.generate_content(prompt)] followed by [response.text]: what the
    model answers to [prompt] after the earlier prompts [history], or the
    exception the call raises. *)
Variable generate_content : list string -> string -> exn + string.

(** One call to the model; the prompt is recorded in the world. *)
Definition ask (prompt : string) : M string :=
  fun w =>
    (generate_content (llm_calls w) prompt,
     {| llm_calls := llm_calls w ++ [prompt];
        webhook_calls := webhook_calls w;
        console := console w |}).

End WithModel.

End Llm.

(* ===================================================================== *)
(** * Entity extractor ([extract_company_simple]) *)
(* ===================================================================== *)

Module Extractor.

Definition invalid_terms : list string :=
  ["company"; "corporation"; "firm"; "business"; "the"; "inc"; "ltd"; "limited"].

(** [x in invalid_terms] *)
Definition is_invalid_term (x : string) : bool := existsb (String.eqb x) invalid_terms.

(** [company_name_lower in article_text_lower or
     company_name_lower in article_title_lower] *)
Definition occurs_in (needle article_text article_title : string) : bool :=
  Py.contains (Py.lower needle) (Py.lower article_text) ||
  Py.contains (Py.lower needle) (Py.lower article_title).

(** [confidence == "low"] *)
Definition is_low (confidence : json) : bool :=
  match confidence with
  | JStr s => String.eqb s "low"
  | _ => false
  end.

(** The checks that follow the parse: generic names, occurrence in the
    article, confidence.  Returns the name, or [""] when a check fails. *)
Definition validate (article_text article_title company_name : string)
    (confidence : json) : string :=
  if negb (Py.nonempty company_name) || String.eqb (Py.upper company_name) "NONE"
  then ""
  else if is_invalid_term (Py.lower company_name) then ""
  else
    let appears_in_text := occurs_in company_name article_text article_title in
    let appears_in_text :=
      if negb appears_in_text then
        match Py.split_ws company_name with
        | first :: _ :: _ =>
            if occurs_in first article_text article_title then true
            else appears_in_text
        | _ => appears_in_text
        end
      else appears_in_text in
    if negb appears_in_text then ""
    else if is_low confidence then ""
    else company_name.

Section WithModel.

Variable GEMINI_API_KEY : option string.
Variable generate_content : list string -> string -> exn + string.

(** [json.loads]; [inl JSONDecodeError] on malformed text. *)
Variable json_loads : string -> exn + json.

(** The fixed instruction text of the prompt: the rules before the article
    and the answer format after it. *)
Variable instructions : string.
Variable answer_format : string.

Definition prompt_of (article_text article_title : string) : string :=
  String.concat ""
    [instructions;
     "Article Title: "; Py.or_else article_title "Not provided"; Llm.nl; Llm.nl;
     "Article Text (first 4000 chars): "; Py.prefix_slice article_text 4000;
     Llm.nl; Llm.nl; answer_format].

(** [extract_company_simple(article_text, article_title)] *)
Definition extract_company_simple (article_text article_title : string) : M string :=
  if negb (Llm.key_present GEMINI_API_KEY) then ret ""
  else
    let prompt := prompt_of article_text article_title in
    try_except
      (response <- Llm.ask generate_content prompt ;;
       let response_text := Py.strip response in
       json_str <- lift (Llm.json_str_of response_text) ;;
       result <- lift (json_loads json_str) ;;
       fields <- lift (Llm.as_dict result) ;;
       raw_name <- lift (Llm.as_str (Json.get fields "company_name" (JStr ""))) ;;
       let company_name := Py.strip raw_name in
       let confidence := Json.get fields "confidence" (JStr "low") in
       ret (validate article_text article_title company_name confidence))
      (fun _ => ret "").

End WithModel.

(** The property the validation is there for: [name] occurs in the text or
    the title, or it has several words and its first word does. *)
Definition grounded (name article_text article_title : string) : Prop :=
  occurs_in name article_text article_title = true \/
  exists first rest,
    Py.split_ws name = first :: rest /\ rest <> [] /\
    occurs_in first article_text article_title = true.

(** Fixture for the examples: a parsed answer naming Tata Motors. *)
Definition company_answer : json :=
  JObj [("company_name", JStr "Tata Motors"); ("confidence", JStr "high")].

End Extractor.

(* ===================================================================== *)
(** * Scraped articles *)
(* ===================================================================== *)

Module Article.

(** The dict [summarize_article_data] returns, stored under ['ai_summary']. *)
Record ai_summary := {
  summary : json;
  numeric_data : json;
  data_source : json
}.

(** The article dict that travels through the pipeline.  A field is [None]
    while its key is absent; [d.get(k, default)] reads [default] then. *)
Record article := {
  title : option string;
  source : option string;
  domain : option string;
  url : option string;
  pub_date : option string;
  full_article : option string;
  article_length : option Z;
  company_name : option string;
  scraped_at : option string;
  story_index : option Z;
  article_index : option Z;
  isin_matches : option (list Matcher.match_record);
  primary_isin : option string;
  matched_company_name : option string;
  industry : option string;
  sentiment : option string;
  summary_of : option ai_summary
}.

(** [d.get(k, default)] *)
Definition get {A} (field : option A) (default : A) : A :=
  match field with
  | Some v => v
  | None => default
  end.

(** [article_with_summary = article.copy();
     article_with_summary['ai_summary'] = s] *)
Definition with_summary (a : article) (s : ai_summary) : article :=
  {| title := title a; source := source a; domain := domain a; url := url a;
     pub_date := pub_date a; full_article := full_article a;
     article_length := article_length a; company_name := company_name a;
     scraped_at := scraped_at a; story_index := story_index a;
     article_index := article_index a; isin_matches := isin_matches a;
     primary_isin := primary_isin a;
     matched_company_name := matched_company_name a;
     industry := industry a; sentiment := sentiment a;
     summary_of := Some s |}.

(** The four assignments that attach the matches to an article. *)
Definition with_matches (a : article) (matches : list Matcher.match_record)
    (first : Matcher.match_record) : article :=
  {| title := title a; source := source a; domain := domain a; url := url a;
     pub_date := pub_date a; full_article := full_article a;
     article_length := article_length a; company_name := company_name a;
     scraped_at := scraped_at a; story_index := story_index a;
     article_index := article_index a; isin_matches := Some matches;
     primary_isin := Some (Matcher.isin first);
     matched_company_name := Some (Matcher.matched_name first);
     industry := Some (Matcher.industry first); sentiment := sentiment a;
     summary_of := summary_of a |}.

(** Fixture for the examples: a scraped article with the given text and
    recorded length. *)
Definition scraped (text : string) (length : Z) : article :=
  {| title := Some "A title"; source := Some "A source";
     domain := Some "example.com"; url := Some "https://example.com/a";
     pub_date := Some "new"; full_article := Some text;
     article_length := Some length; company_name := Some "Acme";
     scraped_at := Some "2026-01-01 00:00:00";
     story_index := Some 1; article_index := Some 1;
     isin_matches := None; primary_isin := None;
     matched_company_name := None; industry := None;
     sentiment := None; summary_of := None |}.

End Article.

(* ===================================================================== *)
(** * Summarizer ([summarize_article_data], [summarize_multiple_articles]) *)
(* ===================================================================== *)

Module Summarizer.
Import Article.

(** The result when the API key is missing. *)
Definition no_key_result : ai_summary :=
  {| summary := JStr "API key not configured";
     numeric_data := JArr [];
     data_source := JStr "Unknown" |}.

(** The result of the [except] branch. *)
Definition error_result : ai_summary :=
  {| summary := JStr "Error processing article";
     numeric_data := JArr [];
     data_source := JStr "Unknown" |}.

(** The length the batch loop compares [article_length] with. *)
Definition min_length : Z := 200.

(** [article_text.startswith('ERROR') or article_text.startswith('NO_CONTENT')] *)
Definition is_sentinel (article_text : string) : bool :=
  Py.startswith "ERROR" article_text || Py.startswith "NO_CONTENT" article_text.

Section WithModel.

Variable GEMINI_API_KEY : option string.
Variable generate_content : list string -> string -> exn + string.
Variable json_loads : string -> exn + json.

(** The fixed instruction text of the prompt: its opening, up to the words
    "this news article", and everything from "Your task:" on. *)
Variable analyst_role : string.
Variable task_and_format : string.

Definition prompt_of (article_text article_title company_name : string) : string :=
  let company_context :=
    if Py.nonempty company_name then String.append " about " company_name else "" in
  String.concat ""
    [analyst_role; company_context; " and extract key information."; Llm.nl; Llm.nl;
     "Article Title: "; Py.or_else article_title "Not provided"; Llm.nl; Llm.nl;
     "Article Text: "; Py.prefix_slice article_text 4000; Llm.nl; Llm.nl;
     task_and_format].

(** What comes back for [prompt] in world [w]: the parsed JSON, or the
    exception met on the way (model call, cutting out, parsing). *)
Definition answer (prompt : string) (w : world) : exn + json :=
  response <-- generate_content (llm_calls w) prompt ;;
  json_str <-- Llm.json_str_of (Py.strip response) ;;
  json_loads json_str.

(** [summarize_article_data(article_text, article_title, company_name)] *)
Definition summarize_article_data (article_text article_title company_name : string)
    : M ai_summary :=
  if negb (Llm.key_present GEMINI_API_KEY) then ret no_key_result
  else
    let prompt := prompt_of article_text article_title company_name in
    try_except
      (response <- Llm.ask generate_content prompt ;;
       let response_text := Py.strip response in
       json_str <- lift (Llm.json_str_of response_text) ;;
       result <- lift (json_loads json_str) ;;
       match result with
       | JObj fields =>
           ret {| summary := Json.get fields "summary" (JStr "No summary available");
                  numeric_data := Json.get fields "numeric_data" (JArr []);
                  data_source := Json.get fields "source" (JStr "Unknown") |}
       | _ => raise ValueError
       end)
      (fun _ => ret error_result).

(** The preview printed after an article is summarized:
    [ai_summary['summary'][:80]], and [len(ai_summary['numeric_data'])] when
    that value is truthy.  Only what can raise is kept. *)
Definition show_preview (s : ai_summary) : exn + unit :=
  _ <-- Json.py_slice_prefix (summary s) 80 ;;
  if Json.truthy (numeric_data s) then
    _ <-- Json.py_len (numeric_data s) ;; inr tt
  else inr tt.

(** One pass of the batch loop over [article], appending to
    [summarized_articles]. *)
Definition summarize_one (summarized_articles : list article) (a : article)
    : M (list article) :=
  let article_text := get (full_article a) "" in
  let article_title := get (title a) "" in
  let company := get (company_name a) "" in
  if get (article_length a) 0 <? min_length then ret summarized_articles
  else if is_sentinel article_text then ret summarized_articles
  else
    s <- summarize_article_data article_text article_title company ;;
    let summarized_articles := summarized_articles ++ [with_summary a s] in
    exec lift (show_preview s) ;;
    ret summarized_articles.

Fixpoint summarize_loop (articles : list article) (summarized_articles : list article)
    : M (list article) :=
  match articles with
  | [] => ret summarized_articles
  | a :: rest =>
      acc <- summarize_one summarized_articles a ;;
      summarize_loop rest acc
  end.

(** [summarize_multiple_articles(articles)] *)
Definition summarize_multiple_articles (articles : list article) : M (list article) :=
  match articles with
  | [] => ret []
  | _ => summarize_loop articles []
  end.

End WithModel.

(** [summarize_article_data] met a failure: the model call raised, the JSON
    text could not be cut out or parsed, or it parsed to something that is
    not an object. *)
Definition failed (outcome : exn + json) : bool :=
  match outcome with
  | inr (JObj _) => false
  | _ => true
  end.

End Summarizer.

(* ===================================================================== *)
(** * Notifier ([send_slack_message]) *)
(* ===================================================================== *)

Module Notifier.

(** The values [send_slack_message] may be handed: a list, or anything
    else, which it turns into text with [str]. *)
Inductive scalar :=
| PyNone
| PyBool (b : bool)
| PyInt (z : Z)
| PyStr (s : string).

#[local] Set Warnings "-register-all".

Inductive pyval :=
| Atom (v : scalar)
| PyList (items : list pyval).

(** [str(v)] *)
Definition py_str (v : scalar) : string :=
  match v with
  | PyNone => "None"
  | PyBool true => "True"
  | PyBool false => "False"
  | PyInt z => pretty z
  | PyStr s => s
  end.

(** What [requests.post] returns. *)
Record response := { status_code : Z; text : string }.

(** [m and isinstance(m, str)]: the text of [m] when it passes. *)
Definition sendable (m : pyval) : option string :=
  match m with
  | Atom (PyStr s) => if Py.nonempty s then Some s else None
  | _ => None
  end.

(** [[m for m in message if m and isinstance(m, str)]] *)
Fixpoint sendable_items (items : list pyval) : list string :=
  match items with
  | [] => []
  | m :: rest =>
      match sendable m with
      | Some s => s :: sendable_items rest
      | None => sendable_items rest
      end
  end.

(** [if(slack_url)]: set and not empty. *)
Definition configured (slack_url : option string) : option string :=
  match slack_url with
  | Some u => if Py.nonempty u then Some u else None
  | None => None
  end.

Definition missing_url_notice : string := "SLACK_URL not found in .env file".

Section WithWebhook.

(** [os.getenv("SLACK_URL")] *)
Variable SLACK_URL : option string.

(** [requests.post(url, json={"text": text})] after the earlier posts
    [history]: the response, or the exception the call raises. *)
Variable requests_post : list (string * string) -> string -> string -> exn + response.

(** One outbound call; it is recorded in the world whether or not it
    raises. *)
Definition post (url text : string) : M response :=
  fun w =>
    (requests_post (webhook_calls w) url text,
     {| llm_calls := llm_calls w;
        webhook_calls := webhook_calls w ++ [(url, text)];
        console := console w |}).

(** The two [print] branches after a post; [label] is [" {idx}"] in the
    list case and empty otherwise. *)
Definition report (label : string) (r : response) : M unit :=
  if status_code r =? 200 then
    print (String.concat "" ["Slack message"; label; " sent successfully"])
  else
    exec print (String.concat ""
                  ["Failed to send Slack message"; label; ": "; pretty (status_code r)]) ;;
    print (String.append "Error: " (text r)).

(** The [for idx, item in enumerate(..., 1)] loop. *)
Fixpoint send_each (url : string) (idx : Z) (items : list string) : M unit :=
  match items with
  | [] => ret tt
  | item :: rest =>
      r <- post url item ;;
      exec report (String.append " " (pretty idx)) r ;;
      send_each url (idx + 1) rest
  end.

(** [send_slack_message(message)] *)
Definition send_slack_message (message : pyval) : M unit :=
  match configured SLACK_URL with
  | Some slack_url =>
      match message with
      | PyList items => send_each slack_url 1 (sendable_items items)
      | Atom v =>
          r <- post slack_url (py_str v) ;;
          report "" r
      end
  | None => print missing_url_notice
  end.

End WithWebhook.

(** No post raises, whatever went before. *)
Definition never_raises
    (requests_post : list (string * string) -> string -> string -> exn + response)
    : Prop :=
  forall history url text, exists r, requests_post history url text = inr r.

(** Fixtures for the examples: a webhook that accepts everything, and one
    that cannot be reached. *)
Definition ok_post (history : list (string * string)) (url text : string)
    : exn + response :=
  inr {| status_code := 200; text := "ok" |}.

Definition unreachable_post (history : list (string * string)) (url text : string)
    : exn + response :=
  inl RequestException.

End Notifier.

(* ===================================================================== *)
(** * Content resolver, [main] and the driver loop *)
(* ===================================================================== *)

Module Driver.
Import Article.

Definition MIN_ARTICLE_LENGTH : Z := 200.

(** Everything outside the repository that one run depends on. *)
Record externals := {
  (** [date_parser.parse], [None] when it raises *)
  parse_date : string -> option Feed.datetime;
  (** the [%d-%m-%Y %H:%M:%S] rendering, in IST, of a parsed [pub_date];
      [None] when parsing raises *)
  release_time_ist : string -> option string;
  (** [page.goto(url)] then [page.url] *)
  page_url_after_goto : string -> exn + string;
  (** [page.goto(url)], then the text of every [<p>] left once scripts,
      styles and page furniture are removed *)
  page_paragraphs : string -> exn + list string;
  (** [str(e)] *)
  exn_text : exn -> string;
  (** [urlparse(url).netloc]; it raises [ValueError] on a malformed
      address *)
  netloc : string -> exn + string;
  (** [async_playwright()], [chromium.launch], [new_context] and
      [new_page], which open the [async with] block *)
  browser_start : exn + unit;
  (** [browser.close()] and the end of the [async with] block *)
  browser_close : exn + unit;
  (** [datetime.now().strftime(..)] *)
  now_text : string;
  GEMINI_API_KEY : option string;
  generate_content : list string -> string -> exn + string;
  json_loads : string -> exn + json;
  extract_instructions : string;
  extract_answer_format : string;
  summary_role : string;
  summary_task : string;
  scorer : string -> string -> Z;
  read_excel : string -> exn + Matcher.DataFrame;
  SLACK_URL : option string;
  requests_post : list (string * string) -> string -> string -> exn + Notifier.response;
  (** [str(v)] of a parsed JSON value that is not a string *)
  str_of_json : json -> string
}.

(** What one iteration finds outside: the clock and the feed. *)
Record poll := {
  current_time : Z;
  response : option (list Feed.rss_item)
}.

Section WithExternals.

Variable E : externals.

(** [get_story_url(page, google_news_url)] *)
Definition get_story_url (google_news_url : string) : option (list string) :=
  match page_url_after_goto E google_news_url with
  | inr u => if Py.nonempty u then Some [u] else None
  | inl _ => None
  end.

(** [[p.strip() for p in paragraphs if len(p.strip()) > 30]] *)
Definition long_paragraphs (paragraphs : list string) : list string :=
  List.filter (fun p => 30 <? Py.len p) (map Py.strip paragraphs).

(** [scrape_article_content(url, page)] *)
Definition scrape_article_content (url : string) : string :=
  match page_paragraphs E url with
  | inr paragraphs =>
      let text := Py.join " " (long_paragraphs paragraphs) in
      if Py.nonempty text then Py.strip text else "NO_CONTENT"
  | inl e => String.append "ERROR: " (Py.prefix_slice (exn_text E e) 100)
  end.

Definition extract_company_simple (article_text article_title : string) : M string :=
  Extractor.extract_company_simple (GEMINI_API_KEY E) (generate_content E)
    (json_loads E) (extract_instructions E) (extract_answer_format E)
    article_text article_title.

(** The body of the inner [for url_idx, url in enumerate(story_urls, 1)]
    loop: scrape one URL of story [i] and build its dict. *)
Definition scrape_url (a : Feed.article) (i url_idx : Z) (url : string) : M article :=
  let full_article := scrape_article_content url in
  let article_length :=
    if negb (Py.startswith "ERROR" full_article) &&
       negb (Py.startswith "NO_CONTENT" full_article)
    then Py.len full_article else 0 in
  domain <- lift (n <-- netloc E url ;; inr (Py.replace "www." "" n)) ;;
  company_name <-
    (if MIN_ARTICLE_LENGTH <? article_length
     then extract_company_simple full_article (Feed.title a)
     else ret "") ;;
  ret {| title := Some (Feed.title a);
         source := Some (Feed.source a);
         domain := Some domain;
         url := Some url;
         pub_date := Some (Feed.pub_date a);
         full_article := Some full_article;
         article_length := Some article_length;
         company_name := Some company_name;
         scraped_at := Some (now_text E);
         story_index := Some i;
         article_index := Some url_idx;
         isin_matches := None; primary_isin := None;
         matched_company_name := None; industry := None;
         sentiment := None; summary_of := None |}.

Fixpoint scrape_urls (a : Feed.article) (i url_idx : Z) (story_urls : list string)
    (scraped_articles : list article) : M (list article) :=
  match story_urls with
  | [] => ret scraped_articles
  | url :: rest =>
      d <- scrape_url a i url_idx url ;;
      scrape_urls a i (url_idx + 1) rest (scraped_articles ++ [d])
  end.

(** The [for i, article in enumerate(articles, 1)] loop. *)
Fixpoint scrape_stories (articles : list Feed.article) (i : Z)
    (scraped_articles : list article) : M (list article) :=
  match articles with
  | [] => ret scraped_articles
  | a :: rest =>
      let google_news_url := Feed.link a in
      if Py.contains "news.google.com" google_news_url then
        match get_story_url google_news_url with
        | Some story_urls =>
            acc <- scrape_urls a i 1 story_urls scraped_articles ;;
            scrape_stories rest (i + 1) acc
        | None => scrape_stories rest (i + 1) scraped_articles
        end
      else
        acc <- scrape_urls a i 1 [google_news_url] scraped_articles ;;
        scrape_stories rest (i + 1) acc
  end.

(** [scrape_all_articles(articles)]: the browser is started, the stories
    are scraped, the browser is closed.  Nothing in the function catches
    what the start, the close or [urlparse] raise. *)
Definition scrape_all_articles (articles : list Feed.article) : M (list article) :=
  match articles with
  | [] => ret []
  | _ =>
      exec lift (browser_start E) ;;
      scraped_articles <- scrape_stories articles 1 [] ;;
      exec lift (browser_close E) ;;
      ret scraped_articles
  end.

(** [company_to_articles[company].append(article)], creating the entry at
    the end when the company is new (dicts keep insertion order). *)
Fixpoint add_to_company (company : string) (a : article)
    (groups : list (string * list article)) : list (string * list article) :=
  match groups with
  | [] => [(company, [a])]
  | (c, l) :: rest =>
      if String.eqb c company then (c, l ++ [a]) :: rest
      else (c, l) :: add_to_company company a rest
  end.

Definition group_by_company (scraped_articles : list article)
    : list (string * list article) :=
  fold_left
    (fun groups a =>
       let company := get (company_name a) "" in
       if Py.nonempty company then add_to_company company a groups else groups)
    scraped_articles [].

(** The [for company, company_articles in company_to_articles.items()]
    loop, which fills [articles_with_isin]. *)
Fixpoint attach_matches (groups : list (string * list article))
    (articles_with_isin : list article) : exn + list article :=
  match groups with
  | [] => inr articles_with_isin
  | (company, company_articles) :: rest =>
      matches <-- Matcher.get_isin_for_company (scorer E) (read_excel E)
                    company Matcher.default_excel_file 3 70 ;;
      match matches with
      | first :: _ =>
          attach_matches rest
            (articles_with_isin ++
               map (fun a => with_matches a matches first) company_articles)
      | [] => attach_matches rest articles_with_isin
      end
  end.

(** [print_summary_results]: only what can raise is kept.  Per article:
    [summary.split('\n')] needs a string, and a truthy [numeric_data] is
    iterated. *)
Definition show_article (a : article) : exn + unit :=
  let s := summary_of a in
  let summary_value :=
    match s with Some s => summary s | None => JStr "No summary" end in
  let numeric :=
    match s with Some s => numeric_data s | None => JArr [] end in
  _ <-- Llm.as_str summary_value ;;
  if Json.truthy numeric then _ <-- Json.py_len numeric ;; inr tt
  else inr tt.

(** The statistics at the end take [len] of every [numeric_data]. *)
Definition count_points (a : article) : exn + Z :=
  match summary_of a with
  | Some s => Json.py_len (numeric_data s)
  | None => inr 0
  end.

Fixpoint each {A} (f : A -> exn + unit) (l : list A) : exn + unit :=
  match l with
  | [] => inr tt
  | x :: rest => _ <-- f x ;; each f rest
  end.

Definition print_summary_results (articles_with_summaries : list article) : exn + unit :=
  match articles_with_summaries with
  | [] => inr tt
  | _ =>
      _ <-- each show_article articles_with_summaries ;;
      each (fun a => _ <-- count_points a ;; inr tt) articles_with_summaries
  end.

(** [a or b] when [a] may be absent. *)
Definition first_truthy (a : option string) (b : string) : string :=
  match a with
  | Some s => Py.or_else s b
  | None => b
  end.

(** How an f-string renders the summary value. *)
Definition render (v : json) : string :=
  match v with
  | JStr s => s
  | _ => str_of_json E v
  end.

(** [format_slack_message_from_article(article)] *)
Definition format_slack_message_from_article (a : article) : string :=
  let company :=
    first_truthy (matched_company_name a)
      (first_truthy (company_name a) "Unknown Company") in
  let summary_text :=
    match summary_of a with
    | Some s => if Json.truthy (summary s) then render (summary s)
                else "No summary available"
    | None => "No summary available"
    end in
  let industry_text := get (industry a) "Unknown" in
  let url_text := get (url a) "" in
  let release_time :=
    match pub_date a with
    | Some raw =>
        if Py.nonempty raw then
          match release_time_ist E raw with
          | Some t => Some (String.append t " IST")
          | None => None
          end
        else None
    | None => None
    end in
  let sentiment_text := first_truthy (sentiment a) "" in
  let lines :=
    [String.concat "" ["*"; company; "*"];
     String.append "*Summary:* " summary_text]
    ++ (if Py.nonempty sentiment_text
        then [String.append "*Sentiment:* " sentiment_text] else [])
    ++ [String.append "*Industry:* " industry_text]
    ++ (if Py.nonempty url_text then [String.append "*Link:* " url_text] else []) in
  String.concat ""
    [Py.join Llm.nl lines;
     match release_time with
     | Some t => String.concat "" [Llm.nl; "*Release Time:* "; t]
     | None => ""
     end;
     Llm.nl; "------------------------------"].

(** [[msg for each article if msg.strip()]] *)
Definition slack_messages_of (articles_with_summaries : list article) : list string :=
  List.filter (fun msg => Py.nonempty (Py.strip msg))
    (map format_slack_message_from_article articles_with_summaries).

Definition summarize_multiple_articles (articles : list article) : M (list article) :=
  Summarizer.summarize_multiple_articles (GEMINI_API_KEY E) (generate_content E)
    (json_loads E) (summary_role E) (summary_task E) articles.

Definition send_slack_message (message : Notifier.pyval) : M unit :=
  Notifier.send_slack_message (SLACK_URL E) (requests_post E) message.

(** The block of [main] under [if scraped_articles:], up to its [return]:
    match companies, summarize, notify.  [print_json_results] and the other
    console output of the block only print and are left out. *)
Definition process_scraped (scraped_articles : list article) : M unit :=
  match group_by_company scraped_articles with
  | [] => ret tt
  | company_to_articles =>
      articles_with_isin <- lift (attach_matches company_to_articles []) ;;
      match articles_with_isin with
      | [] => ret tt
      | _ =>
          articles_with_summaries <- summarize_multiple_articles articles_with_isin ;;
          match articles_with_summaries with
          | [] => ret tt
          | _ =>
              exec lift (print_summary_results articles_with_summaries) ;;
              match slack_messages_of articles_with_summaries with
              | [] => ret tt
              | slack_messages =>
                  send_slack_message
                    (Notifier.PyList
                       (map (fun s => Notifier.Atom (Notifier.PyStr s)) slack_messages))
              end
          end
      end
  end.

(** [main(processed_articles_set)] for the poll [p]. *)
Definition main (p : poll) (processed_articles_set : gset Feed.article_id)
    : M (list Feed.article) :=
  let articles :=
    Feed.fetch_business_news_rss (parse_date E) processed_articles_set
      (current_time p) (response p) in
  match articles with
  | [] => ret []
  | _ =>
      scraped_articles <- scrape_all_articles articles ;;
      match scraped_articles with
      | [] => ret []
      | _ =>
          exec process_scraped scraped_articles ;;
          ret articles
      end
  end.

(** [for article in processed_articles_list:
       processed_articles.add(article['article_id'])]
    (every dict the fetcher builds has the key ['article_id']). *)
Definition mark (processed_articles : gset Feed.article_id)
    (processed_articles_list : list Feed.article) : gset Feed.article_id :=
  fold_left (fun s a => s ∪ {[ Feed.id a ]}) processed_articles_list processed_articles.

(** One pass of the [while True] loop: the [try] around [main] and the
    marking; any exception leaves the set as it was. *)
Definition iteration (p : poll) (processed_articles : gset Feed.article_id)
    : M (gset Feed.article_id) :=
  try_except
    (processed_articles_list <- main p processed_articles ;;
     ret (mark processed_articles processed_articles_list))
    (fun _ => ret processed_articles).

(** The driver loop over the polls of successive iterations. *)
Fixpoint run (polls : list poll) (processed_articles : gset Feed.article_id)
    : M (gset Feed.article_id) :=
  match polls with
  | [] => ret processed_articles
  | p :: rest =>
      processed_articles' <- iteration p processed_articles ;;
      run rest processed_articles'
  end.

End WithExternals.

(** Fixtures for the examples: one fresh feed item about Acme, a page with
    seven long paragraphs, a model that answers the extraction prompt with
    Acme and the summary prompt with a short summary, and a table that
    lists Acme. *)
Definition toy_paragraph : string := "Acme Corp posted record profits this quarter.".

Definition toy_generate (history : list string) (prompt : string) : exn + string :=
  if Py.startswith "extract" prompt then inr "{company}" else inr "{summary}".

Definition toy_loads (s : string) : exn + json :=
  if String.eqb s "{company}" then
    inr (JObj [("company_name", JStr "Acme"); ("confidence", JStr "high")])
  else if String.eqb s "{summary}" then
    inr (JObj [("summary", JStr "Record profits."); ("numeric_data", JArr []);
               ("source", JStr "Company")])
  else inl JSONDecodeError.

Definition toy_acme_table : Matcher.DataFrame :=
  {| Matcher.columns := ["Company Name"; "CD_ISIN No"];
     Matcher.rows := [ [("Company Name", Matcher.Text "Acme");
                        ("CD_ISIN No", Matcher.Text "INE000A00001")] ] |}.

Definition toy_externals
    (post : list (string * string) -> string -> string -> exn + Notifier.response)
    : externals :=
  {| parse_date := Feed.toy_parse;
     release_time_ist := fun _ => None;
     page_url_after_goto := fun _ => inr "https://www.example.com/acme";
     page_paragraphs := fun _ => inr (repeat toy_paragraph 7);
     exn_text := fun _ => "failure";
     netloc := fun _ => inr "www.example.com";
     browser_start := inr tt;
     browser_close := inr tt;
     now_text := "2026-01-01 00:00:00";
     GEMINI_API_KEY := Some "key";
     generate_content := toy_generate;
     json_loads := toy_loads;
     extract_instructions := "extract";
     extract_answer_format := "";
     summary_role := "summarize";
     summary_task := "";
     scorer := Matcher.toy_scorer;
     read_excel := fun _ => inr toy_acme_table;
     SLACK_URL := Some "https://hooks.example.com/T";
     requests_post := post;
     str_of_json := fun _ => "" |}.

Definition toy_poll : poll :=
  {| current_time := Feed.toy_now;
     response :=
       Some [Feed.mk_item "Acme profits" "https://news.google.com/rss/articles/1"
               "new" "Example News"] |}.

(** What the fetcher returns for [toy_poll] and an empty processed set. *)
Definition toy_article : Feed.article :=
  {| Feed.title := "Acme profits";
     Feed.link := "https://news.google.com/rss/articles/1";
     Feed.source := "Example News";
     Feed.pub_date := "new";
     Feed.id := ("Acme profits", "Example News") |}.

End Driver.

(* ===================================================================== *)
(** * The feed fetcher in the words of its specification *)
(* ===================================================================== *)

(** These definitions follow the words of the specification, not the code:
    what an item's age is, and which items are due.  Offsets are
    microseconds east of UTC, as [wall] is in microseconds. *)
Module FeedWords.
Import Feed.

(** The lookback window: 24 hours. *)
Definition lookback_window : Z := 24 * 60 * 60 * 1000000.

(** The text handed to the date parser. *)
Definition date_text (item : rss_item) : string :=
  match pubDate_elem item with
  | Some d => d
  | None => "Unknown"
  end.

(** The instant a parsed date denotes on the UTC line: its reading less the
    offset of its zone; a date without zone is local time. *)
Definition instant (local_offset : Z) (t : datetime) : Z :=
  wall t - match tzinfo t with
           | Some offset => offset
           | None => local_offset
           end.

(** The instant of a poll: the reading of the local clock less the
    machine's offset. *)
Definition poll_instant (local_offset current_time : Z) : Z :=
  current_time - local_offset.

(** The item was published more than the lookback window before the poll. *)
Definition older_than_window (parse : string -> option datetime)
    (local_offset current_time : Z) (item : rss_item) : bool :=
  match parse (date_text item) with
  | Some t =>
      lookback_window <? poll_instant local_offset current_time - instant local_offset t
  | None => false
  end.

(** The item has a link element with a non-empty text. *)
Definition has_link (item : rss_item) : bool :=
  match link_elem item with
  | Some l => negb (String.eqb l "")
  | None => false
  end.

(** The date text does not parse, or it is dated in the zone of the
    machine's clock: it carries no zone, or the machine's offset. *)
Definition local_date (parse : string -> option datetime) (local_offset : Z)
    (date : string) : bool :=
  match parse date with
  | Some t =>
      match tzinfo t with
      | Some offset => offset =? local_offset
      | None => true
      end
  | None => true
  end.

(** The item is due: locally dated, linked and not older than the
    lookback window. *)
Definition due (parse : string -> option datetime) (local_offset current_time : Z)
    (item : rss_item) : bool :=
  local_date parse local_offset (date_text item) &&
  has_link item &&
  negb (older_than_window parse local_offset current_time item).

(** The same for a returned article, by the date text it carries. *)
Definition dated_locally (parse : string -> option datetime) (local_offset : Z)
    (a : article) : bool :=
  local_date parse local_offset (pub_date a).

(** The item's identity key is not yet in the processed set. *)
Definition new_key (processed_articles : gset article_id) (item : rss_item) : bool :=
  negb (bool_decide (key_of item ∈ processed_articles)).

Definition hours (h : Z) : Z := h * 60 * 60 * 1000000.

(** Fixture: a parser that reads ["Mon, 02 Nov 2026 09:00:00 GMT"] as 09:00
    of the day the time line starts with, in the zone of offset 0. *)
Definition gmt_parse (s : string) : option datetime :=
  if String.eqb s "Mon, 02 Nov 2026 09:00:00 GMT"
  then Some {| wall := hours 9; tzinfo := Some 0 |}
  else None.

(** Fixture: a machine eight hours west of UTC whose clock reads 04:00 of
    the next day; the instant is 12:00 UTC of that day. *)
Definition pacific_offset : Z := - hours 8.
Definition pacific_clock : Z := hours 28.

Definition morning_item : rss_item :=
  mk_item "Acme profits" "https://news.google.com/rss/articles/1"
    "Mon, 02 Nov 2026 09:00:00 GMT" "Example News".

(** The parser reads the item's date as the given reading and offset. *)
Definition parse_is (parse : string -> option datetime) (item : rss_item)
    (reading offset : Z) : Prop :=
  parse (date_text item) = Some {| wall := reading; tzinfo := Some offset |}.

End FeedWords.

(* ===================================================================== *)
(** * The fetcher's filtering summary *)
(* ===================================================================== *)

Module FeedCount.
Import Feed.

(** [if link:] holds for the item. *)
Definition linked (item : rss_item) : bool :=
  match truthy_link (link_elem item) with
  | Some _ => true
  | None => false
  end.

(** The item has a link and [date_parser.parse] raises on its date. *)
Definition unparsable (parse : string -> option datetime) (item : rss_item) : bool :=
  linked item &&
  match parse (get_text_or (pubDate_elem item) "Unknown") with
  | Some _ => false
  | None => true
  end.

(** [(title, source)] of a returned article is not in the set. *)
Definition unseen (processed_articles : gset article_id) (a : article) : bool :=
  negb (bool_decide (id a ∈ processed_articles)).

End FeedCount.

(* ===================================================================== *)
(** * Reading a match back against the table *)
(* ===================================================================== *)

Module MatchCheck.
Import Matcher.

(** The candidate [c] is what the table holds for the query: its name is
    the company-name cell of a row, the other fields are read from the first
    row with that name, and its score is the scorer's for the query and
    that name. *)
Definition from_table (scorer : string -> string -> Z) (df : DataFrame)
    (query : string) (c : match_record) : Prop :=
  exists r,
    iloc0 (rows_equal df company_column (matched_name c)) = inr r /\
    In r (rows df) /\
    cell_at company_column r = Text (matched_name c) /\
    score c = scorer query (matched_name c) /\
    isin c = get_str df r "CD_ISIN No" /\
    nse_symbol c = get_str df r "CD_NSE Symbol" /\
    bse_code c = get_str df r "CD_BSE Code" /\
    industry c = get_str df r "CD_Industry1".

(** [score >= min_score] as the later filter of a result list. *)
Definition at_least (min_score : Z) (c : match_record) : bool :=
  min_score <=? score c.

End MatchCheck.

(* ===================================================================== *)
(** * Which articles of a batch are summarized *)
(* ===================================================================== *)

Module BatchCheck.
Import Article Summarizer.

(** The article passes both [continue] tests of the batch loop: recorded
    length at least 200, text not a sentinel. *)
Definition eligible (a : article) : bool :=
  negb (get (article_length a) 0 <? min_length) &&
  negb (is_sentinel (get (full_article a) "")).

(** The prompt the batch loop sends for an article. *)
Definition prompt_for (analyst_role task_and_format : string) (a : article) : string :=
  prompt_of analyst_role task_and_format
    (get (full_article a) "") (get (title a) "") (get (company_name a) "").

(** [o] is [a] with a summary attached and nothing else changed. *)
Definition summary_of_input (o a : article) : Prop :=
  exists s, o = with_summary a s.

End BatchCheck.

(* ===================================================================== *)
(** * What a scraped dict records *)
(* ===================================================================== *)

Module ScrapeCheck.
Import Article.

(** The dict is consistent: a company is named only for a text longer than
    [MIN_ARTICLE_LENGTH], and a sentinel text (ERROR.., NO_CONTENT) is
    recorded with length 0 and no company. *)
Definition consistent (d : article) : Prop :=
  (Py.nonempty (get (company_name d) "") = true ->
   Driver.MIN_ARTICLE_LENGTH < get (article_length d) 0) /\
  (Summarizer.is_sentinel (get (full_article d) "") = true ->
   article_length d = Some 0 /\ company_name d = Some "") /\
  (Summarizer.is_sentinel (get (full_article d) "") = false ->
   article_length d = Some (Py.len (get (full_article d) ""))).

(** No company was named for the dict. *)
Definition unnamed (d : article) : Prop := company_name d = Some "".

(** The text is not empty, and the recorded length is 0 exactly when the
    text begins with the letters ERROR or NO_CONTENT - whether it is a
    marker of [scrape_article_content] or the text of a page that begins
    so. *)
Definition zero_iff_marker_prefix (d : article) : Prop :=
  Py.nonempty (get (full_article d) "") = true /\
  (article_length d = Some 0 <->
   Py.startswith "ERROR" (get (full_article d) "") = true \/
   Py.startswith "NO_CONTENT" (get (full_article d) "") = true).

(** Fixture: a page whose own text begins with the word ERRORS. *)
Definition errors_page : list string :=
  ["ERRORS in the quarterly filing of Acme Corp were corrected on Monday."].

(** What a step of the scrape leaves of the outside: nothing posted,
    nothing printed by the notifier and, without an API key, nothing at
    all. *)
Definition quiet_step (api_key : option string) (w w' : world) : Prop :=
  webhook_calls w' = webhook_calls w /\
  console w' = console w /\
  (Llm.key_present api_key = false -> w' = w).

End ScrapeCheck.

(* ===================================================================== *)
(** * More fixtures for the examples *)
(* ===================================================================== *)

Module Fixtures.
Import Driver.

(** [toy_externals] with a browser that cannot follow any redirect. *)
Definition offline_externals : externals :=
  let E := toy_externals Notifier.ok_post in
  {| parse_date := parse_date E;
     release_time_ist := release_time_ist E;
     page_url_after_goto := fun _ => inl OSError;
     page_paragraphs := page_paragraphs E;
     exn_text := exn_text E;
     netloc := netloc E;
     browser_start := browser_start E;
     browser_close := browser_close E;
     now_text := now_text E;
     GEMINI_API_KEY := GEMINI_API_KEY E;
     generate_content := generate_content E;
     json_loads := json_loads E;
     extract_instructions := extract_instructions E;
     extract_answer_format := extract_answer_format E;
     summary_role := summary_role E;
     summary_task := summary_task E;
     scorer := scorer E;
     read_excel := read_excel E;
     SLACK_URL := SLACK_URL E;
     requests_post := requests_post E;
     str_of_json := str_of_json E |}.

(** [toy_externals] without the two settings of the process. *)
Definition unconfigured_externals : externals :=
  let E := toy_externals Notifier.unreachable_post in
  {| parse_date := parse_date E;
     release_time_ist := release_time_ist E;
     page_url_after_goto := page_url_after_goto E;
     page_paragraphs := page_paragraphs E;
     exn_text := exn_text E;
     netloc := netloc E;
     browser_start := browser_start E;
     browser_close := browser_close E;
     now_text := now_text E;
     GEMINI_API_KEY := None;
     generate_content := generate_content E;
     json_loads := json_loads E;
     extract_instructions := extract_instructions E;
     extract_answer_format := extract_answer_format E;
     summary_role := summary_role E;
     summary_task := summary_task E;
     scorer := scorer E;
     read_excel := read_excel E;
     SLACK_URL := None;
     requests_post := requests_post E;
     str_of_json := str_of_json E |}.

(** [toy_externals] with the API key but no webhook URL. *)
Definition silent_externals : externals :=
  let E := toy_externals Notifier.unreachable_post in
  {| parse_date := parse_date E;
     release_time_ist := release_time_ist E;
     page_url_after_goto := page_url_after_goto E;
     page_paragraphs := page_paragraphs E;
     exn_text := exn_text E;
     netloc := netloc E;
     browser_start := browser_start E;
     browser_close := browser_close E;
     now_text := now_text E;
     GEMINI_API_KEY := GEMINI_API_KEY E;
     generate_content := generate_content E;
     json_loads := json_loads E;
     extract_instructions := extract_instructions E;
     extract_answer_format := extract_answer_format E;
     summary_role := summary_role E;
     summary_task := summary_task E;
     scorer := scorer E;
     read_excel := read_excel E;
     SLACK_URL := None;
     requests_post := requests_post E;
     str_of_json := str_of_json E |}.

(** [toy_externals] with the given pages and the given [urlparse]. *)
Definition browsing (pages : string -> exn + list string)
    (parse_netloc : string -> exn + string) : externals :=
  let E := toy_externals Notifier.ok_post in
  {| parse_date := parse_date E;
     release_time_ist := release_time_ist E;
     page_url_after_goto := page_url_after_goto E;
     page_paragraphs := pages;
     exn_text := exn_text E;
     netloc := parse_netloc;
     browser_start := browser_start E;
     browser_close := browser_close E;
     now_text := now_text E;
     GEMINI_API_KEY := GEMINI_API_KEY E;
     generate_content := generate_content E;
     json_loads := json_loads E;
     extract_instructions := extract_instructions E;
     extract_answer_format := extract_answer_format E;
     summary_role := summary_role E;
     summary_task := summary_task E;
     scorer := scorer E;
     read_excel := read_excel E;
     SLACK_URL := SLACK_URL E;
     requests_post := requests_post E;
     str_of_json := str_of_json E |}.

(** Every page begins with the word ERRORS. *)
Definition errors_externals : externals :=
  browsing (fun _ => inr ScrapeCheck.errors_page) (fun _ => inr "www.example.com").

(** [urlparse] raises on the address the redirect ends at. *)
Definition malformed_externals : externals :=
  browsing (fun _ => inr (repeat toy_paragraph 7)) (fun _ => inl ValueError).

End Fixtures.

(* ===================================================================== *)
(** * Reading the driver loop *)
(* ===================================================================== *)

Module LoopCheck.
Import Driver.

(** The identity keys of all items the polls deliver. *)
Definition feed_keys (polls : list poll) : list Feed.article_id :=
  flat_map
    (fun p => match response p with
              | Some items => map Feed.key_of items
              | None => []
              end)
    polls.

(** The link points to Google News and the browser does not get past it. *)
Definition unresolved (E : externals) (a : Feed.article) : bool :=
  Py.contains "news.google.com" (Feed.link a) &&
  match get_story_url E (Feed.link a) with
  | Some _ => false
  | None => true
  end.

(** A parsed answer with the types the summary prompt asks for: a string
    under ['summary'] and a list under ['numeric_data'], where present. *)
Definition typed_answer (v : json) : bool :=
  match v with
  | JObj fields =>
      match Json.get fields "summary" (JStr "No summary available"),
            Json.get fields "numeric_data" (JArr []) with
      | JStr _, JArr _ => true
      | _, _ => false
      end
  | _ => true
  end.

(** Every answer of the model that can be cut out and parsed has these
    types, whatever the prompt and whatever was asked before. *)
Definition answers_typed (E : externals) : Prop :=
  forall history prompt response json_str v,
    generate_content E history prompt = inr response ->
    Llm.json_str_of (Py.strip response) = inr json_str ->
    json_loads E json_str = inr v ->
    typed_answer v = true.

(** The same for the dict [summarize_article_data] returns. *)
Definition typed_summary (s : Article.ai_summary) : bool :=
  match Article.summary s, Article.numeric_data s with
  | JStr _, JArr _ => true
  | _, _ => false
  end.

(** An article without summary, or with one of these types. *)
Definition typed_article (a : Article.article) : bool :=
  match Article.summary_of a with
  | Some s => typed_summary s
  | None => true
  end.

(** [toy_poll] taken one microsecond later. *)
Definition toy_poll_again : poll :=
  {| current_time := current_time toy_poll + 1; response := response toy_poll |}.

End LoopCheck.

(* ===================================================================== *)
(** * Console report of the scrape ([print_json_results]) *)
(* ===================================================================== *)

Module Report.
Import Article.

(** What can leave the function: a subscript on a missing key, on an empty
    list, or a division by zero. *)
Inductive error :=
| KeyError (key : string)
| IndexError
| ZeroDivisionError.

Definition bindR {A B} (r : error + A) (k : A -> error + B) : error + B :=
  match r with
  | inr a => k a
  | inl e => inl e
  end.

Notation "x <~ r ;; k" := (bindR r (fun x => k))
  (at level 20, r at level 99, k at level 200, only parsing) : monad_scope.

(** [article[key]] *)
Definition item {A} (key : string) (field : option A) : error + A :=
  match field with
  | Some v => inr v
  | None => inl (KeyError key)
  end.

Fixpoint mapR {A B} (f : A -> error + B) (l : list A) : error + list B :=
  match l with
  | [] => inr []
  | x :: rest => y <~ f x ;; ys <~ mapR f rest ;; inr (y :: ys)
  end.

(** The condition of the list comprehension that builds [valid_articles];
    [and] evaluates its operands from the left and stops at the first
    false one. *)
Definition is_valid (a : article) : error + bool :=
  text <~ item "full_article" (full_article a) ;;
  if Py.startswith "ERROR" text then inr false
  else if Py.startswith "NO_CONTENT" text then inr false
  else
    n <~ item "article_length" (article_length a) ;;
    inr (Driver.MIN_ARTICLE_LENGTH <? n).

Fixpoint valid_articles_of (articles : list article) : error + list article :=
  match articles with
  | [] => inr []
  | a :: rest =>
      v <~ is_valid a ;;
      vs <~ valid_articles_of rest ;;
      inr (if v then a :: vs else vs)
  end.

(** [stories[story_idx].append(article)], creating the entry at the end
    when the index is new. *)
Fixpoint add_to_story (story_idx : Z) (a : article)
    (stories : list (Z * list article)) : list (Z * list article) :=
  match stories with
  | [] => [(story_idx, [a])]
  | (i, l) :: rest =>
      if i =? story_idx then (i, l ++ [a]) :: rest
      else (i, l) :: add_to_story story_idx a rest
  end.

Definition group_by_story (valid_articles : list article)
    : list (Z * list article) :=
  fold_left (fun stories a => add_to_story (get (story_index a) 1) a stories)
    valid_articles [].

(** [article.get("domain", article["source"])]: the default is evaluated
    before the call. *)
Definition domain_or_source (a : article) : error + string :=
  s <~ item "source" (source a) ;;
  inr (get (domain a) s).

(** An element of a list in [companies_found]. *)
Record mention := { mention_source : string; mention_title : string }.

Definition mention_of (a : article) : error + mention :=
  s <~ domain_or_source a ;;
  t <~ item "title" (title a) ;;
  inr {| mention_source := s; mention_title := t |}.

Fixpoint add_mention (company : string) (m : mention)
    (found : list (string * list mention)) : list (string * list mention) :=
  match found with
  | [] => [(company, [m])]
  | (c, l) :: rest =>
      if String.eqb c company then (c, l ++ [m]) :: rest
      else (c, l) :: add_mention company m rest
  end.

Fixpoint collect_companies (valid_articles : list article)
    (companies_found : list (string * list mention))
    : error + list (string * list mention) :=
  match valid_articles with
  | [] => inr companies_found
  | a :: rest =>
      let company := get (company_name a) "" in
      if Py.nonempty company then
        m <~ mention_of a ;;
        collect_companies rest (add_mention company m companies_found)
      else collect_companies rest companies_found
  end.

Fixpoint insert_asc (k : Z) (l : list Z) : list Z :=
  match l with
  | [] => [k]
  | x :: rest => if k <=? x then k :: l else x :: insert_asc k rest
  end.

(** [sorted(stories.keys())] *)
Definition sorted (keys : list Z) : list Z := fold_right insert_asc [] keys.

(** [stories[story_idx]] *)
Fixpoint story_at (story_idx : Z) (stories : list (Z * list article))
    : error + list article :=
  match stories with
  | [] => inl (KeyError (pretty story_idx))
  | (i, l) :: rest => if i =? story_idx then inr l else story_at story_idx rest
  end.

(** [story_articles[0]["title"]] *)
Definition first_title (story_articles : list article) : error + string :=
  match story_articles with
  | [] => inl IndexError
  | a :: _ => item "title" (title a)
  end.

(** One pass of the "STORIES & ARTICLES" loop; it prints, and only what can
    raise is kept. *)
Definition show_story (stories : list (Z * list article)) (story_idx : Z)
    : error + unit :=
  story_articles <~ story_at story_idx stories ;;
  _ <~ first_title story_articles ;;
  _ <~ mapR domain_or_source story_articles ;;
  inr tt.

(** An element of ["articles"] in the JSON result. *)
Record entry := {
  entry_source : string;
  entry_url : string;
  entry_company : string;
  article_preview : string
}.

Definition entry_of (a : article) : error + entry :=
  s <~ domain_or_source a ;;
  u <~ item "url" (url a) ;;
  text <~ item "full_article" (full_article a) ;;
  inr {| entry_source := s;
         entry_url := u;
         entry_company := get (company_name a) "Unknown";
         article_preview := String.append (Py.prefix_slice text 100) "..." |}.

(** [result[story_key]] with its key. *)
Record story := {
  story_key : string;
  story_title : string;
  story_entries : list entry
}.

Definition story_of (stories : list (Z * list article)) (story_idx : Z)
    : error + story :=
  story_articles <~ story_at story_idx stories ;;
  t <~ first_title story_articles ;;
  entries <~ mapR entry_of story_articles ;;
  inr {| story_key := String.append "story_" (pretty story_idx);
         story_title := t;
         story_entries := entries |}.

(** [sum(article["article_length"] for article in valid_articles)] *)
Fixpoint total_length (valid_articles : list article) : error + Z :=
  match valid_articles with
  | [] => inr 0
  | a :: rest =>
      n <~ item "article_length" (article_length a) ;;
      m <~ total_length rest ;;
      inr (n + m)
  end.

(** What the function shows: the count of dropped dicts, the companies, the
    JSON result in the order of its keys, and the integers of the
    statistics block. *)
Record report := {
  filtered_count : Z;
  companies_found : list (string * list mention);
  result : list story;
  total_stories : Z;
  total_articles : Z;
  total_chars : Z
}.

(** [print_json_results(articles)]; [None] is one of the two early
    returns.  The two quotients of the statistics block are floats; of
    them only the division by [len(stories)] is kept, which raises when
    there is no story. *)
Definition print_json_results (articles : list article) : error + option report :=
  match articles with
  | [] => inr None
  | _ =>
      valid_articles <~ valid_articles_of articles ;;
      match valid_articles with
      | [] => inr None
      | _ =>
          let stories := group_by_story valid_articles in
          companies <~ collect_companies valid_articles [] ;;
          let keys := sorted (map fst stories) in
          _ <~ mapR (show_story stories) keys ;;
          stories_json <~ mapR (story_of stories) keys ;;
          chars <~ total_length valid_articles ;;
          if Z.of_nat (length stories) =? 0 then inl ZeroDivisionError
          else
            inr (Some {| filtered_count :=
                           Z.of_nat (length articles) - Z.of_nat (length valid_articles);
                         companies_found := companies;
                         result := stories_json;
                         total_stories := Z.of_nat (length stories);
                         total_articles := Z.of_nat (length valid_articles);
                         total_chars := chars |})
      end
  end.

(** The dict has the keys the function subscripts. *)
Definition complete (a : article) : bool :=
  match title a, source a, url a, full_article a, article_length a with
  | Some _, Some _, Some _, Some _, Some _ => true
  | _, _, _, _, _ => false
  end.

Definition total {A} (f : A -> Z) (l : list A) : Z :=
  fold_right (fun x n => f x + n) 0 l.

(** How many articles the JSON result lists. *)
Definition listed (stories_json : list story) : Z :=
  total (fun s => Z.of_nat (length (story_entries s))) stories_json.

(** How many articles [stories] holds under [story_idx]. *)
Definition size_at (stories : list (Z * list article)) (story_idx : Z) : Z :=
  match story_at story_idx stories with
  | inr l => Z.of_nat (length l)
  | inl _ => 0
  end.

(** What the grouping keeps true of [stories]: one entry per index, no
    empty entry, [n] articles in all. *)
Definition grouped (stories : list (Z * list article)) (n : Z) : Prop :=
  List.NoDup (map fst stories) /\
  Forall (fun g : Z * list article => snd g <> []) stories /\
  total (fun g : Z * list article => Z.of_nat (length (snd g))) stories = n.

End Report.

(* ===================================================================== *)
(** * Resolving a Google News link ([resolve_google_news_url]) *)
(* ===================================================================== *)

Module Resolver.

Section WithPage.

(** [page.goto(google_url)] followed by [page.url]. *)
Variable page_url_after_goto : string -> exn + string.

(** [page.locator('a[href^="http"]:not([href*="google.com"])').all()] and, for
    each link, [link.get_attribute('href')]; [None] is a missing
    attribute. *)
Variable external_links : string -> exn + list (exn + option string).

(** The [for link in external_links[:3]] loop; an exception ends it. *)
Fixpoint first_external (hrefs : list (exn + option string)) : exn + option string :=
  match hrefs with
  | [] => inr None
  | inl e :: _ => inl e
  | inr None :: rest => first_external rest
  | inr (Some href) :: rest =>
      if Py.nonempty href && negb (Py.contains "google.com" href)
      then inr (Some href)
      else first_external rest
  end.

(** [resolve_google_news_url(page, google_url)] *)
Definition resolve_google_news_url (google_url : string) : option string :=
  match page_url_after_goto google_url with
  | inr final_url =>
      if negb (Py.contains "news.google.com" final_url) then Some final_url
      else
        match (links <-- external_links google_url ;;
               first_external (take 3 links)) with
        | inr (Some href) => Some href
        | _ => None
        end
  | inl _ => None
  end.

End WithPage.

End Resolver.

(* ===================================================================== *)
(** * Verified properties *)
(* ===================================================================== *)

(** ** Feed fetcher *)

Module FeedFacts.
Import Feed FeedWords.

Section WithParser.

Variable parse : string -> option datetime.
Variable processed : gset article_id.
Variable now : Z.

Lemma step_articles st item :
  articles_data (step parse processed now st item) =
  articles_data st ++ (if kept parse processed now item then [to_article item] else []).
Proof.
  unfold step, kept, admitted.
  destruct (truthy_link (link_elem item)) as [l|]; simpl.
  - destruct (older_than_cutoff parse now _) as [[|]|]; simpl;
      try (now rewrite app_nil_r);
      destruct (decide _) as [Hin|Hin]; simpl;
      rewrite ?(bool_decide_eq_true_2 _ Hin), ?(bool_decide_eq_false_2 _ Hin);
      simpl; now rewrite ?app_nil_r.
  - now rewrite app_nil_r.
Qed.

Lemma run_loop_articles items st :
  articles_data (run_loop parse processed now items st) =
  articles_data st ++ map to_article (List.filter (kept parse processed now) items).
Proof.
  revert st. induction items as [|item items IH]; intros st.
  - simpl. now rewrite app_nil_r.
  - unfold run_loop in *. simpl fold_left. rewrite IH, step_articles.
    rewrite <- app_assoc. simpl List.filter.
    destruct (kept parse processed now item); reflexivity.
Qed.

Lemma fetch_filter items :
  fetch_business_news_rss parse processed now (Some items) =
  map to_article (List.filter (kept parse processed now) items).
Proof. unfold fetch_business_news_rss. now rewrite run_loop_articles. Qed.

Lemma occurrences_kept k items :
  occurrences k (map to_article (List.filter (kept parse processed now) items)) =
  if bool_decide (k ∈ processed) then 0%nat else carriers parse now k items.
Proof.
  unfold occurrences, carriers.
  induction items as [|item items IH]; simpl.
  - now destruct (bool_decide _).
  - unfold kept at 1.
    destruct (admitted parse now item) eqn:Ha; simpl; [|exact IH].
    destruct (bool_decide (key_of item ∈ processed)) eqn:Hp; simpl.
    + rewrite IH. destruct (bool_decide (key_of item = k)) eqn:Hk; [|reflexivity].
      apply bool_decide_eq_true_1 in Hk, Hp. subst k.
      now rewrite (bool_decide_eq_true_2 _ Hp).
    + destruct (bool_decide (key_of item = k)) eqn:Hk; simpl; rewrite IH.
      * apply bool_decide_eq_true_1 in Hk. subst k. now rewrite Hp.
      * reflexivity.
Qed.

(** How often a key occurs among the entries of the selected items. *)
Lemma occurrences_selected (q : rss_item -> bool) k items :
  occurrences k
    (map to_article (List.filter (fun item => q item && new_key processed item) items)) =
  if bool_decide (k ∈ processed) then 0%nat
  else length (List.filter (fun item => q item && bool_decide (key_of item = k)) items).
Proof.
  unfold occurrences, new_key.
  induction items as [|item items IH]; simpl.
  - now destruct (bool_decide _).
  - destruct (q item) eqn:Hq; simpl; [|exact IH].
    destruct (bool_decide (key_of item ∈ processed)) eqn:Hp; simpl.
    + rewrite IH. destruct (bool_decide (key_of item = k)) eqn:Hk; [|reflexivity].
      apply bool_decide_eq_true_1 in Hk, Hp. subst k.
      now rewrite (bool_decide_eq_true_2 _ Hp).
    + destruct (bool_decide (key_of item = k)) eqn:Hk; simpl; rewrite IH.
      * apply bool_decide_eq_true_1 in Hk. subst k. now rewrite Hp.
      * reflexivity.
Qed.

(** For an item dated in the zone of the machine's clock, the loop's link
    and time tests decide what the words say: linked, and not older than
    the lookback window. *)
Lemma admitted_due (local_offset : Z) item :
  local_date parse local_offset (date_text item) = true ->
  admitted parse now item = due parse local_offset now item.
Proof.
  unfold due, admitted, has_link, older_than_window, older_than_cutoff,
    local_date, truthy_link, date_text, get_text_or.
  intros Hlocal. rewrite Hlocal. cbn [andb].
  destruct (link_elem item) as [[|c l]|]; cbn [Py.nonempty String.eqb negb andb];
    try reflexivity.
  destruct (parse _) as [t|]; [|reflexivity].
  assert (Hsame : (wall t <? cutoff_time now) =
                  (lookback_window <? poll_instant local_offset now - instant local_offset t)).
  { unfold cutoff_time, timedelta_minutes, time_window_minutes, lookback_window,
      poll_instant, instant.
    destruct (tzinfo t) as [offset|].
    - apply Z.eqb_eq in Hlocal. subst offset.
      destruct (Z.ltb_spec (wall t) (now - 1440 * 60 * 1000000));
        destruct (Z.ltb_spec (24 * 60 * 60 * 1000000)
                    (now - local_offset - (wall t - local_offset)));
        try reflexivity; lia.
    - destruct (Z.ltb_spec (wall t) (now - 1440 * 60 * 1000000));
        destruct (Z.ltb_spec (24 * 60 * 60 * 1000000)
                    (now - local_offset - (wall t - local_offset)));
        try reflexivity; lia. }
  rewrite <- Hsame.
  destruct (tzinfo t); simpl; now destruct (wall t <? cutoff_time now).
Qed.

(** The locally dated entries of the result are those of the items that
    are due and carry a new key. *)
Lemma locally_dated_entries (local_offset : Z) items :
  List.filter (dated_locally parse local_offset)
    (map to_article (List.filter (kept parse processed now) items)) =
  map to_article
    (List.filter (fun item => due parse local_offset now item && new_key processed item)
       items).
Proof.
  induction items as [|item items IH]; [reflexivity|].
  cbn [List.filter].
  assert (Hdate : dated_locally parse local_offset (to_article item) =
                  local_date parse local_offset (date_text item)).
  { unfold dated_locally, to_article, date_text, get_text_or. cbn [pub_date].
    now destruct (pubDate_elem item). }
  destruct (local_date parse local_offset (date_text item)) eqn:Hlocal.
  - unfold kept at 1. rewrite (admitted_due local_offset item Hlocal).
    fold (new_key processed item).
    destruct (due parse local_offset now item && new_key processed item);
      [|exact IH].
    cbn [map List.filter]. rewrite Hdate. now rewrite IH.
  - assert (Hdue : due parse local_offset now item = false)
      by (unfold due; now rewrite Hlocal).
    rewrite Hdue. cbn [andb].
    destruct (kept parse processed now item); [|exact IH].
    cbn [map List.filter]. rewrite Hdate. exact IH.
Qed.

(** No returned article carries a processed key. *)
Lemma fetch_ids_unprocessed response :
  Forall (fun a => id a ∉ processed)
    (fetch_business_news_rss parse processed now response).
Proof.
  destruct response as [items|]; [|constructor].
  rewrite fetch_filter. apply Forall_forall. intros a Ha.
  apply list_elem_of_In, in_map_iff in Ha as (item & <- & Hin).
  apply filter_In in Hin as [_ Hk]. unfold kept in Hk.
  apply andb_true_iff in Hk as [_ Hk]. apply negb_true_iff in Hk.
  apply bool_decide_eq_false_1 in Hk. exact Hk.
Qed.

End WithParser.

(** A feed with one fresh item and one item already processed: exactly the
    fresh one is returned. *)
Example one_fresh_one_processed :
  fetch_business_news_rss toy_parse {[ ("seen", "s") ]} toy_now
    (Some [mk_item "seen" "http://x" "new" "s"; mk_item "fresh" "http://y" "new" "s"])
  = [to_article (mk_item "fresh" "http://y" "new" "s")].
Proof. vm_compute. reflexivity. Qed.

(** An item whose date does not parse is kept. *)
Example unparsable_date_is_kept :
  fetch_business_news_rss toy_parse ∅ toy_now
    (Some [mk_item "a" "http://x" "some day" "s"])
  = [to_article (mk_item "a" "http://x" "some day" "s")].
Proof. vm_compute. reflexivity. Qed.

(** C1 (as the code has it).  No returned article has a processed key.
    Among the entries dated in the zone of the machine's clock (the date has
    no zone, or the machine's offset, or does not parse), the result holds,
    in feed order, exactly one entry for every item so dated that has a
    non-empty link, is not older than the 24-hour lookback window and
    carries a key that is not in the processed set; so a processed key
    occurs zero times, and an unseen key occurs once for every such item
    that carries it.  Entries of items dated in another zone are not spoken
    of. *)
Theorem fetch_excludes_processed_and_counts_unseen
    (parse : string -> option datetime) (processed : gset article_id)
    (now local_offset : Z) (items : list rss_item) (k : article_id) :
  let out := fetch_business_news_rss parse processed now (Some items) in
  Forall (fun a => id a ∉ processed) out /\
  List.filter (dated_locally parse local_offset) out =
    map to_article
      (List.filter
         (fun item => due parse local_offset now item && new_key processed item)
         items) /\
  occurrences k (List.filter (dated_locally parse local_offset) out) =
    (if bool_decide (k ∈ processed) then 0%nat
     else length
            (List.filter
               (fun item => due parse local_offset now item
                            && bool_decide (key_of item = k))
               items)).
Proof.
  intros out. subst out. split; [apply fetch_ids_unprocessed|].
  rewrite fetch_filter, locally_dated_entries.
  split; [reflexivity|]. apply occurrences_selected.
Qed.

(** C1 as stated fails.  Two fresh items with a link and the same unseen
    key are both returned, so that key occurs twice in one poll; and an item
    with an unseen key is not returned at all when it is older than the
    window or has an empty link. *)
Lemma fetch_repeats_unseen_key :
  let items :=
    [mk_item "a" "http://x" "new" "s"; mk_item "a" "http://y" "new" "s";
     mk_item "b" "http://z" "old" "s"; mk_item "c" "" "new" "s"] in
  let out := fetch_business_news_rss toy_parse ∅ toy_now (Some items) in
  (map key_of items = [("a", "s"); ("a", "s"); ("b", "s"); ("c", "s")]) /\
  (occurrences ("a", "s") out = 2%nat) /\
  (occurrences ("b", "s") out = 0%nat) /\
  (occurrences ("c", "s") out = 0%nat).
Proof. vm_compute. repeat split. Qed.

(** The time test as the loop makes it: an item whose parsed date reads -
    zone dropped - earlier than the clock's reading less 1440 minutes is left
    out: the result is the one the feed without that item gives, and the
    item's dict is not in it. *)
Theorem fetch_drops_items_older_than_window
    (parse : string -> option datetime) (processed : gset article_id) (now : Z)
    (before : list rss_item) (item : rss_item) (after : list rss_item)
    (t : datetime) :
  parse (get_text_or (pubDate_elem item) "Unknown") = Some t ->
  wall t < now - timedelta_minutes 1440 ->
  let out := fetch_business_news_rss parse processed now (Some (before ++ item :: after)) in
  out = fetch_business_news_rss parse processed now (Some (before ++ after)) /\
  to_article item ∉ out.
Proof.
  intros Hparse Hold out. subst out.
  assert (Hverdict : forall it,
             get_text_or (pubDate_elem it) "Unknown" =
             get_text_or (pubDate_elem item) "Unknown" ->
             admitted parse now it = false).
  { intros it Heq. unfold admitted, older_than_cutoff. rewrite Heq, Hparse.
    destruct (truthy_link (link_elem it)); [|reflexivity].
    assert (Hlt : (wall t <? cutoff_time now) = true)
      by (apply Z.ltb_lt; unfold cutoff_time, time_window_minutes; exact Hold).
    destruct (tzinfo t); simpl; now rewrite Hlt. }
  rewrite !fetch_filter. split.
  - rewrite !List.filter_app. simpl. unfold kept at 2.
    now rewrite (Hverdict item eq_refl).
  - intros Hin. apply list_elem_of_In, in_map_iff in Hin as (it & Heq & Hin).
    apply filter_In in Hin as [_ Hk]. unfold kept in Hk.
    apply andb_true_iff in Hk as [Hk _].
    rewrite Hverdict in Hk; [discriminate|].
    now apply (f_equal pub_date) in Heq.
Qed.

Lemma fetch_drops_items_older_than_window_witness :
  let old_item := mk_item "b" "http://x" "old" "s" in
  let fresh_item := mk_item "a" "http://y" "new" "s" in
  let out := fetch_business_news_rss toy_parse ∅ toy_now
               (Some ([fresh_item] ++ old_item :: [fresh_item])) in
  out = fetch_business_news_rss toy_parse ∅ toy_now
          (Some ([fresh_item] ++ [fresh_item])) /\
  to_article old_item ∉ out.
Proof.
  intros old_item fresh_item.
  apply (fetch_drops_items_older_than_window toy_parse ∅ toy_now
           [fresh_item] old_item [fresh_item] {| wall := 0; tzinfo := Some 0 |}).
  - reflexivity.
  - vm_compute. reflexivity.
Defined.

(** C4 (a defect of the code).  The loop drops the zone of the parsed date
    and compares the bare reading with the local clock, so an item's age is
    off by the difference of the two zones.  A feed item stamped 09:00 GMT,
    polled 27 hours later on a machine eight hours west of UTC (its clock
    reads 04:00 of the next day), is older than the 24-hour window and is
    returned all the same. *)
Theorem fetch_returns_item_older_than_window :
  parse_is gmt_parse morning_item (hours 9) 0 /\
  poll_instant pacific_offset pacific_clock - instant pacific_offset
      {| wall := hours 9; tzinfo := Some 0 |} = hours 27 /\
  older_than_window gmt_parse pacific_offset pacific_clock morning_item = true /\
  fetch_business_news_rss gmt_parse ∅ pacific_clock (Some [morning_item])
    = [to_article morning_item].
Proof. unfold parse_is. vm_compute. repeat split. Qed.

End FeedFacts.

(** ** Identifier matcher *)

Module MatcherFacts.
Import Matcher.

Lemma Forall_take {A} (P : A -> Prop) (n : nat) (l : list A) :
  Forall P l -> Forall P (take n l).
Proof.
  intros H. revert n. induction H as [|x l Hx Hl IH]; intros [|n]; simpl;
    constructor; auto.
Qed.

Lemma StronglySorted_take {A} (R : A -> A -> Prop) (n : nat) (l : list A) :
  StronglySorted R l -> StronglySorted R (take n l).
Proof.
  intros H. revert n. induction H as [|x l Hl IH Hx]; intros [|n]; simpl;
    constructor; auto using Forall_take.
Qed.

Lemma Forall_keep {A} (P : A -> Prop) (f : A -> bool) (l : list A) :
  Forall P l -> Forall P (List.filter f l).
Proof.
  induction 1 as [|x l Hx Hl IH]; simpl; [constructor|].
  destruct (f x); [constructor|]; assumption.
Qed.

Lemma StronglySorted_keep {A} (R : A -> A -> Prop) (f : A -> bool) (l : list A) :
  StronglySorted R l -> StronglySorted R (List.filter f l).
Proof.
  induction 1 as [|x l Hl IH Hx]; simpl; [constructor|].
  destruct (f x); [constructor|]; auto using Forall_keep.
Qed.

Lemma Forall_insert_desc (P : string * Z -> Prop) p l :
  P p -> Forall P l -> Forall P (insert_desc p l).
Proof.
  intros Hp. induction 1 as [|q l Hq Hl IH]; simpl.
  - repeat constructor; assumption.
  - destruct (snd q <=? snd p); repeat constructor; assumption.
Qed.

Lemma insert_desc_sorted p l :
  StronglySorted outranks l -> StronglySorted outranks (insert_desc p l).
Proof.
  induction 1 as [|q l Hl IH Hq]; simpl.
  - repeat constructor.
  - destruct (snd q <=? snd p) eqn:Hle.
    + apply Z.leb_le in Hle. constructor; [constructor; assumption|].
      constructor; [unfold outranks; lia|].
      eapply List.Forall_impl; [|exact Hq]. unfold outranks. intros r Hr. lia.
    + apply Z.leb_gt in Hle. constructor; [exact IH|].
      apply Forall_insert_desc; [unfold outranks; lia | exact Hq].
Qed.

Lemma sorted_desc_sorted l : StronglySorted outranks (sorted_desc l).
Proof.
  unfold sorted_desc. induction l as [|p l IH]; simpl.
  - constructor.
  - apply insert_desc_sorted, IH.
Qed.

Lemma length_insert_desc p l : length (insert_desc p l) = S (length l).
Proof.
  induction l as [|q l IH]; simpl; [reflexivity|].
  destruct (snd q <=? snd p); simpl; congruence.
Qed.

Section WithScorer.

Variable scorer : string -> string -> Z.

Lemma extract_sorted query choices limit :
  StronglySorted outranks (extract scorer query choices limit).
Proof. apply StronglySorted_take, sorted_desc_sorted. Qed.

Lemma extract_length query choices limit :
  0 <= limit -> Z.of_nat (length (extract scorer query choices limit)) <= limit.
Proof.
  intros Hl. unfold extract, nlargest. rewrite length_take. lia.
Qed.

(** The scores that leave the loop are those of the matches, in the same
    order, without the ones below [min_score]. *)
Lemma collect_scores df min_score matches :
  forall rank results,
    collect df min_score rank matches = inr results ->
    map score results =
    List.filter (fun s => negb (s <? min_score)) (map snd matches).
Proof.
  induction matches as [|[name s] matches IH]; intros rk results Hc; simpl in *.
  - now inversion Hc.
  - destruct (s <? min_score); simpl; [eauto|].
    destruct (iloc0 _) as [e|r]; simpl in Hc; [discriminate|].
    destruct (collect df min_score (rk + 1) matches) as [e|rest] eqn:Hrest;
      simpl in Hc; [discriminate|].
    inversion Hc; subst. simpl. f_equal. eauto.
Qed.

Lemma scores_descending (l : list (string * Z)) :
  StronglySorted outranks l -> descending (map snd l).
Proof.
  unfold descending. induction 1 as [|p l Hl IH Hp]; simpl; constructor; [exact IH|].
  apply Forall_forall. intros s Hs.
  apply list_elem_of_In, in_map_iff in Hs as (q & <- & Hq).
  rewrite Forall_forall in Hp. apply Hp. now apply list_elem_of_In.
Qed.

Lemma filter_length_le {A} (f : A -> bool) (l : list A) :
  (length (List.filter f l) <= length l)%nat.
Proof.
  induction l as [|x l IH]; simpl; [lia|]. destruct (f x); simpl; lia.
Qed.

End WithScorer.

(** "Tata Motors Ltd" against the example table: the exact row comes first
    with rank 1, the other Tata row second, the third row is below 70. *)
Example tata_motors_ranked_first :
  (results <-- get_isin_for_company toy_scorer toy_read_excel "Tata Motors Ltd"
                 default_excel_file 3 70 ;;
   inr (map (fun m => (matched_name m, rank m, score m)) results))
  = inr [("Tata Motors Ltd", 1, 100); ("Tata Steel Ltd", 2, 80)].
Proof. vm_compute. reflexivity. Qed.

(** A query close to nothing in the table gives the empty list. *)
Example nonsense_query_matches_nothing :
  get_isin_for_company toy_scorer toy_read_excel "zzqx" default_excel_file 3 70
  = inr [].
Proof. vm_compute. reflexivity. Qed.

(** A file that cannot be read gives the empty list. *)
Example unreadable_table_matches_nothing :
  get_isin_for_company toy_scorer toy_read_excel "Infosys Ltd" "missing.xlsx" 3 70
  = inr [].
Proof. vm_compute. reflexivity. Qed.

(** C2.  Whatever the query and the table, every returned candidate scores
    at least [min_score], the scores come in descending order, and (for a
    limit [top_n] that is not negative) there are at most [top_n] of them. *)
Theorem matches_meet_threshold_in_descending_order
    (scorer : string -> string -> Z) (read_excel : string -> exn + DataFrame)
    (company_name excel_file : string) (top_n min_score : Z)
    (results : list match_record) :
  0 <= top_n ->
  get_isin_for_company scorer read_excel company_name excel_file top_n min_score
    = inr results ->
  Forall (fun m => min_score <= score m) results /\
  descending (map score results) /\
  Z.of_nat (length results) <= top_n.
Proof.
  intros Hn Hget. unfold get_isin_for_company in Hget.
  assert (Hnil : Forall (fun m => min_score <= score m) [] /\
                 descending (map score []) /\
                 Z.of_nat (length (@nil match_record)) <= top_n).
  { repeat split; [constructor | constructor | simpl; lia]. }
  destruct (negb (Py.nonempty company_name));
    [injection Hget as <-; exact Hnil|].
  destruct (read_excel excel_file) as [e|df]; simpl in Hget;
    [injection Hget as <-; exact Hnil|].
  destruct (negb (has_column df company_column)); simpl in Hget;
    [injection Hget as <-; exact Hnil|].
  set (matches := extract scorer company_name
                    (dropna_tolist company_column (rows df)) top_n) in *.
  destruct (collect df min_score 1 matches) as [e|rs] eqn:Hc; simpl in Hget;
    [injection Hget as <-; exact Hnil|].
  injection Hget as ->. clear Hnil.
  pose proof (collect_scores df min_score matches 1 results Hc) as Hs.
  split; [|split].
  - apply Forall_forall. intros m Hm.
    assert (Hin : In (score m) (map score results))
      by (apply in_map, list_elem_of_In, Hm).
    rewrite Hs in Hin. apply filter_In in Hin as [_ Hge].
    apply negb_true_iff, Z.ltb_ge in Hge. exact Hge.
  - rewrite Hs. apply StronglySorted_keep, scores_descending, extract_sorted.
  - rewrite <- (length_map score), Hs.
    pose proof (filter_length_le (fun s => negb (s <? min_score)) (map snd matches)).
    rewrite length_map in H.
    pose proof (extract_length scorer company_name
                  (dropna_tolist company_column (rows df)) top_n Hn).
    fold matches in H0. lia.
Qed.

Lemma matches_meet_threshold_in_descending_order_witness :
  let results :=
    [ {| matched_name := "Tata Motors Ltd"; isin := "INE155A01022";
         nse_symbol := ""; bse_code := ""; industry := "Automobiles";
         rank := 1; score := 100 |};
      {| matched_name := "Tata Steel Ltd"; isin := "INE081A01020";
         nse_symbol := ""; bse_code := ""; industry := "Steel";
         rank := 2; score := 80 |} ] in
  Forall (fun m => 70 <= score m) results /\
  descending (map score results) /\
  Z.of_nat (length results) <= 3.
Proof.
  intros results.
  apply (matches_meet_threshold_in_descending_order toy_scorer toy_read_excel
           "Tata Motors Ltd" default_excel_file 3 70 results).
  - lia.
  - vm_compute. reflexivity.
Defined.

(** C5.  No exception leaves [get_isin_for_company]: it always returns a
    list.  For an empty company name the list is empty, and so it is when
    the table that was read has no company-name column. *)
Theorem get_isin_never_raises
    (scorer : string -> string -> Z) (read_excel : string -> exn + DataFrame)
    (company_name excel_file : string) (top_n min_score : Z) :
  (exists results,
     get_isin_for_company scorer read_excel company_name excel_file top_n min_score
       = inr results) /\
  get_isin_for_company scorer read_excel "" excel_file top_n min_score = inr [] /\
  (forall df,
     read_excel excel_file = inr df ->
     has_column df company_column = false ->
     get_isin_for_company scorer read_excel company_name excel_file top_n min_score
       = inr []).
Proof.
  split; [|split].
  - unfold get_isin_for_company.
    destruct (negb (Py.nonempty company_name)); [eauto|].
    destruct (read_excel excel_file) as [e|df]; simpl; [eauto|].
    destruct (negb (has_column df company_column)); simpl; [eauto|].
    destruct (collect df min_score 1 _) as [e|rs]; simpl; eauto.
  - reflexivity.
  - intros df Hread Hcol. unfold get_isin_for_company.
    destruct (negb (Py.nonempty company_name)); [reflexivity|].
    rewrite Hread. simpl. now rewrite Hcol.
Qed.

Lemma get_isin_never_raises_witness :
  let df := {| columns := ["Name"; "CD_ISIN No"];
               rows := [ [("Name", Text "Tata Motors Ltd");
                          ("CD_ISIN No", Text "INE155A01022")] ] |} in
  get_isin_for_company toy_scorer (fun _ => inr df) "Tata Motors Ltd"
    default_excel_file 3 70 = inr [].
Proof.
  intros df.
  destruct (get_isin_never_raises toy_scorer (fun _ => inr df) "Tata Motors Ltd"
              default_excel_file 3 70) as (_ & _ & Hmissing).
  apply (Hmissing df); reflexivity.
Defined.

End MatcherFacts.

(** ** Entity extractor *)

Module ExtractorFacts.
Import Extractor.

Example fenced_answer_is_cut_out :
  Llm.json_str_of "Here it is: ```json {x} ``` thanks" = inr "{x}".
Proof. vm_compute. reflexivity. Qed.

Example braces_are_cut_out :
  Llm.json_str_of "Answer {a {b} c} done" = inr "{a {b} c}".
Proof. vm_compute. reflexivity. Qed.

(** A name the article does not mention is rejected; one whose first word
    it mentions is accepted. *)
Example validate_examples :
  validate "Infosys rose today" "" "Wipro" (JStr "high") = "" /\
  validate "TATA rose today" "" "Tata Motors" (JStr "high") = "Tata Motors" /\
  validate "Tata Motors rose today" "" "Tata Motors" (JStr "low") = "" /\
  validate "the company rose today" "" "The" (JStr "high") = "".
Proof. vm_compute. repeat split. Qed.

(** A name that passes [validate] is grounded in the text or the title. *)
Lemma validate_grounded article_text article_title company_name confidence name :
  validate article_text article_title company_name confidence = name ->
  name <> "" ->
  grounded name article_text article_title.
Proof.
  unfold validate. intros Hv Hne.
  destruct (negb (Py.nonempty company_name) || _); [congruence|].
  destruct (is_invalid_term _); [congruence|].
  destruct (occurs_in company_name article_text article_title) eqn:Hocc; simpl in Hv.
  - destruct (is_low confidence); [congruence|]. subst name. left. exact Hocc.
  - destruct (Py.split_ws company_name) as [|first [|second rest]] eqn:Hsplit;
      simpl in Hv; try congruence.
    destruct (occurs_in first article_text article_title) eqn:Hfirst;
      simpl in Hv; [|congruence].
    destruct (is_low confidence); [congruence|]. subst name.
    right. exists first, (second :: rest). rewrite Hsplit. repeat split; congruence.
Qed.

(** C3.  Whatever the model answers, a non-empty name returned by
    [extract_company_simple] occurs, ignoring case, in the article text or
    in the title, or it has several words and its first word does. *)
Theorem extracted_name_occurs_in_article
    (api_key : option string)
    (generate_content : list string -> string -> exn + string)
    (json_loads : string -> exn + json)
    (instructions answer_format article_text article_title : string)
    (w : world) (name : string) :
  fst (extract_company_simple api_key generate_content json_loads
         instructions answer_format article_text article_title w) = inr name ->
  name <> "" ->
  grounded name article_text article_title.
Proof.
  unfold extract_company_simple. intros Hrun Hne.
  destruct (negb (Llm.key_present api_key)); [simpl in Hrun; congruence|].
  unfold try_except, bind, lift, ret, Llm.ask in Hrun. simpl in Hrun.
  destruct (generate_content (llm_calls w) _) as [e|response];
    [simpl in Hrun; congruence|].
  destruct (Llm.json_str_of (Py.strip response)) as [e|json_str];
    [simpl in Hrun; congruence|].
  destruct (json_loads json_str) as [e|result]; [simpl in Hrun; congruence|].
  destruct (Llm.as_dict result) as [e|fields]; [simpl in Hrun; congruence|].
  destruct (Llm.as_str _) as [e|raw_name]; [simpl in Hrun; congruence|].
  simpl in Hrun. injection Hrun as Hrun.
  eapply validate_grounded; eassumption.
Qed.

Lemma extracted_name_occurs_in_article_witness :
  grounded "Tata Motors" "Shares of TATA rose after the results." "Market wrap".
Proof.
  apply (extracted_name_occurs_in_article (Some "key")
           (fun _ _ => inr "{}") (fun _ => inr company_answer)
           "" "" "Shares of TATA rose after the results." "Market wrap"
           empty_world "Tata Motors").
  - vm_compute. reflexivity.
  - discriminate.
Defined.

End ExtractorFacts.

(** ** Summarizer *)

Module SummarizerFacts.
Import Article Summarizer.

Section WithModel.

Variable api_key : option string.
Variable generate_content : list string -> string -> exn + string.
Variable json_loads : string -> exn + json.
Variables analyst_role task_and_format : string.

Local Abbreviation summarize_one :=
  (summarize_one api_key generate_content json_loads analyst_role task_and_format).
Local Abbreviation summarize_loop :=
  (summarize_loop api_key generate_content json_loads analyst_role task_and_format).
Local Abbreviation summarize_multiple_articles :=
  (summarize_multiple_articles api_key generate_content json_loads
     analyst_role task_and_format).

(** A short article leaves the accumulator and the world as they are. *)
Lemma summarize_one_short acc a w :
  get (article_length a) 0 < min_length ->
  summarize_one acc a w = (inr acc, w).
Proof.
  intros Hshort. unfold Summarizer.summarize_one.
  apply Z.ltb_lt in Hshort. now rewrite Hshort.
Qed.

Lemma summarize_loop_skips before a after acc w :
  get (article_length a) 0 < min_length ->
  summarize_loop (before ++ a :: after) acc w = summarize_loop (before ++ after) acc w.
Proof.
  intros Hshort. revert acc w.
  induction before as [|b before IH]; intros acc w; simpl.
  - unfold bind. now rewrite summarize_one_short.
  - unfold bind. destruct (summarize_one acc b w) as [[e|acc'] w']; [reflexivity|].
    apply IH.
Qed.

(** Every article the loop adds has a recorded length of at least 200. *)
Lemma summarize_one_lengths acc a w acc' w' :
  Forall (fun o => min_length <= get (article_length o) 0) acc ->
  summarize_one acc a w = (inr acc', w') ->
  Forall (fun o => min_length <= get (article_length o) 0) acc'.
Proof.
  intros Hacc. unfold Summarizer.summarize_one.
  destruct (get (article_length a) 0 <? min_length) eqn:Hlen.
  { intros [= <- <-]. exact Hacc. }
  destruct (is_sentinel _).
  { intros [= <- <-]. exact Hacc. }
  unfold bind, lift, ret.
  destruct (summarize_article_data _ _ _ _ _ _ _ _ w) as [[e|s] w1]; [discriminate|].
  destruct (show_preview s); [discriminate|].
  intros [= <- <-]. apply Forall_app. split; [exact Hacc|].
  constructor; [|constructor]. simpl. now apply Z.ltb_ge in Hlen.
Qed.

Lemma summarize_loop_lengths articles :
  forall acc w out w',
    Forall (fun o => min_length <= get (article_length o) 0) acc ->
    summarize_loop articles acc w = (inr out, w') ->
    Forall (fun o => min_length <= get (article_length o) 0) out.
Proof.
  induction articles as [|a articles IH]; intros acc w out w' Hacc; simpl.
  - intros [= <- <-]. exact Hacc.
  - unfold bind. destruct (summarize_one acc a w) as [[e|acc1] w1] eqn:Hone;
      [discriminate|].
    intros Hrest. eapply IH; [|exact Hrest].
    eapply summarize_one_lengths; eassumption.
Qed.

End WithModel.

(** C6.  [summarize_article_data] always returns a result, never an
    exception.  With the API key present, when the model call raises or its
    answer cannot be cut out, parsed, or is not a JSON object, the result is
    the placeholder of the handler: summary "Error processing article", no
    numeric facts, source "Unknown".  With the key missing it is the
    placeholder "API key not configured", no facts, source "Unknown". *)
Theorem summarize_article_data_degrades
    (api_key : option string)
    (generate_content : list string -> string -> exn + string)
    (json_loads : string -> exn + json)
    (analyst_role task_and_format article_text article_title company_name : string)
    (w : world) :
  let run := summarize_article_data api_key generate_content json_loads
               analyst_role task_and_format article_text article_title
               company_name w in
  let prompt := prompt_of analyst_role task_and_format article_text article_title
                  company_name in
  (exists result, fst run = inr result) /\
  (Llm.key_present api_key = true ->
   failed (answer generate_content json_loads prompt w) = true ->
   fst run = inr error_result) /\
  (Llm.key_present api_key = false -> fst run = inr no_key_result).
Proof.
  intros run prompt. subst run prompt. unfold summarize_article_data, answer.
  destruct (Llm.key_present api_key); simpl.
  - unfold try_except, bind, lift, ret, raise, Llm.ask, bindE. simpl.
    destruct (generate_content (llm_calls w) _) as [e|response]; simpl.
    { repeat split; eauto; discriminate. }
    destruct (Llm.json_str_of (Py.strip response)) as [e|json_str]; simpl.
    { repeat split; eauto; discriminate. }
    destruct (json_loads json_str) as [e|result]; simpl.
    { repeat split; eauto; discriminate. }
    destruct result; simpl; repeat split; eauto; discriminate.
  - repeat split; eauto; discriminate.
Qed.

Lemma summarize_article_data_degrades_witness :
  fst (summarize_article_data (Some "key") (fun _ _ => inr "not json at all")
         (fun _ => inl JSONDecodeError) "" "" "Some article text" "A title" "Acme"
         empty_world) = inr error_result.
Proof.
  destruct (summarize_article_data_degrades (Some "key")
              (fun _ _ => inr "not json at all") (fun _ => inl JSONDecodeError)
              "" "" "Some article text" "A title" "Acme" empty_world)
    as (_ & Hfail & _).
  apply Hfail; reflexivity.
Defined.

(** C7.  An article whose recorded length is below 200 is skipped: the
    batch with it gives the same outcome and leaves the same world (the same
    LLM calls) as the batch without it, and every article of the output has
    a recorded length of at least 200. *)
Theorem short_article_is_skipped
    (api_key : option string)
    (generate_content : list string -> string -> exn + string)
    (json_loads : string -> exn + json)
    (analyst_role task_and_format : string)
    (before : list article) (a : article) (after : list article) (w : world) :
  get (article_length a) 0 < min_length ->
  let summarize :=
    summarize_multiple_articles api_key generate_content json_loads
      analyst_role task_and_format in
  summarize (before ++ a :: after) w = summarize (before ++ after) w /\
  (forall out w', summarize (before ++ a :: after) w = (inr out, w') ->
     Forall (fun o => min_length <= get (article_length o) 0) out).
Proof.
  intros Hshort summarize. subst summarize. split.
  - unfold summarize_multiple_articles.
    destruct (before ++ a :: after) as [|x l] eqn:Hfull;
      [destruct before; discriminate|].
    rewrite <- Hfull. rewrite summarize_loop_skips by exact Hshort.
    destruct (before ++ after) as [|y l']; reflexivity.
  - intros out w' Hrun. unfold summarize_multiple_articles in Hrun.
    destruct (before ++ a :: after) as [|x l] eqn:Hfull;
      [destruct before; discriminate|].
    eapply summarize_loop_lengths; [|exact Hrun]. constructor.
Qed.

Lemma short_article_is_skipped_witness :
  let short := scraped "Too short." 10 in
  let long := scraped "A long enough text." 250 in
  let summarize :=
    summarize_multiple_articles (Some "key") (fun _ _ => inr "{}")
      (fun _ => inr (JObj [("summary", JStr "ok")])) "" "" in
  summarize ([long] ++ short :: [long]) empty_world
    = summarize ([long] ++ [long]) empty_world /\
  (forall out w', summarize ([long] ++ short :: [long]) empty_world = (inr out, w') ->
     Forall (fun o => min_length <= get (article_length o) 0) out).
Proof.
  intros short long.
  apply (short_article_is_skipped (Some "key") (fun _ _ => inr "{}")
           (fun _ => inr (JObj [("summary", JStr "ok")])) "" ""
           [long] short [long] empty_world).
  vm_compute. reflexivity.
Defined.

End SummarizerFacts.

(** ** Notifier *)

Module NotifierFacts.
Import Notifier.

(** The prints after a post succeed and touch only the console. *)
Lemma report_calls label r w :
  exists w', report label r w = (inr tt, w') /\
             webhook_calls w' = webhook_calls w /\
             llm_calls w' = llm_calls w.
Proof.
  unfold report. destruct (status_code r =? 200).
  - eexists. split; [reflexivity|]. split; reflexivity.
  - eexists. split; [reflexivity|]. split; reflexivity.
Qed.

Lemma send_each_calls requests_post url items :
  never_raises requests_post ->
  forall idx w,
    exists w', send_each requests_post url idx items w = (inr tt, w') /\
               webhook_calls w' = webhook_calls w ++ map (fun s => (url, s)) items.
Proof.
  intros Hok. induction items as [|item items IH]; intros idx w; simpl.
  - exists w. split; [reflexivity|]. now rewrite app_nil_r.
  - unfold bind at 1. unfold post at 1.
    destruct (Hok (webhook_calls w) url item) as [r ->].
    unfold bind at 1.
    match goal with |- context [report ?l ?r ?w0] =>
      destruct (report_calls l r w0) as (w1 & -> & Hcalls & _) end.
    destruct (IH (idx + 1) w1) as (w2 & -> & Hrest).
    exists w2. split; [reflexivity|].
    rewrite Hrest, Hcalls. simpl. now rewrite <- app_assoc.
Qed.

(** A post that raises ends the run: the exception leaves the function
    after the first call. *)
Example unreachable_webhook_stops_at_first_post :
  let run := send_slack_message (Some "https://hooks.example.com/T") unreachable_post
               (PyList [Atom (PyStr "first"); Atom (PyStr "second")]) empty_world in
  fst run = inl RequestException /\
  webhook_calls (snd run) = [("https://hooks.example.com/T", "first")].
Proof. vm_compute. split; reflexivity. Qed.

(** A message that is not a list is sent as its text. *)
Example single_message_is_one_post :
  webhook_calls (snd (send_slack_message (Some "https://hooks.example.com/T") ok_post
                        (Atom (PyInt 42)) empty_world))
  = [("https://hooks.example.com/T", "42")].
Proof. vm_compute. reflexivity. Qed.

(** C8.  With [SLACK_URL] absent (or empty) the notifier returns normally,
    makes no webhook call and prints one notice, whatever the message. *)
Theorem absent_webhook_sends_nothing
    (requests_post : list (string * string) -> string -> string -> exn + response)
    (message : pyval) (w : world) :
  let quiet := (inr tt, {| llm_calls := llm_calls w;
                           webhook_calls := webhook_calls w;
                           console := console w ++ [missing_url_notice] |}) in
  send_slack_message None requests_post message w = quiet /\
  send_slack_message (Some "") requests_post message w = quiet.
Proof. intros quiet. split; reflexivity. Qed.




End NotifierFacts.

(** ** Driver loop *)

Module DriverFacts.
Import Driver.

Lemma mark_spec (l : list Feed.article) :
  forall (processed : gset Feed.article_id) (k : Feed.article_id),
    k ∈ mark processed l <-> k ∈ processed \/ exists a, a ∈ l /\ Feed.id a = k.
Proof.
  unfold mark. induction l as [|a l IH]; intros processed k; simpl.
  - split; [auto|]. intros [H|(a & Ha & _)]; [exact H|]. inversion Ha.
  - rewrite IH. split.
    + intros [H|(b & Hb & Hk)].
      * apply elem_of_union in H as [H|H]; [auto|].
        apply elem_of_singleton in H. right. exists a. split; [left|congruence].
      * right. exists b. split; [now right|exact Hk].
    + intros [H|(b & Hb & Hk)].
      * left. apply elem_of_union. now left.
      * apply elem_of_cons in Hb as [->|Hb].
        -- left. apply elem_of_union. right. now apply elem_of_singleton.
        -- right. eauto.
Qed.

Lemma mark_grows (processed : gset Feed.article_id) (l : list Feed.article) :
  processed ⊆ mark processed l.
Proof. intros k Hk. apply mark_spec. now left. Qed.

Section WithExternals.

Variable E : externals.

(** No exception leaves an iteration, and the set only grows. *)
Lemma iteration_grows (p : poll) (processed : gset Feed.article_id) (w : world) :
  exists (processed' : gset Feed.article_id) (w' : world),
    iteration E p processed w = (inr processed', w') /\ processed ⊆ processed'.
Proof.
  unfold iteration, try_except, bind, ret.
  destruct (main E p processed w) as [[e|l] w1].
  - exists processed, w1. split; [reflexivity|set_solver].
  - exists (mark processed l), w1. split; [reflexivity|apply mark_grows].
Qed.

Lemma run_grows (polls : list poll) :
  forall (processed : gset Feed.article_id) (w : world),
    exists (processed' : gset Feed.article_id) (w' : world),
      run E polls processed w = (inr processed', w') /\ processed ⊆ processed'.
Proof.
  induction polls as [|p polls IH]; intros processed w; simpl.
  - exists processed, w. split; [reflexivity|set_solver].
  - unfold bind.
    destruct (iteration_grows p processed w) as (P1 & w1 & -> & H1).
    destruct (IH P1 w1) as (P2 & w2 & -> & H2).
    exists P2, w2. split; [reflexivity|set_solver].
Qed.

(** When something was scraped and the later stages end without an
    exception, [main] hands back every article the fetcher returned. *)
Lemma main_returns_fetched (p : poll) (processed : gset Feed.article_id)
    (w : world) (scraped : list Article.article) (w1 w2 : world) :
  let articles :=
    Feed.fetch_business_news_rss (parse_date E) processed (current_time p)
      (response p) in
  scrape_all_articles E articles w = (inr scraped, w1) ->
  scraped <> [] ->
  process_scraped E scraped w1 = (inr tt, w2) ->
  main E p processed w = (inr articles, w2).
Proof.
  intros articles Hscrape Hne Hrest. unfold main. fold articles.
  destruct articles as [|a l] eqn:Harts.
  - simpl in Hscrape. injection Hscrape as <- <-. congruence.
  - unfold bind. rewrite Hscrape.
    destruct scraped as [|s scraped]; [congruence|].
    rewrite Hrest. reflexivity.
Qed.

End WithExternals.

(** C10 (as the code has it).  After an iteration in which something was
    scraped and the later stages (matching, summarizing, notifying) ended
    without an exception, the key of every article the fetcher returned is
    in the processed set, and no fetch of any later iteration returns an
    article with such a key. *)
Theorem scraped_iteration_marks_every_fetched_item
    (E : externals) (p : poll) (processed : gset Feed.article_id)
    (w w1 w2 : world) (scraped : list Article.article) :
  let articles :=
    Feed.fetch_business_news_rss (parse_date E) processed (current_time p)
      (response p) in
  scrape_all_articles E articles w = (inr scraped, w1) ->
  scraped <> [] ->
  process_scraped E scraped w1 = (inr tt, w2) ->
  exists processed',
    iteration E p processed w = (inr processed', w2) /\
    processed ⊆ processed' /\
    Forall (fun a => Feed.id a ∈ processed') articles /\
    (forall E' polls w' later parse' now' response',
       fst (run E' polls processed' w') = inr later ->
       Forall (fun b => Forall (fun a => Feed.id b <> Feed.id a) articles)
         (Feed.fetch_business_news_rss parse' later now' response')).
Proof.
  intros articles Hscrape Hne Hrest.
  pose proof (main_returns_fetched E p processed w scraped w1 w2 Hscrape Hne Hrest)
    as Hmain.
  fold articles in Hmain.
  exists (mark processed articles). split; [|split; [|split]].
  - unfold iteration, try_except, bind, ret. now rewrite Hmain.
  - apply mark_grows.
  - apply Forall_forall. intros a Ha. apply mark_spec. right. eauto.
  - intros E' polls w' later parse' now' response' Hrun.
    destruct (run_grows E' polls (mark processed articles) w')
      as (P' & w'' & Heq & Hsub).
    rewrite Heq in Hrun. simpl in Hrun. injection Hrun as ->.
    pose proof (FeedFacts.fetch_ids_unprocessed parse' later now' response') as Hout.
    eapply List.Forall_impl; [|exact Hout]. intros b Hb.
    apply Forall_forall. intros a Ha Heq'.
    apply Hb, Hsub, mark_spec. right. exists a. split; [exact Ha|congruence].
Qed.

Lemma scraped_iteration_marks_every_fetched_item_witness :
  exists processed' : gset Feed.article_id,
    fst (iteration (toy_externals Notifier.ok_post) toy_poll ∅ empty_world)
      = inr processed' /\
    Feed.id toy_article ∈ processed'.
Proof.
  pose (E := toy_externals Notifier.ok_post).
  pose (articles := Feed.fetch_business_news_rss (parse_date E) ∅
                      (current_time toy_poll) (response toy_poll)).
  pose (scrape_run := scrape_all_articles E articles empty_world).
  pose (scraped := match fst scrape_run with inr l => l | inl _ => [] end).
  pose (rest_run := process_scraped E scraped (snd scrape_run)).
  destruct (scraped_iteration_marks_every_fetched_item E toy_poll ∅ empty_world
              (snd scrape_run) (snd rest_run) scraped)
    as (processed' & Hiter & _ & Hall & _).
  - vm_compute. reflexivity.
  - vm_compute. discriminate.
  - vm_compute. reflexivity.
  - exists processed'. fold E. rewrite Hiter. split; [reflexivity|].
    rewrite Forall_forall in Hall. apply Hall.
    change (toy_article ∈ articles).
    replace articles with [toy_article] by (vm_compute; reflexivity).
    left.
Defined.

(** C10 as stated fails: one article is scraped, the webhook cannot be
    reached, the exception ends the iteration before the marking, and the
    processed set stays empty - the fetched item is not in it. *)
Lemma unreachable_webhook_leaves_items_unmarked :
  let E := toy_externals Notifier.unreachable_post in
  let articles :=
    Feed.fetch_business_news_rss (parse_date E) ∅ (current_time toy_poll)
      (response toy_poll) in
  articles = [toy_article] /\
  (exists scraped, fst (scrape_all_articles E articles empty_world) = inr [scraped]) /\
  fst (main E toy_poll ∅ empty_world) = inl RequestException /\
  fst (iteration E toy_poll ∅ empty_world) = inr ∅.
Proof.
  split; [vm_compute; reflexivity|]. split; [|split].
  - eexists. vm_compute. reflexivity.
  - vm_compute. reflexivity.
  - vm_compute. reflexivity.
Qed.

End DriverFacts.

(* ===================================================================== *)
(** * Further properties *)
(* ===================================================================== *)

(** ** Feed fetcher: counters, repeated polls *)

Module FeedMore.
Import Feed FeedCount.

Section WithParser.

Variable parse : string -> option datetime.
Variable processed : gset article_id.
Variable now : Z.

(** What one pass adds to the three counters and the list. *)
Lemma step_counts st item :
  let st' := step parse processed now st item in
  (time_filtered_count st' + skipped_count st' + length (articles_data st')
   = time_filtered_count st + skipped_count st + length (articles_data st)
     + (if linked item then 1 else 0))%nat /\
  (parse_errors st' = parse_errors st + (if unparsable parse item then 1 else 0))%nat.
Proof.
  unfold step, linked, unparsable, linked, older_than_cutoff.
  destruct (truthy_link (link_elem item)); simpl; [|lia].
  destruct (parse _) as [t|]; simpl.
  - destruct (wall _ <? _); simpl; [lia|].
    destruct (decide _); simpl; rewrite ?length_app; simpl; lia.
  - destruct (decide _); simpl; rewrite ?length_app; simpl; lia.
Qed.

Lemma run_loop_counts items :
  forall st,
    let st' := run_loop parse processed now items st in
    (time_filtered_count st' + skipped_count st' + length (articles_data st')
     = time_filtered_count st + skipped_count st + length (articles_data st)
       + length (List.filter linked items))%nat /\
    (parse_errors st'
     = parse_errors st + length (List.filter (unparsable parse) items))%nat.
Proof.
  induction items as [|item items IH]; intros st; simpl.
  - unfold run_loop. simpl. lia.
  - unfold run_loop in *. simpl fold_left.
    destruct (IH (step parse processed now st item)) as [H1 H2].
    destruct (step_counts st item) as [H3 H4].
    cbv zeta in *. rewrite H1, H2, H3, H4.
    destruct (linked item), (unparsable parse item); simpl; lia.
Qed.

Lemma kept_after_more (processed' : gset article_id) item :
  processed ⊆ processed' ->
  kept parse processed' now item =
  kept parse processed now item && negb (bool_decide (key_of item ∈ processed')).
Proof.
  intros Hsub. unfold kept.
  destruct (admitted parse now item); simpl; [|reflexivity].
  destruct (bool_decide (key_of item ∈ processed)) eqn:Hp; simpl; [|reflexivity].
  apply bool_decide_eq_true_1 in Hp.
  now rewrite (bool_decide_eq_true_2 _ (Hsub _ Hp)).
Qed.

(** An item admitted at a later poll time is admitted at an earlier one. *)
Lemma admitted_earlier (now' : Z) item :
  now <= now' ->
  admitted parse now' item = true -> admitted parse now item = true.
Proof.
  intros Hlater. unfold admitted, older_than_cutoff.
  destruct (truthy_link (link_elem item)); [|auto].
  destruct (parse _) as [t|]; [|auto].
  assert (Hw : forall x, (x <? cutoff_time now') = false ->
                         (x <? cutoff_time now) = false).
  { intros x Hx. apply Z.ltb_ge in Hx. apply Z.ltb_ge.
    unfold cutoff_time in *. lia. }
  destruct (tzinfo t); simpl;
    (destruct (_ <? cutoff_time now') eqn:Hnew; [discriminate|]);
    now rewrite (Hw _ Hnew).
Qed.

End WithParser.

Lemma filter_none {A} (f : A -> bool) (l : list A) :
  (forall x, In x l -> f x = false) -> List.filter f l = [].
Proof.
  induction l as [|x l IH]; intros H; simpl; [reflexivity|].
  rewrite (H x (or_introl eq_refl)). apply IH. intros y Hy. apply H. now right.
Qed.

(** X1.  The filtering summary adds up: after the loop over a feed, the
    items filtered by time, the items already processed and the new
    articles together are exactly the items that have a link, and the
    parse-error counter is the number of linked items whose date does not
    parse. *)
Theorem filtering_summary_adds_up
    (parse : string -> option datetime) (processed : gset article_id) (now : Z)
    (items : list rss_item) :
  let st := run_loop parse processed now items initial_state in
  (time_filtered_count st + skipped_count st + length (articles_data st)
   = length (List.filter linked items))%nat /\
  (parse_errors st = length (List.filter (unparsable parse) items))%nat /\
  (length (fetch_business_news_rss parse processed now (Some items))
   <= length items)%nat.
Proof.
  intros st. subst st.
  destruct (run_loop_counts parse processed now items initial_state) as [H1 H2].
  cbv zeta in *. simpl in H1, H2. split; [exact H1|]. split; [exact H2|].
  unfold fetch_business_news_rss.
  pose proof (MatcherFacts.filter_length_le linked items). lia.
Qed.

(** X2.  With a larger processed set the fetcher returns what it returned
    before, in the same order, without the articles whose key is in the
    larger set. *)
Theorem larger_processed_set_filters_result
    (parse : string -> option datetime) (processed processed' : gset article_id)
    (now : Z) (response : option (list rss_item)) :
  processed ⊆ processed' ->
  fetch_business_news_rss parse processed' now response =
  List.filter (unseen processed')
    (fetch_business_news_rss parse processed now response).
Proof.
  intros Hsub. destruct response as [items|]; [|reflexivity].
  rewrite !FeedFacts.fetch_filter.
  induction items as [|item items IH]; simpl; [reflexivity|].
  rewrite (kept_after_more parse processed now processed' item Hsub).
  destruct (kept parse processed now item); simpl; [|exact IH].
  unfold unseen at 1. simpl.
  destruct (bool_decide (key_of item ∈ processed')); simpl; [exact IH|].
  now rewrite IH.
Qed.

Lemma larger_processed_set_filters_result_witness :
  fetch_business_news_rss toy_parse {[ ("a", "s") ]} toy_now
    (Some [mk_item "a" "http://x" "new" "s"; mk_item "b" "http://y" "new" "s"])
  = List.filter (unseen {[ ("a", "s") ]})
      (fetch_business_news_rss toy_parse ∅ toy_now
         (Some [mk_item "a" "http://x" "new" "s"; mk_item "b" "http://y" "new" "s"])).
Proof.
  apply (larger_processed_set_filters_result toy_parse ∅ {[ ("a", "s") ]} toy_now).
  apply empty_subseteq.
Defined.

Lemma refetch_after_mark
    (parse : string -> option datetime) (processed : gset article_id)
    (now now' : Z) (response : option (list rss_item)) :
  now <= now' ->
  fetch_business_news_rss parse
    (Driver.mark processed (fetch_business_news_rss parse processed now response))
    now' response
  = [].
Proof.
  intros Hlater. destruct response as [items|]; [|reflexivity].
  set (marked := Driver.mark processed _).
  rewrite FeedFacts.fetch_filter.
  rewrite (filter_none (kept parse marked now') items); [reflexivity|].
  intros item Hin.
  destruct (kept parse marked now' item) eqn:Hk; [exfalso|reflexivity].
  unfold kept in Hk. apply andb_true_iff in Hk as [Hadm Hnew].
  apply negb_true_iff, bool_decide_eq_false_1 in Hnew. apply Hnew.
  apply DriverFacts.mark_spec.
  destruct (decide (key_of item ∈ processed)) as [Hp|Hp]; [now left|right].
  exists (to_article item). split; [|reflexivity].
  rewrite FeedFacts.fetch_filter. apply list_elem_of_In, in_map, filter_In.
  split; [exact Hin|]. unfold kept.
  rewrite (admitted_earlier parse now now' item Hlater Hadm).
  now rewrite (bool_decide_eq_false_2 _ Hp).
Qed.

(** Every returned article carries the key of an item of the feed. *)
Lemma fetch_ids_from_feed
    (parse : string -> option datetime) (processed : gset article_id)
    (now : Z) (response : option (list rss_item)) (a : article) :
  a ∈ fetch_business_news_rss parse processed now response ->
  exists items item,
    response = Some items /\ In item items /\ id a = key_of item.
Proof.
  destruct response as [items|]; [|intros H; inversion H].
  rewrite FeedFacts.fetch_filter. intros Ha.
  apply list_elem_of_In, in_map_iff in Ha as (item & <- & Hin).
  apply filter_In in Hin as [Hin _]. exists items, item. auto.
Qed.

(** X3.  Once the driver has marked what a poll returned, the same feed
    polled again at the same or a later time returns nothing. *)
Theorem marked_feed_returns_nothing
    (parse : string -> option datetime) (processed : gset article_id)
    (now now' : Z) (response : option (list rss_item)) :
  now <= now' ->
  fetch_business_news_rss parse
    (Driver.mark processed (fetch_business_news_rss parse processed now response))
    now' response
  = [].
Proof. apply refetch_after_mark. Qed.

Lemma marked_feed_returns_nothing_witness :
  fetch_business_news_rss toy_parse
    (Driver.mark ∅
       (fetch_business_news_rss toy_parse ∅ toy_now
          (Some [mk_item "a" "http://x" "new" "s"; mk_item "b" "http://y" "later" "s"])))
    (toy_now + 1)
    (Some [mk_item "a" "http://x" "new" "s"; mk_item "b" "http://y" "later" "s"])
  = [].
Proof.
  apply (marked_feed_returns_nothing toy_parse ∅ toy_now (toy_now + 1)).
  vm_compute. discriminate.
Defined.

End FeedMore.

(** ** Identifier matcher: where candidates come from, ranks, thresholds *)

Module MatcherMore.
Import Matcher MatchCheck.

Lemma In_insert_desc p x l : In x (insert_desc p l) <-> x = p \/ In x l.
Proof.
  induction l as [|q l IH]; simpl; [intuition|].
  destruct (snd q <=? snd p); simpl; [intuition|].
  rewrite IH. intuition.
Qed.

Lemma In_sorted_desc x l : In x (sorted_desc l) <-> In x l.
Proof.
  unfold sorted_desc. induction l as [|p l IH]; simpl; [reflexivity|].
  rewrite In_insert_desc, IH. intuition.
Qed.

Lemma In_take {A} (x : A) n l : In x (take n l) -> In x l.
Proof.
  revert n. induction l as [|y l IH]; intros [|n]; simpl; try tauto.
  intros [H|H]; [now left | right; eauto].
Qed.

(** The first row whose company-name cell is [name] exists as soon as the
    name is read off the column. *)
Lemma iloc0_of_listed df name :
  In name (dropna_tolist company_column (rows df)) ->
  exists r, iloc0 (rows_equal df company_column name) = inr r /\
            In r (rows df) /\ cell_at company_column r = Text name.
Proof.
  unfold rows_equal. induction (rows df) as [|r rs IH]; simpl; [tauto|].
  destruct (cell_at company_column r) as [|s] eqn:Hc; simpl.
  - intros H. destruct (IH H) as (r' & H1 & H2 & H3). eauto.
  - destruct (String.eqb s name) eqn:He.
    + intros _. apply String.eqb_eq in He. subst s. exists r. simpl. auto.
    + intros [H|H]; [subst; rewrite String.eqb_refl in He; discriminate|].
      destruct (IH H) as (r' & H1 & H2 & H3). eauto.
Qed.

Section WithScorer.

Variable scorer : string -> string -> Z.

Lemma In_extract query choices limit p :
  In p (extract scorer query choices limit) ->
  In (fst p) choices /\ snd p = scorer query (fst p) /\ 0 <= snd p.
Proof.
  unfold extract, nlargest, extractWithoutOrder. intros H.
  apply In_take, In_sorted_desc, filter_In in H as [H Hpos].
  apply in_map_iff in H as (c & <- & Hc). simpl in *.
  apply Z.leb_le in Hpos. auto.
Qed.

(** The loop over matches that all come from the column never raises, and
    its result is the matches at or above the threshold, each with its
    position as rank and its fields read from the table. *)
Lemma collect_listed df query min_score matches :
  (forall p, In p matches ->
     In (fst p) (dropna_tolist company_column (rows df)) /\
     snd p = scorer query (fst p)) ->
  forall rank0,
  exists results,
    collect df min_score rank0 matches = inr results /\
    Forall (from_table scorer df query) results /\
    Forall (fun c => In (matched_name c, score c) matches) results /\
    StronglySorted Z.lt (map rank results) /\
    Forall (fun c => rank0 <= rank c < rank0 + Z.of_nat (length matches)) results.
Proof.
  induction matches as [|[name s] matches IH]; intros Hall rank0; simpl.
  - exists []. repeat split; constructor.
  - destruct (IH (fun p Hp => Hall p (or_intror Hp)) (rank0 + 1))
      as (rest & Hrest & Htab & Hin & Hsorted & Hrange).
    assert (Hrange' : Forall (fun c => rank0 <= rank c <
                                rank0 + Z.of_nat (S (length matches))) rest).
    { eapply List.Forall_impl; [|exact Hrange]. simpl. intros c Hc. lia. }
    assert (Hin' : Forall (fun c => In (matched_name c, score c)
                                      ((name, s) :: matches)) rest).
    { eapply List.Forall_impl; [|exact Hin]. intros c Hc. now right. }
    destruct (s <? min_score).
    + exists rest. auto.
    + destruct (Hall (name, s) (or_introl eq_refl)) as [Hlisted Hscore].
      simpl in Hlisted, Hscore.
      destruct (iloc0_of_listed df name Hlisted) as (r & Hr & Hrin & Hcell).
      rewrite Hr. simpl. rewrite Hrest. simpl. eexists. split; [reflexivity|].
      split; [|split; [|split]].
      * constructor; [|exact Htab]. exists r. simpl. repeat split; auto.
      * constructor; [now left|exact Hin'].
      * simpl. constructor; [exact Hsorted|].
        apply Forall_forall. intros k Hk.
        apply list_elem_of_In, in_map_iff in Hk as (c & <- & Hc).
        rewrite Forall_forall in Hrange.
        apply list_elem_of_In, Hrange in Hc. lia.
      * constructor; [simpl; lia|exact Hrange'].
Qed.

(** Lowering nothing but the threshold: the loop's result at a higher
    threshold is the result at the lower one without the lower scores. *)
Lemma collect_raise_threshold df lo hi matches :
  lo <= hi ->
  forall rank0 results,
    collect df lo rank0 matches = inr results ->
    collect df hi rank0 matches = inr (List.filter (at_least hi) results).
Proof.
  intros Hle. induction matches as [|[name s] matches IH]; intros rank0 results;
    simpl.
  - intros [= <-]. reflexivity.
  - destruct (s <? lo) eqn:Hlo.
    + apply Z.ltb_lt in Hlo.
      assert (Hhi : (s <? hi) = true) by (apply Z.ltb_lt; lia).
      rewrite Hhi. apply IH.
    + destruct (iloc0 _) as [e|r]; simpl; [discriminate|].
      destruct (collect df lo (rank0 + 1) matches) as [e|rest] eqn:Hrest; simpl;
        [discriminate|].
      intros [= <-]. rewrite (IH _ _ Hrest). simpl.
      unfold at_least. simpl.
      destruct (s <? hi) eqn:Hhi.
      * apply Z.ltb_lt in Hhi.
        assert (Hno : (hi <=? s) = false) by (apply Z.leb_gt; lia).
        now rewrite Hno.
      * apply Z.ltb_ge in Hhi.
        assert (Hyes : (hi <=? s) = true) by (apply Z.leb_le; lia).
        now rewrite Hyes.
Qed.

(** The head of the sorted list scores at least as much as every entry. *)
Lemma sorted_desc_head l p :
  In p l ->
  exists h t, sorted_desc l = h :: t /\ forall q, In q l -> snd q <= snd h.
Proof.
  intros Hp. pose proof (MatcherFacts.sorted_desc_sorted l) as Hs.
  destruct (sorted_desc l) as [|h t] eqn:Hl.
  - apply In_sorted_desc in Hp. rewrite Hl in Hp. destruct Hp.
  - exists h, t. split; [reflexivity|]. intros q Hq.
    apply In_sorted_desc in Hq. rewrite Hl in Hq.
    apply StronglySorted_inv in Hs as [_ Hs]. rewrite Forall_forall in Hs.
    destruct Hq as [<-|Hq]; [lia|].
    apply list_elem_of_In, Hs in Hq. unfold outranks in Hq. lia.
Qed.

Variable read_excel : string -> exn + DataFrame.

(** What [get_isin_for_company] comes down to once the name is not empty,
    the file is read and the column is there. *)
Lemma get_isin_is_collect company_name excel_file top_n min_score df :
  Py.nonempty company_name = true ->
  read_excel excel_file = inr df ->
  has_column df company_column = true ->
  exists results,
    get_isin_for_company scorer read_excel company_name excel_file top_n min_score
      = inr results /\
    collect df min_score 1
      (extract scorer company_name (dropna_tolist company_column (rows df)) top_n)
      = inr results /\
    Forall (from_table scorer df company_name) results /\
    StronglySorted Z.lt (map rank results) /\
    Forall (fun c => 1 <= rank c <= top_n) results.
Proof.
  intros Hname Hread Hcol. unfold get_isin_for_company.
  rewrite Hname, Hread. simpl. rewrite Hcol. simpl.
  set (matches := extract scorer company_name _ top_n).
  destruct (collect_listed df company_name min_score matches) with (rank0 := 1)
    as (results & Hc & Htab & _ & Hsorted & Hrange).
  { intros p Hp. apply In_extract in Hp as (H1 & H2 & _). auto. }
  exists results. rewrite Hc. simpl. repeat split; auto.
  eapply List.Forall_impl; [|exact Hrange]. simpl. intros c Hc'.
  assert (Hlen : Z.of_nat (length matches) <= Z.max 0 top_n).
  { unfold matches, extract, nlargest. rewrite length_take. lia. }
  lia.
Qed.

(** In every other case the result is the empty list. *)
Lemma get_isin_cases company_name excel_file top_n min_score :
  get_isin_for_company scorer read_excel company_name excel_file top_n min_score
    = inr [] \/
  exists df,
    Py.nonempty company_name = true /\
    read_excel excel_file = inr df /\
    has_column df company_column = true.
Proof.
  unfold get_isin_for_company.
  destruct (Py.nonempty company_name); simpl; [|now left].
  destruct (read_excel excel_file) as [e|df]; simpl; [now left|].
  destruct (has_column df company_column) eqn:Hcol; simpl; [|now left].
  right. exists df. auto.
Qed.

End WithScorer.

(** On a descending list the loop keeps a front part, so the ranks it
    hands out are consecutive. *)
Lemma collect_contiguous df min_score matches :
  StronglySorted outranks matches ->
  forall (rank0 : nat) results,
    collect df min_score (Z.of_nat rank0) matches = inr results ->
    map rank results = map Z.of_nat (seq rank0 (length results)).
Proof.
  induction 1 as [|[name s] matches Hs IH Hall]; intros rank0 results; simpl.
  - intros [= <-]. reflexivity.
  - replace (Z.of_nat rank0 + 1) with (Z.of_nat (S rank0)) by lia.
    destruct (s <? min_score) eqn:Hlow.
    + intros Hc. apply Z.ltb_lt in Hlow.
      assert (results = []) as ->; [|reflexivity].
      clear IH. revert Hc Hall. generalize (S rank0). clear Hs.
      induction matches as [|[name' s'] matches IHm]; intros k; simpl.
      * now intros [= <-].
      * intros Hc Hall. apply Forall_cons in Hall as [Hh Hall].
        unfold outranks in Hh. simpl in Hh.
        assert (Hlow' : (s' <? min_score) = true) by (apply Z.ltb_lt; lia).
        rewrite Hlow' in Hc.
        replace (Z.of_nat k + 1) with (Z.of_nat (S k)) in Hc by lia. eauto.
    + destruct (iloc0 _) as [e|r]; simpl; [discriminate|].
      destruct (collect df min_score (Z.of_nat (S rank0)) matches) as [e|rest] eqn:Hrest;
        simpl; [discriminate|].
      intros [= <-]. simpl. f_equal. eauto.
Qed.

(** X4.  Every candidate returned is read off the table that was loaded:
    its name is the company-name cell of a row, its identifier, exchange
    symbols and industry are those of the first row with that name (blank
    cells and missing columns read as the empty string), and its score is
    the scorer's score of the query against that name. *)
Theorem candidates_are_read_off_the_table
    (scorer : string -> string -> Z) (read_excel : string -> exn + DataFrame)
    (company_name excel_file : string) (top_n min_score : Z)
    (df : DataFrame) (results : list match_record) :
  read_excel excel_file = inr df ->
  get_isin_for_company scorer read_excel company_name excel_file top_n min_score
    = inr results ->
  Forall (from_table scorer df company_name) results.
Proof.
  intros Hread Hget.
  destruct (get_isin_cases scorer read_excel company_name excel_file top_n min_score)
    as [Hnil|(df' & Hname & Hread' & Hcol)].
  - rewrite Hnil in Hget. injection Hget as <-. constructor.
  - rewrite Hread in Hread'. injection Hread' as <-.
    destruct (get_isin_is_collect scorer read_excel company_name excel_file
                top_n min_score df Hname Hread Hcol)
      as (rs & Hrs & _ & Htab & _).
    rewrite Hrs in Hget. injection Hget as <-. exact Htab.
Qed.

Lemma candidates_are_read_off_the_table_witness :
  Forall (from_table toy_scorer toy_table "Tata Motors Ltd")
    [ {| matched_name := "Tata Motors Ltd"; isin := "INE155A01022";
         nse_symbol := ""; bse_code := ""; industry := "Automobiles";
         rank := 1; score := 100 |};
      {| matched_name := "Tata Steel Ltd"; isin := "INE081A01020";
         nse_symbol := ""; bse_code := ""; industry := "Steel";
         rank := 2; score := 80 |} ].
Proof.
  apply (candidates_are_read_off_the_table toy_scorer toy_read_excel
           "Tata Motors Ltd" default_excel_file 3 70 toy_table).
  - reflexivity.
  - vm_compute. reflexivity.
Defined.

(** X5.  The ranks of the returned candidates are 1, 2, 3, ... in list
    order: the threshold only cuts the end of the descending list, so a
    candidate's rank is its position in the result. *)
Theorem ranks_count_up_from_one
    (scorer : string -> string -> Z) (read_excel : string -> exn + DataFrame)
    (company_name excel_file : string) (top_n min_score : Z)
    (results : list match_record) :
  get_isin_for_company scorer read_excel company_name excel_file top_n min_score
    = inr results ->
  map rank results = map Z.of_nat (seq 1 (length results)).
Proof.
  intros Hget.
  destruct (get_isin_cases scorer read_excel company_name excel_file top_n min_score)
    as [Hnil|(df & Hname & Hread & Hcol)].
  - rewrite Hnil in Hget. injection Hget as <-. reflexivity.
  - destruct (get_isin_is_collect scorer read_excel company_name excel_file
                top_n min_score df Hname Hread Hcol)
      as (rs & Hrs & Hc & _).
    rewrite Hrs in Hget. injection Hget as <-.
    apply (collect_contiguous df min_score _
             (MatcherFacts.extract_sorted scorer company_name
                (dropna_tolist company_column (rows df)) top_n) 1%nat rs).
    exact Hc.
Qed.

Lemma ranks_count_up_from_one_witness :
  let results :=
    [ {| matched_name := "Tata Motors Ltd"; isin := "INE155A01022";
         nse_symbol := ""; bse_code := ""; industry := "Automobiles";
         rank := 1; score := 100 |};
      {| matched_name := "Tata Steel Ltd"; isin := "INE081A01020";
         nse_symbol := ""; bse_code := ""; industry := "Steel";
         rank := 2; score := 80 |} ] in
  map rank results = map Z.of_nat (seq 1 (length results)).
Proof.
  intros results.
  apply (ranks_count_up_from_one toy_scorer toy_read_excel "Tata Motors Ltd"
           default_excel_file 3 70 results).
  vm_compute. reflexivity.
Defined.

(** X6.  Raising the threshold only removes candidates: the result for a
    higher [min_score] is the result for the lower one without the
    candidates that score below the higher threshold, ranks unchanged. *)
Theorem higher_threshold_filters_result
    (scorer : string -> string -> Z) (read_excel : string -> exn + DataFrame)
    (company_name excel_file : string) (top_n lo hi : Z)
    (results : list match_record) :
  lo <= hi ->
  get_isin_for_company scorer read_excel company_name excel_file top_n lo
    = inr results ->
  get_isin_for_company scorer read_excel company_name excel_file top_n hi
    = inr (List.filter (at_least hi) results).
Proof.
  intros Hle Hget.
  destruct (get_isin_cases scorer read_excel company_name excel_file top_n lo)
    as [Hnil|(df & Hname & Hread & Hcol)].
  - rewrite Hnil in Hget. injection Hget as <-. simpl.
    unfold get_isin_for_company in *.
    destruct (Py.nonempty company_name); simpl in *; [|reflexivity].
    destruct (read_excel excel_file) as [e|df]; simpl in *; [reflexivity|].
    destruct (has_column df company_column) eqn:Hcol; simpl in *; [|reflexivity].
    set (matches := extract scorer company_name _ top_n) in *.
    destruct (collect_listed scorer df company_name lo matches) with (rank0 := 1)
      as (rs & Hc & _).
    { intros p Hp. apply In_extract in Hp as (H1 & H2 & _). auto. }
    rewrite Hc in Hnil. simpl in Hnil. injection Hnil as ->.
    now rewrite (collect_raise_threshold df lo hi matches Hle 1 [] Hc).
  - destruct (get_isin_is_collect scorer read_excel company_name excel_file
                top_n lo df Hname Hread Hcol)
      as (rs & Hrs & Hc & _).
    rewrite Hrs in Hget. injection Hget as <-.
    unfold get_isin_for_company. rewrite Hname, Hread. simpl. rewrite Hcol. simpl.
    now rewrite (collect_raise_threshold df lo hi _ Hle 1 rs Hc).
Qed.

Lemma higher_threshold_filters_result_witness :
  get_isin_for_company toy_scorer toy_read_excel "Tata Motors Ltd"
    default_excel_file 3 90
  = inr (List.filter (at_least 90)
           [ {| matched_name := "Tata Motors Ltd"; isin := "INE155A01022";
                nse_symbol := ""; bse_code := ""; industry := "Automobiles";
                rank := 1; score := 100 |};
             {| matched_name := "Tata Steel Ltd"; isin := "INE081A01020";
                nse_symbol := ""; bse_code := ""; industry := "Steel";
                rank := 2; score := 80 |} ]).
Proof.
  apply (higher_threshold_filters_result toy_scorer toy_read_excel
           "Tata Motors Ltd" default_excel_file 3 70 90).
  - lia.
  - vm_compute. reflexivity.
Defined.

(** X7.  When the table is read, has the company-name column, at least one
    match is asked for and some listed name scores at least the threshold
    (and at least 0, the library's cutoff), the result is not empty: its
    first candidate has rank 1 and no listed name scores more than it. *)
Theorem best_listed_name_comes_first
    (scorer : string -> string -> Z) (read_excel : string -> exn + DataFrame)
    (company_name excel_file : string) (top_n min_score : Z)
    (df : DataFrame) (name : string) :
  Py.nonempty company_name = true ->
  read_excel excel_file = inr df ->
  has_column df company_column = true ->
  1 <= top_n ->
  In name (dropna_tolist company_column (rows df)) ->
  0 <= scorer company_name name ->
  min_score <= scorer company_name name ->
  exists first rest,
    get_isin_for_company scorer read_excel company_name excel_file top_n min_score
      = inr (first :: rest) /\
    rank first = 1 /\
    forall other,
      In other (dropna_tolist company_column (rows df)) ->
      scorer company_name other <= score first.
Proof.
  intros Hname Hread Hcol Hn Hlisted Hpos Hmin.
  destruct (get_isin_is_collect scorer read_excel company_name excel_file
              top_n min_score df Hname Hread Hcol)
    as (rs & Hrs & Hc & _).
  set (choices := dropna_tolist company_column (rows df)) in *.
  assert (Hin : In (name, scorer company_name name)
                  (extractWithoutOrder scorer company_name choices)).
  { unfold extractWithoutOrder. apply filter_In. split.
    - apply in_map_iff. eauto.
    - simpl. now apply Z.leb_le. }
  destruct (sorted_desc_head _ _ Hin) as (h & t & Hsorted & Hmax).
  unfold extract, nlargest in Hc. rewrite Hsorted in Hc.
  destruct (Z.to_nat top_n) as [|k] eqn:Hk; [lia|]. simpl in Hc.
  destruct h as [hname hs].
  pose proof (Hmax _ Hin) as Hbest. simpl in Hbest.
  assert (Hkeep : (hs <? min_score) = false) by (apply Z.ltb_ge; lia).
  rewrite Hkeep in Hc.
  destruct (iloc0 _) as [e|r]; simpl in Hc; [discriminate|].
  destruct (collect df min_score (1 + 1) (take k t)) as [e|rest]; simpl in Hc;
    [discriminate|].
  injection Hc as <-. eexists. exists rest. split; [exact Hrs|].
  split; [reflexivity|]. simpl. intros other Hother.
  destruct (Z.le_gt_cases 0 (scorer company_name other)) as [Hge|Hlt]; [|lia].
  assert (Hin' : In (other, scorer company_name other)
                   (extractWithoutOrder scorer company_name choices)).
  { unfold extractWithoutOrder. apply filter_In. split.
    - apply in_map_iff. eauto.
    - simpl. now apply Z.leb_le. }
  apply Hmax in Hin'. exact Hin'.
Qed.

Lemma best_listed_name_comes_first_witness :
  exists first rest,
    get_isin_for_company toy_scorer toy_read_excel "Tata Motors Ltd"
      default_excel_file 3 70 = inr (first :: rest) /\
    rank first = 1 /\
    forall other,
      In other (dropna_tolist company_column (rows toy_table)) ->
      toy_scorer "Tata Motors Ltd" other <= score first.
Proof.
  apply (best_listed_name_comes_first toy_scorer toy_read_excel "Tata Motors Ltd"
           default_excel_file 3 70 toy_table "Tata Motors Ltd").
  - reflexivity.
  - reflexivity.
  - reflexivity.
  - lia.
  - vm_compute. auto.
  - vm_compute. discriminate.
  - vm_compute. discriminate.
Defined.

End MatcherMore.

(** ** Cutting the JSON text out of a model answer *)

Module StrFacts.

Lemma append_cons (d : ascii) (a b : string) :
  String.append (String d a) b = String d (String.append a b).
Proof. reflexivity. Qed.

Lemma append_nil (b : string) : String.append EmptyString b = b.
Proof. reflexivity. Qed.

Lemma length_append (s t : string) :
  String.length (String.append s t) = (String.length s + String.length t)%nat.
Proof.
  induction s as [|c s IH]; rewrite ?append_cons, ?append_nil; simpl;
    [reflexivity|]. now rewrite IH.
Qed.

Lemma append_assoc (a b c : string) :
  String.append (String.append a b) c = String.append a (String.append b c).
Proof.
  induction a as [|d a IH]; rewrite ?append_cons, ?append_nil; [reflexivity|].
  now rewrite IH.
Qed.

Lemma len_append (s t : string) : Py.len (String.append s t) = Py.len s + Py.len t.
Proof. unfold Py.len. rewrite length_append. lia. Qed.

Lemma len_nonneg (s : string) : 0 <= Py.len s.
Proof. unfold Py.len. lia. Qed.

(** A string that starts with [p ++ q] starts with [p]. *)
Lemma startswith_shorter (p q s : string) :
  Py.startswith (String.append p q) s = true -> Py.startswith p s = true.
Proof.
  revert s. induction p as [|a p IH]; intros s; simpl; [reflexivity|].
  destruct s as [|b s]; [discriminate|].
  intros H. apply andb_true_iff in H as [Hab H]. rewrite Hab. simpl. eauto.
Qed.

Lemma contains_shorter (p q s : string) :
  Py.contains (String.append p q) s = true -> Py.contains p s = true.
Proof.
  induction s as [|c s IH]; simpl; intros H; apply orb_true_iff in H as [H|H].
  - apply startswith_shorter in H. now rewrite H.
  - discriminate.
  - apply startswith_shorter in H. now rewrite H.
  - rewrite IH by exact H. apply orb_true_r.
Qed.

Lemma startswith_self (p s : string) : Py.startswith p (String.append p s) = true.
Proof.
  induction p as [|a p IH]; rewrite ?append_cons, ?append_nil; simpl;
    [reflexivity|]. now rewrite Ascii.eqb_refl.
Qed.

Lemma contains_after (sub pre s : string) :
  Py.contains sub s = true -> Py.contains sub (String.append pre s) = true.
Proof.
  intros H. induction pre as [|c pre IH]; rewrite ?append_cons, ?append_nil;
    [exact H|].
  simpl. rewrite IH. apply orb_true_r.
Qed.

(** [split] always yields a piece, and two once the separator occurs. *)
Lemma split_go_nonempty sep s : forall skip cur, Py.split_go sep s skip cur <> [].
Proof.
  induction s as [|c s IH]; intros skip cur; simpl; [discriminate|].
  destruct skip; [|apply IH].
  destruct (Py.startswith sep (String c s)); [discriminate|apply IH].
Qed.

Lemma split_go_two sep s :
  Py.nonempty sep = true ->
  Py.contains sep s = true ->
  forall cur, (2 <= length (Py.split_go sep s 0 cur))%nat.
Proof.
  intros Hsep. induction s as [|c s IH]; simpl; intros H cur.
  - destruct sep; discriminate.
  - destruct (Py.startswith sep (String c s)) eqn:Hstart.
    + simpl.
      pose proof (split_go_nonempty sep s (Nat.pred (String.length sep)) []) as Hne.
      destruct (Py.split_go sep s _ []); [congruence|simpl; lia].
    + simpl in H. apply IH. exact H.
Qed.

Section OneCharacter.

Variable c : ascii.
Let pat : string := String c EmptyString.

Lemma find_from_past (pre rest : string) :
  Py.contains pat pre = false ->
  forall i, Py.find_from pat (String.append pre (String c rest)) i = i + Py.len pre.
Proof.
  induction pre as [|d pre IH]; intros Hpre i.
  - rewrite append_nil. simpl. rewrite Ascii.eqb_refl. simpl.
    unfold Py.len. simpl. lia.
  - simpl in Hpre. apply orb_false_iff in Hpre as [Hd Hpre].
    rewrite append_cons. simpl Py.find_from. simpl in Hd. rewrite Hd.
    rewrite (IH Hpre). unfold Py.len. simpl String.length. lia.
Qed.

Lemma rfind_from_clean (post : string) :
  Py.contains pat post = false ->
  forall i last, Py.rfind_from pat post i last = last.
Proof.
  induction post as [|d post IH]; intros Hpost i last; simpl; [reflexivity|].
  simpl in Hpost. apply orb_false_iff in Hpost as [Hd Hpost].
  rewrite Hd. apply IH, Hpost.
Qed.

Lemma rfind_from_last (s post : string) :
  Py.contains pat post = false ->
  forall i last,
    Py.rfind_from pat (String.append s (String c post)) i last = i + Py.len s.
Proof.
  intros Hpost. induction s as [|d s IH]; intros i last.
  - rewrite append_nil. simpl. rewrite Ascii.eqb_refl. simpl.
    rewrite (rfind_from_clean post Hpost). unfold Py.len. simpl. lia.
  - rewrite append_cons. simpl Py.rfind_from. rewrite IH. unfold Py.len. simpl String.length. lia.
Qed.

End OneCharacter.

Lemma substring_from_start (x post : string) :
  substring 0 (String.length x) (String.append x post) = x.
Proof.
  induction x as [|d x IH]; rewrite ?append_cons, ?append_nil; simpl.
  - destruct post; reflexivity.
  - now rewrite IH.
Qed.

Lemma substring_middle (pre x post : string) :
  substring (String.length pre) (String.length x)
    (String.append pre (String.append x post)) = x.
Proof.
  induction pre as [|d pre IH]; rewrite ?append_cons, ?append_nil;
    [apply substring_from_start|simpl; exact IH].
Qed.

End StrFacts.

Module LlmMore.
Import StrFacts.

(** X8.  Cutting the JSON text out of an answer never raises: whenever a
    fence is looked for by [split(..)[1]], the fence occurs, so the second
    piece exists. *)
Theorem json_str_of_never_raises (response_text : string) :
  exists json_str, Llm.json_str_of response_text = inr json_str.
Proof.
  assert (Hcut : forall sep text,
             Py.nonempty sep = true -> Py.contains sep text = true ->
             exists a b, Llm.index (Py.split sep text) 1 = inr a /\
                         Llm.index (Py.split Llm.fence a) 0 = inr b).
  { intros sep text Hsep Hin. unfold Llm.index, Py.split.
    pose proof (split_go_two sep text Hsep Hin []) as Htwo.
    destruct (Py.split_go sep text 0 []) as [|p0 [|p1 rest]]; simpl in Htwo; try lia.
    exists p1. simpl. pose proof (split_go_nonempty Llm.fence p1 0 []) as Hne.
    destruct (Py.split_go Llm.fence p1 0 []) as [|q0 qs]; [congruence|].
    exists q0. simpl. split; reflexivity. }
  unfold Llm.json_str_of.
  destruct (Py.contains Llm.fence_json response_text) eqn:H1.
  { destruct (Hcut Llm.fence_json response_text eq_refl H1) as (a & b & -> & Hb).
    simpl. rewrite Hb. simpl. eauto. }
  destruct (Py.contains Llm.fence response_text) eqn:H2.
  { destruct (Hcut Llm.fence response_text eq_refl H2) as (a & b & -> & Hb).
    simpl. rewrite Hb. simpl. eauto. }
  destruct (Py.contains "{" response_text); eauto.
Qed.

(** X9.  An answer without code fences that holds a JSON object between
    some prose is cut down to the object: everything from the first opening
    brace to the last closing brace. *)
Theorem object_is_cut_out_of_prose (pre mid post : string) :
  let object := String.append "{" (String.append mid "}") in
  let text := String.append pre (String.append object post) in
  Py.contains Llm.fence text = false ->
  Py.contains "{" pre = false ->
  Py.contains "}" post = false ->
  Llm.json_str_of text = inr object.
Proof.
  intros object text Hfence Hpre Hpost. unfold Llm.json_str_of.
  assert (Hfj : Py.contains Llm.fence_json text = false).
  { destruct (Py.contains Llm.fence_json text) eqn:H; [|reflexivity].
    change Llm.fence_json with (String.append Llm.fence "json") in H.
    apply contains_shorter in H. congruence. }
  rewrite Hfj, Hfence.
  assert (Hbrace : Py.contains "{" text = true).
  { unfold text. apply contains_after. unfold object.
    rewrite !append_cons, append_nil. reflexivity. }
  rewrite Hbrace. f_equal.
  assert (Hfind : Py.find "{" text = Py.len pre).
  { unfold Py.find, text, object.
    rewrite !append_cons, append_nil.
    rewrite (find_from_past "{"%char pre _ Hpre). lia. }
  assert (Hrfind : Py.rfind "}" text = Py.len pre + 1 + Py.len mid).
  { unfold Py.rfind.
    replace text with (String.append (String.append pre (String.append "{" mid))
                         (String "}" post)).
    - rewrite (rfind_from_last "}"%char _ post Hpost).
      rewrite !len_append. unfold Py.len. simpl. lia.
    - unfold text, object.
      change (String "}" post) with (String.append "}" post).
      now rewrite !append_assoc. }
  rewrite Hfind, Hrfind. unfold Py.slice.
  assert (Hlen : Py.len text = Py.len pre + (1 + Py.len mid + 1) + Py.len post).
  { unfold text, object. rewrite !len_append. unfold Py.len. simpl. lia. }
  pose proof (len_nonneg pre). pose proof (len_nonneg mid).
  pose proof (len_nonneg post).
  unfold Py.slice_bound. rewrite Hlen.
  assert (H3 : (Py.len pre <? 0) = false) by (apply Z.ltb_ge; lia).
  assert (H4 : (Py.len pre + 1 + Py.len mid + 1 <? 0) = false)
    by (apply Z.ltb_ge; lia).
  rewrite H3, H4.
  rewrite !Z.min_l by lia.
  assert (H5 : (Py.len pre <? Py.len pre + 1 + Py.len mid + 1) = true)
    by (apply Z.ltb_lt; lia).
  rewrite H5.
  replace (Z.to_nat (Py.len pre)) with (String.length pre)
    by (unfold Py.len; lia).
  replace (Z.to_nat (Py.len pre + 1 + Py.len mid + 1 - Py.len pre))
    with (String.length object).
  - apply substring_middle.
  - unfold object. rewrite !length_append. unfold Py.len. simpl. lia.
Qed.

Lemma object_is_cut_out_of_prose_witness :
  Llm.json_str_of "Sure, here it is: {a: {b}} Hope it helps." = inr "{a: {b}}".
Proof.
  apply (object_is_cut_out_of_prose "Sure, here it is: " "a: {b}" " Hope it helps.");
    reflexivity.
Defined.

End LlmMore.

(** ** Entity extractor: what it calls and what it never returns *)

Module ExtractorMore.
Import Extractor.

Lemma validate_not_generic article_text article_title company_name confidence name :
  validate article_text article_title company_name confidence = name ->
  name <> "" ->
  name = company_name /\
  is_invalid_term (Py.lower name) = false /\
  String.eqb (Py.upper name) "NONE" = false /\
  is_low confidence = false.
Proof.
  unfold validate. intros Hv Hne.
  destruct (negb (Py.nonempty company_name) || _) eqn:H1; [congruence|].
  apply orb_false_iff in H1 as [_ H1].
  destruct (is_invalid_term _) eqn:H2; [congruence|].
  destruct (negb _); [congruence|].
  destruct (is_low confidence); [congruence|]. subst name. auto.
Qed.

(** The extractor's footprint: it always returns, and sends one prompt if
    the key is there. *)
Lemma extract_company_simple_world
    (api_key : option string)
    (generate_content : list string -> string -> exn + string)
    (json_loads : string -> exn + json)
    (instructions answer_format article_text article_title : string)
    (w : world) :
  exists name,
    extract_company_simple api_key generate_content json_loads
      instructions answer_format article_text article_title w
    = (inr name,
       {| llm_calls :=
            llm_calls w ++
              (if Llm.key_present api_key
               then [prompt_of instructions answer_format article_text article_title]
               else []);
          webhook_calls := webhook_calls w;
          console := console w |}) /\
    (if Llm.key_present api_key then True else name = "").
Proof.
  unfold extract_company_simple.
  destruct (Llm.key_present api_key); simpl.
  - unfold try_except, bind, lift, ret, Llm.ask. simpl.
    destruct (generate_content (llm_calls w) _) as [e|response]; simpl;
      [eexists; split; [reflexivity|exact I]|].
    destruct (Llm.json_str_of (Py.strip response)) as [e|json_str]; simpl;
      [eexists; split; [reflexivity|exact I]|].
    destruct (json_loads json_str) as [e|result]; simpl;
      [eexists; split; [reflexivity|exact I]|].
    destruct (Llm.as_dict result) as [e|fields]; simpl;
      [eexists; split; [reflexivity|exact I]|].
    destruct (Llm.as_str _) as [e|raw_name]; simpl;
      eexists; (split; [reflexivity|exact I]).
  - exists "". split; [|reflexivity]. unfold ret. rewrite app_nil_r.
    destruct w; reflexivity.
Qed.

(** X10.  [extract_company_simple] never raises and touches nothing but
    the model: with an API key it sends exactly one prompt, without one it
    sends none and returns the empty string; webhook and console are left
    alone. *)
Theorem extractor_only_asks_the_model_once
    (api_key : option string)
    (generate_content : list string -> string -> exn + string)
    (json_loads : string -> exn + json)
    (instructions answer_format article_text article_title : string)
    (w : world) :
  exists name,
    extract_company_simple api_key generate_content json_loads
      instructions answer_format article_text article_title w
    = (inr name,
       {| llm_calls :=
            llm_calls w ++
              (if Llm.key_present api_key
               then [prompt_of instructions answer_format article_text article_title]
               else []);
          webhook_calls := webhook_calls w;
          console := console w |}) /\
    (if Llm.key_present api_key then True else name = "").
Proof. apply extract_company_simple_world. Qed.

(** X11.  A non-empty name returned by [extract_company_simple] is never
    one of the generic terms (company, corporation, firm, business, the,
    inc, ltd, limited) and never NONE, in any letter case. *)
Theorem extracted_name_is_not_generic
    (api_key : option string)
    (generate_content : list string -> string -> exn + string)
    (json_loads : string -> exn + json)
    (instructions answer_format article_text article_title : string)
    (w : world) (name : string) :
  fst (extract_company_simple api_key generate_content json_loads
         instructions answer_format article_text article_title w) = inr name ->
  name <> "" ->
  is_invalid_term (Py.lower name) = false /\
  Py.upper name <> "NONE".
Proof.
  unfold extract_company_simple. intros Hrun Hne.
  destruct (negb (Llm.key_present api_key)); [simpl in Hrun; congruence|].
  unfold try_except, bind, lift, ret, Llm.ask in Hrun. simpl in Hrun.
  destruct (generate_content (llm_calls w) _) as [e|response];
    [simpl in Hrun; congruence|].
  destruct (Llm.json_str_of (Py.strip response)) as [e|json_str];
    [simpl in Hrun; congruence|].
  destruct (json_loads json_str) as [e|result]; [simpl in Hrun; congruence|].
  destruct (Llm.as_dict result) as [e|fields]; [simpl in Hrun; congruence|].
  destruct (Llm.as_str _) as [e|raw_name]; [simpl in Hrun; congruence|].
  simpl in Hrun. injection Hrun as Hrun.
  destruct (validate_not_generic _ _ _ _ _ Hrun Hne) as (_ & H1 & H2 & _).
  split; [exact H1|]. now apply String.eqb_neq.
Qed.

Lemma extracted_name_is_not_generic_witness :
  is_invalid_term (Py.lower "Tata Motors") = false /\
  Py.upper "Tata Motors" <> "NONE".
Proof.
  apply (extracted_name_is_not_generic (Some "key")
           (fun _ _ => inr "{}") (fun _ => inr company_answer)
           "" "" "Shares of TATA rose after the results." "Market wrap"
           empty_world "Tata Motors").
  - vm_compute. reflexivity.
  - discriminate.
Defined.

End ExtractorMore.

(** ** Summarizer: what is sent, what comes back *)

Module SummarizerMore.
Import Article Summarizer BatchCheck.

Lemma substring_prefix_append (s t : string) :
  forall m, (m <= String.length s)%nat ->
    substring 0 m (String.append s t) = substring 0 m s.
Proof.
  induction s as [|c s IH]; intros m Hm;
    rewrite ?StrFacts.append_cons, ?StrFacts.append_nil.
  - simpl in Hm. assert (m = 0%nat) as -> by lia. destruct t; reflexivity.
  - destruct m as [|m]; [reflexivity|]. simpl. rewrite IH; [reflexivity|].
    simpl in Hm. lia.
Qed.

Lemma prefix_slice_append (s t : string) (n : Z) :
  0 <= n <= Py.len s ->
  Py.prefix_slice (String.append s t) n = Py.prefix_slice s n.
Proof.
  intros Hn. unfold Py.prefix_slice, Py.slice, Py.slice_bound.
  rewrite StrFacts.len_append. pose proof (StrFacts.len_nonneg t).
  assert (H0 : (0 <? 0) = false) by reflexivity.
  assert (Hn0 : (n <? 0) = false) by (apply Z.ltb_ge; lia).
  rewrite H0, Hn0, !Z.min_l by lia.
  destruct (0 <? n); [|reflexivity].
  apply substring_prefix_append. unfold Py.len in Hn. lia.
Qed.

Section WithModel.

Variable api_key : option string.
Variable generate_content : list string -> string -> exn + string.
Variable json_loads : string -> exn + json.
Variables analyst_role task_and_format : string.

Local Abbreviation summarize_article_data :=
  (summarize_article_data api_key generate_content json_loads analyst_role
     task_and_format).
Local Abbreviation summarize_one :=
  (summarize_one api_key generate_content json_loads analyst_role task_and_format).
Local Abbreviation summarize_loop :=
  (summarize_loop api_key generate_content json_loads analyst_role task_and_format).

(** One summary: a result, and one prompt sent if the key is there. *)
Lemma summarize_article_data_world article_text article_title company_name w :
  exists s,
    summarize_article_data article_text article_title company_name w
    = (inr s,
       {| llm_calls :=
            llm_calls w ++
              (if Llm.key_present api_key
               then [prompt_of analyst_role task_and_format article_text
                       article_title company_name]
               else []);
          webhook_calls := webhook_calls w;
          console := console w |}) /\
    (if Llm.key_present api_key then True else s = no_key_result).
Proof.
  unfold Summarizer.summarize_article_data.
  destruct (Llm.key_present api_key); simpl.
  - unfold try_except, bind, lift, ret, raise, Llm.ask. simpl.
    destruct (generate_content (llm_calls w) _) as [e|response]; simpl;
      [eexists; split; [reflexivity|exact I]|].
    destruct (Llm.json_str_of (Py.strip response)) as [e|json_str]; simpl;
      [eexists; split; [reflexivity|exact I]|].
    destruct (json_loads json_str) as [e|result]; simpl;
      [eexists; split; [reflexivity|exact I]|].
    destruct result; simpl; eexists; (split; [reflexivity|exact I]).
  - exists no_key_result. split; [|reflexivity]. unfold ret. rewrite app_nil_r.
    destruct w; reflexivity.
Qed.

(** What a pass of the loop that does not raise adds. *)
Lemma summarize_one_adds acc a w acc' w' :
  summarize_one acc a w = (inr acc', w') ->
  exists added,
    acc' = acc ++ added /\
    Forall2 summary_of_input added (List.filter eligible [a]) /\
    llm_calls w' =
      llm_calls w ++
        (if Llm.key_present api_key
         then map (prompt_for analyst_role task_and_format) (List.filter eligible [a])
         else []) /\
    webhook_calls w' = webhook_calls w /\
    console w' = console w.
Proof.
  unfold Summarizer.summarize_one. simpl. unfold eligible.
  destruct (get (article_length a) 0 <? min_length).
  { intros [= <- <-]. exists []. simpl. rewrite !app_nil_r.
    destruct (Llm.key_present api_key);
      (split; [reflexivity|]); (split; [constructor|]);
      rewrite ?app_nil_r; auto. }
  destruct (is_sentinel _).
  { intros [= <- <-]. exists []. simpl. rewrite !app_nil_r.
    destruct (Llm.key_present api_key);
      (split; [reflexivity|]); (split; [constructor|]);
      rewrite ?app_nil_r; auto. }
  simpl. unfold bind, lift, ret.
  destruct (summarize_article_data_world (get (full_article a) "")
              (get (title a) "") (get (company_name a) "") w) as (s & -> & _).
  destruct (show_preview s); [discriminate|].
  intros [= <- <-]. exists [with_summary a s]. simpl.
  split; [reflexivity|]. split; [repeat constructor; now exists s|].
  destruct (Llm.key_present api_key); auto.
Qed.

Lemma summarize_loop_adds articles :
  forall acc w out w',
    summarize_loop articles acc w = (inr out, w') ->
    exists added,
      out = acc ++ added /\
      Forall2 summary_of_input added (List.filter eligible articles) /\
      llm_calls w' =
        llm_calls w ++
          (if Llm.key_present api_key
           then map (prompt_for analyst_role task_and_format)
                  (List.filter eligible articles)
           else []) /\
      webhook_calls w' = webhook_calls w /\
      console w' = console w.
Proof.
  induction articles as [|a articles IH]; intros acc w out w'; simpl.
  - intros [= <- <-]. exists []. rewrite !app_nil_r.
    destruct (Llm.key_present api_key);
      (split; [reflexivity|]); (split; [constructor|]);
      rewrite ?app_nil_r; auto.
  - unfold bind. destruct (summarize_one acc a w) as [[e|acc1] w1] eqn:Hone;
      [discriminate|].
    intros Hrest.
    destruct (summarize_one_adds _ _ _ _ _ Hone) as (add1 & -> & Hf1 & Hl1 & Hw1 & Hc1).
    destruct (IH _ _ _ _ Hrest) as (add2 & -> & Hf2 & Hl2 & Hw2 & Hc2).
    exists (add1 ++ add2). rewrite app_assoc. split; [reflexivity|].
    simpl in Hf1, Hl1.
    destruct (eligible a); simpl.
    + split; [|split; [|split; congruence]].
      * inversion Hf1 as [|o x l1 l2 Ho Hnil]; subst. inversion Hnil; subst.
        simpl. constructor; assumption.
      * rewrite Hl2, Hl1. destruct (Llm.key_present api_key); simpl;
          now rewrite <- app_assoc.
    + inversion Hf1; subst. simpl.
      split; [exact Hf2|]. split; [|split; congruence].
      rewrite Hl2, Hl1. destruct (Llm.key_present api_key); simpl;
        now rewrite ?app_nil_r.
Qed.

(** Whether it returns or raises, the loop leaves webhook and console
    alone. *)
Lemma summarize_loop_footprint articles :
  forall acc w r w',
    summarize_loop articles acc w = (r, w') ->
    webhook_calls w' = webhook_calls w /\ console w' = console w.
Proof.
  induction articles as [|a articles IH]; intros acc w r w'; simpl.
  - intros [= <- <-]. auto.
  - unfold bind at 1. unfold Summarizer.summarize_one.
    destruct (get (article_length a) 0 <? min_length); simpl; [apply IH|].
    destruct (is_sentinel _); simpl; [apply IH|].
    unfold bind at 1.
    destruct (summarize_article_data_world (get (full_article a) "")
                (get (title a) "") (get (company_name a) "") w) as (s & -> & _).
    unfold bind at 1. unfold lift.
    destruct (show_preview s); simpl.
    + intros [= <- <-]. auto.
    + intros Hrest. apply IH in Hrest. simpl in Hrest. exact Hrest.
Qed.

(** Without a key the loop cannot raise: the placeholder previews fine. *)
Lemma summarize_loop_without_key articles :
  Llm.key_present api_key = false ->
  forall acc w,
    summarize_loop articles acc w
    = (inr (acc ++ map (fun a => with_summary a no_key_result)
                     (List.filter eligible articles)), w).
Proof.
  intros Hkey. induction articles as [|a articles IH]; intros acc w; simpl.
  - unfold ret. now rewrite app_nil_r.
  - unfold bind, Summarizer.summarize_one, eligible.
    destruct (get (article_length a) 0 <? min_length); simpl; [apply IH|].
    destruct (is_sentinel _); simpl; [apply IH|].
    unfold bind, Summarizer.summarize_article_data. rewrite Hkey. simpl.
    rewrite IH. now rewrite <- app_assoc.
Qed.

End WithModel.

(** X12.  Only the first 4000 characters of the article text reach the
    model: text beyond them changes neither the prompt nor the result. *)
Theorem text_beyond_4000_characters_is_ignored
    (api_key : option string)
    (generate_content : list string -> string -> exn + string)
    (json_loads : string -> exn + json)
    (analyst_role task_and_format article_text more article_title company_name : string)
    (w : world) :
  4000 <= Py.len article_text ->
  summarize_article_data api_key generate_content json_loads analyst_role
    task_and_format (String.append article_text more) article_title company_name w
  = summarize_article_data api_key generate_content json_loads analyst_role
      task_and_format article_text article_title company_name w.
Proof.
  intros Hlen. unfold summarize_article_data, prompt_of.
  rewrite prefix_slice_append by lia. reflexivity.
Qed.

Lemma text_beyond_4000_characters_is_ignored_witness :
  let text := String.concat "" (repeat "0123456789" 400) in
  summarize_article_data (Some "key") (fun _ prompt => inr prompt)
    (fun s => inr (JObj [("summary", JStr s)])) "" "" (String.append text "tail")
    "A title" "Acme" empty_world
  = summarize_article_data (Some "key") (fun _ prompt => inr prompt)
      (fun s => inr (JObj [("summary", JStr s)])) "" "" text
      "A title" "Acme" empty_world.
Proof.
  intros text.
  apply (text_beyond_4000_characters_is_ignored (Some "key")
           (fun _ prompt => inr prompt)
           (fun s => inr (JObj [("summary", JStr s)])) "" "" text "tail"
           "A title" "Acme" empty_world).
  vm_compute. discriminate.
Defined.

(** X13.  When the batch returns, its output is the eligible articles of
    the input (recorded length at least 200, text not an ERROR or
    NO_CONTENT sentinel), in input order, each with its summary attached and
    no other field changed. *)
Theorem batch_output_is_the_eligible_input
    (api_key : option string)
    (generate_content : list string -> string -> exn + string)
    (json_loads : string -> exn + json)
    (analyst_role task_and_format : string)
    (articles out : list article) (w w' : world) :
  summarize_multiple_articles api_key generate_content json_loads analyst_role
    task_and_format articles w = (inr out, w') ->
  Forall2 summary_of_input out (List.filter eligible articles).
Proof.
  intros Hrun. unfold summarize_multiple_articles in Hrun.
  destruct articles as [|a articles].
  - injection Hrun as <- <-. constructor.
  - destruct (summarize_loop_adds api_key generate_content json_loads
                analyst_role task_and_format _ _ _ _ _ Hrun)
      as (added & -> & Hf & _).
    exact Hf.
Qed.

Lemma batch_output_is_the_eligible_input_witness :
  let long := scraped "A long enough text." 250 in
  let failed := scraped "ERROR: timeout" 250 in
  let short := scraped "Too short." 10 in
  Forall2 summary_of_input
    [with_summary long {| summary := JStr "ok"; numeric_data := JArr [];
                          data_source := JStr "Unknown" |}]
    (List.filter eligible [short; long; failed]).
Proof.
  intros long failed short.
  apply (batch_output_is_the_eligible_input (Some "key") (fun _ _ => inr "{}")
           (fun _ => inr (JObj [("summary", JStr "ok")])) "" ""
           [short; long; failed] _ empty_world
           {| llm_calls := [prompt_for "" "" long]; webhook_calls := [];
              console := [] |}).
  vm_compute. reflexivity.
Defined.

(** X14.  When the batch returns, it has sent exactly one prompt per
    eligible article, in input order, if the API key is set, and none if it
    is not; it never posts to the webhook or prints through the notifier. *)
Theorem batch_sends_one_prompt_per_eligible_article
    (api_key : option string)
    (generate_content : list string -> string -> exn + string)
    (json_loads : string -> exn + json)
    (analyst_role task_and_format : string)
    (articles out : list article) (w w' : world) :
  summarize_multiple_articles api_key generate_content json_loads analyst_role
    task_and_format articles w = (inr out, w') ->
  llm_calls w' =
    llm_calls w ++
      (if Llm.key_present api_key
       then map (prompt_for analyst_role task_and_format)
              (List.filter eligible articles)
       else []) /\
  webhook_calls w' = webhook_calls w /\
  console w' = console w.
Proof.
  intros Hrun. unfold summarize_multiple_articles in Hrun.
  destruct articles as [|a articles].
  - injection Hrun as <- <-.
    destruct (Llm.key_present api_key); simpl; rewrite app_nil_r; auto.
  - destruct (summarize_loop_adds api_key generate_content json_loads
                analyst_role task_and_format _ _ _ _ _ Hrun)
      as (added & _ & _ & Hl & Hw & Hc).
    auto.
Qed.

Lemma batch_sends_one_prompt_per_eligible_article_witness :
  let long := scraped "A long enough text." 250 in
  let short := scraped "Too short." 10 in
  let w' := {| llm_calls := [prompt_for "" "" long; prompt_for "" "" long];
               webhook_calls := []; console := [] |} in
  llm_calls w' =
    llm_calls empty_world ++
      (if Llm.key_present (Some "key")
       then map (prompt_for "" "") (List.filter eligible [long; short; long])
       else []) /\
  webhook_calls w' = webhook_calls empty_world /\
  console w' = console empty_world.
Proof.
  intros long short w'.
  apply (batch_sends_one_prompt_per_eligible_article (Some "key")
           (fun _ _ => inr "{}") (fun _ => inr (JObj [("summary", JStr "ok")]))
           "" "" [long; short; long]
           (map (fun a => with_summary a {| summary := JStr "ok";
                                            numeric_data := JArr [];
                                            data_source := JStr "Unknown" |})
              [long; long])
           empty_world w').
  vm_compute. reflexivity.
Defined.

(** X15.  Without an API key the batch does not fail: every eligible
    article comes back with the placeholder summary "API key not
    configured", and the world is untouched (no model call at all). *)
Theorem batch_without_key_returns_placeholders
    (api_key : option string)
    (generate_content : list string -> string -> exn + string)
    (json_loads : string -> exn + json)
    (analyst_role task_and_format : string)
    (articles : list article) (w : world) :
  Llm.key_present api_key = false ->
  summarize_multiple_articles api_key generate_content json_loads analyst_role
    task_and_format articles w
  = (inr (map (fun a => with_summary a no_key_result)
            (List.filter eligible articles)), w).
Proof.
  intros Hkey. unfold summarize_multiple_articles.
  destruct articles as [|a articles]; [reflexivity|].
  now rewrite (summarize_loop_without_key api_key generate_content json_loads
                 analyst_role task_and_format (a :: articles) Hkey [] w).
Qed.

Lemma batch_without_key_returns_placeholders_witness :
  let long := scraped "A long enough text." 250 in
  let short := scraped "Too short." 10 in
  summarize_multiple_articles None (fun _ _ => inl APIError)
    (fun _ => inl JSONDecodeError) "" "" [short; long] empty_world
  = (inr (map (fun a => with_summary a no_key_result)
            (List.filter eligible [short; long])), empty_world).
Proof.
  intros long short.
  apply (batch_without_key_returns_placeholders None (fun _ _ => inl APIError)
           (fun _ => inl JSONDecodeError) "" "" [short; long] empty_world).
  reflexivity.
Defined.

End SummarizerMore.

(** ** Notifier and message format *)

Module NotifierMore.
Import Notifier.

Section WithWebhook.

Variable requests_post : list (string * string) -> string -> string -> exn + response.

(** Whatever the webhook does, the posts of the loop are the first [n]
    items, in order; all of them when the loop ends normally, at least one
    when a post raised. *)
Lemma send_each_prefix url items :
  forall idx w r w',
    send_each requests_post url idx items w = (r, w') ->
    exists n,
      (n <= length items)%nat /\
      webhook_calls w' = webhook_calls w ++ map (fun s => (url, s)) (take n items) /\
      llm_calls w' = llm_calls w /\
      match r with
      | inr _ => n = length items
      | inl _ => (1 <= n)%nat
      end.
Proof.
  induction items as [|item items IH]; intros idx w r w'; simpl.
  - intros [= <- <-]. exists 0%nat. simpl. rewrite app_nil_r. auto.
  - unfold bind at 1. unfold post at 1.
    destruct (requests_post (webhook_calls w) url item) as [e|resp].
    + intros [= <- <-]. exists 1%nat. simpl. repeat split; try lia.
    + unfold bind at 1.
      match goal with |- context [report ?l ?r ?w0] =>
        destruct (NotifierFacts.report_calls l r w0) as (w1 & -> & Hcalls & Hllm) end.
      intros Hrest.
      destruct (IH (idx + 1) w1 r w' Hrest) as (n & Hn & Hc & Hl & Hout).
      exists (S n). simpl. split; [lia|]. split; [|split].
      * rewrite Hc, Hcalls. simpl. now rewrite <- app_assoc.
      * rewrite Hl, Hllm. reflexivity.
      * destruct r; lia.
Qed.

End WithWebhook.

(** X16.  Whatever the webhook answers or raises, the posts a list makes
    are an initial part of its non-empty strings, in list order and to the
    configured URL: all of them when the function returns, and at least the
    failing one when a post raised and ended the loop.  Nothing else is ever
    posted. *)
Theorem posts_are_the_first_sendable_messages
    (requests_post : list (string * string) -> string -> string -> exn + response)
    (url : string) (items : list pyval) (w : world) :
  Py.nonempty url = true ->
  let run := send_slack_message (Some url) requests_post (PyList items) w in
  exists n,
    (n <= length (sendable_items items))%nat /\
    webhook_calls (snd run)
      = webhook_calls w ++ map (fun s => (url, s)) (take n (sendable_items items)) /\
    llm_calls (snd run) = llm_calls w /\
    match fst run with
    | inr _ => n = length (sendable_items items)
    | inl _ => (1 <= n)%nat
    end.
Proof.
  intros Hurl run. subst run. unfold send_slack_message, configured. rewrite Hurl.
  destruct (send_each requests_post url 1 (sendable_items items) w) as [r w'] eqn:Hrun.
  apply (send_each_prefix requests_post url _ 1 w r w' Hrun).
Qed.

Lemma posts_are_the_first_sendable_messages_witness :
  let run := send_slack_message (Some "https://hooks.example.com/T") unreachable_post
               (PyList [Atom (PyStr "first"); Atom (PyStr "second")]) empty_world in
  exists n,
    (n <= length (sendable_items [Atom (PyStr "first"); Atom (PyStr "second")]))%nat /\
    webhook_calls (snd run)
      = webhook_calls empty_world ++
          map (fun s => ("https://hooks.example.com/T", s))
            (take n (sendable_items [Atom (PyStr "first"); Atom (PyStr "second")])) /\
    llm_calls (snd run) = llm_calls empty_world /\
    match fst run with
    | inr _ => n = length (sendable_items [Atom (PyStr "first"); Atom (PyStr "second")])
    | inl _ => (1 <= n)%nat
    end.
Proof.
  apply (posts_are_the_first_sendable_messages unreachable_post
           "https://hooks.example.com/T"
           [Atom (PyStr "first"); Atom (PyStr "second")] empty_world).
  reflexivity.
Defined.

End NotifierMore.

Module FormatMore.
Import Driver.

Lemma lstrip_keeps_last (l : list ascii) (c : ascii) :
  Py.is_space c = false -> Py.lstrip_list (l ++ [c]) <> [].
Proof.
  intros Hc. induction l as [|d l IH]; simpl.
  - now rewrite Hc.
  - destruct (Py.is_space d); [exact IH|discriminate].
Qed.

(** Stripping a text that starts with a non-blank character leaves
    something. *)
Lemma strip_nonempty (c : ascii) (s : string) :
  Py.is_space c = false -> Py.nonempty (Py.strip (String c s)) = true.
Proof.
  intros Hc. unfold Py.strip. simpl list_ascii_of_string.
  simpl Py.lstrip_list. rewrite Hc. simpl rev.
  pose proof (lstrip_keeps_last (rev (list_ascii_of_string s)) c Hc) as Hne.
  destruct (Py.lstrip_list _) as [|d l]; [congruence|].
  simpl rev. destruct (rev l ++ [d]) as [|x xs] eqn:Hr.
  - destruct (rev l); discriminate.
  - reflexivity.
Qed.

Section WithExternals.

Variable E : externals.

(** Every message starts with the asterisk of the bold company line. *)
Lemma message_starts_bold (a : Article.article) :
  exists rest, format_slack_message_from_article E a = String "*" rest.
Proof.
  unfold format_slack_message_from_article, Py.join. eexists. reflexivity.
Qed.

End WithExternals.

(** X17.  [format_slack_message_from_article] never yields a blank
    message, so the [if msg.strip()] test in [main] drops nothing: there is
    one message per summarized article, in order. *)
Theorem one_message_per_summarized_article
    (E : externals) (articles_with_summaries : list Article.article) :
  slack_messages_of E articles_with_summaries
  = map (format_slack_message_from_article E) articles_with_summaries /\
  Notifier.sendable_items
    (map (fun s => Notifier.Atom (Notifier.PyStr s))
       (slack_messages_of E articles_with_summaries))
  = map (format_slack_message_from_article E) articles_with_summaries.
Proof.
  assert (Hall : slack_messages_of E articles_with_summaries
                 = map (format_slack_message_from_article E) articles_with_summaries).
  { unfold slack_messages_of.
    induction articles_with_summaries as [|a l IH]; simpl; [reflexivity|].
    destruct (message_starts_bold E a) as (rest & ->).
    rewrite strip_nonempty by reflexivity. now rewrite IH. }
  split; [exact Hall|]. rewrite Hall.
  induction articles_with_summaries as [|a l IH]; simpl; [reflexivity|].
  destruct (message_starts_bold E a) as (rest & ->). simpl.
  f_equal. apply IH.
  unfold slack_messages_of.
  clear IH Hall. induction l as [|b l IH]; simpl; [reflexivity|].
  destruct (message_starts_bold E b) as (rest' & ->).
  rewrite strip_nonempty by reflexivity. now rewrite IH.
Qed.

End FormatMore.

(** ** Content resolver, [main] and the driver loop *)

Module DriverMore.
Import Article Driver ScrapeCheck LoopCheck.

Lemma quiet_step_refl api_key w : quiet_step api_key w w.
Proof. unfold quiet_step. auto. Qed.

Lemma quiet_step_trans api_key w1 w2 w3 :
  quiet_step api_key w1 w2 -> quiet_step api_key w2 w3 -> quiet_step api_key w1 w3.
Proof.
  unfold quiet_step. intros (Ha & Hb & Hc) (Ha' & Hb' & Hc').
  split; [congruence|]. split; [congruence|].
  intros Hkey. rewrite (Hc' Hkey). auto.
Qed.

Section WithExternals.

Variable E : externals.

Lemma extract_world article_text article_title w :
  exists name w',
    Driver.extract_company_simple E article_text article_title w = (inr name, w') /\
    webhook_calls w' = webhook_calls w /\
    console w' = console w /\
    (Llm.key_present (GEMINI_API_KEY E) = false -> name = "" /\ w' = w).
Proof.
  unfold Driver.extract_company_simple.
  destruct (ExtractorMore.extract_company_simple_world (GEMINI_API_KEY E)
              (generate_content E) (json_loads E) (extract_instructions E)
              (extract_answer_format E) article_text article_title w)
    as (name & -> & Hname).
  eexists _, _. split; [reflexivity|]. simpl. split; [reflexivity|].
  split; [reflexivity|]. intros Hkey. rewrite Hkey in *.
  split; [exact Hname|]. rewrite app_nil_r. destruct w; reflexivity.
Qed.

(** The company asked for a text of recorded length [n]. *)
Lemma named_company text title n w :
  exists name w',
    (if MIN_ARTICLE_LENGTH <? n
     then Driver.extract_company_simple E text title
     else ret "") w = (inr name, w') /\
    quiet_step (GEMINI_API_KEY E) w w' /\
    (Py.nonempty name = true -> MIN_ARTICLE_LENGTH < n) /\
    (Llm.key_present (GEMINI_API_KEY E) = false -> name = "").
Proof.
  destruct (MIN_ARTICLE_LENGTH <? n) eqn:Hlen.
  - destruct (extract_world text title w) as (name & w' & Hrun & Hw & Hc & Hk).
    exists name, w'. split; [exact Hrun|]. apply Z.ltb_lt in Hlen.
    split; [|split; [auto|intros Hkey; apply (Hk Hkey)]].
    split; [exact Hw|]. split; [exact Hc|]. intros Hkey. apply (Hk Hkey).
  - exists "", w. split; [reflexivity|]. split; [apply quiet_step_refl|].
    split; [discriminate|reflexivity].
Qed.

(** What [scrape_url] does to the world, and what it writes into the dict
    when [urlparse] does not raise. *)
Lemma scrape_url_inv a i url_idx url w r w' :
  scrape_url E a i url_idx url w = (r, w') ->
  let text := scrape_article_content E url in
  let n :=
    if negb (Py.startswith "ERROR" text) && negb (Py.startswith "NO_CONTENT" text)
    then Py.len text else 0 in
  quiet_step (GEMINI_API_KEY E) w w' /\
  forall d, r = inr d ->
    title d = Some (Feed.title a) /\
    source d = Some (Feed.source a) /\
    Article.url d = Some url /\
    full_article d = Some text /\
    article_length d = Some n /\
    exists name,
      company_name d = Some name /\
      (Py.nonempty name = true -> MIN_ARTICLE_LENGTH < n) /\
      (Llm.key_present (GEMINI_API_KEY E) = false -> name = "").
Proof.
  unfold scrape_url. cbv zeta.
  set (text := scrape_article_content E url).
  set (n := if negb (Py.startswith "ERROR" text) && negb (Py.startswith "NO_CONTENT" text)
            then Py.len text else 0).
  unfold bind at 1. unfold lift.
  destruct (netloc E url) as [e|host]; cbn [bindE].
  { intros [= <- <-]. split; [apply quiet_step_refl|discriminate]. }
  unfold bind.
  destruct (named_company text (Feed.title a) n w) as (name & w1 & -> & Hq & Hlen & Hkey).
  unfold ret. intros [= <- <-]. split; [exact Hq|].
  intros d [= <-]. cbn [title source Article.url full_article article_length company_name].
  repeat (split; [reflexivity|]). exists name. auto.
Qed.

Lemma scrape_url_quiet a i url_idx url w r w' :
  scrape_url E a i url_idx url w = (r, w') -> quiet_step (GEMINI_API_KEY E) w w'.
Proof. intros H. apply (scrape_url_inv _ _ _ _ _ _ _ H). Qed.

Lemma scrape_url_consistent a i url_idx url w d w' :
  scrape_url E a i url_idx url w = (inr d, w') -> consistent d.
Proof.
  intros H. destruct (scrape_url_inv _ _ _ _ _ _ _ H) as [_ Hd].
  destruct (Hd d eq_refl) as (_ & _ & _ & Htext & Hn & name & Hname & Hlen & _).
  unfold consistent, Summarizer.is_sentinel. rewrite Htext, Hn, Hname.
  cbn [get]. clear Htext Hn Hname Hd H.
  set (text := scrape_article_content E url) in *.
  destruct (Py.startswith "ERROR" text); cbn [negb andb orb] in *.
  { split; [intros Hne; specialize (Hlen Hne); unfold MIN_ARTICLE_LENGTH in Hlen; lia|].
    split; [|discriminate]. intros _. split; [reflexivity|].
    destruct name as [|c name]; [reflexivity|].
    specialize (Hlen eq_refl). unfold MIN_ARTICLE_LENGTH in Hlen. lia. }
  destruct (Py.startswith "NO_CONTENT" text); cbn [negb andb orb] in *.
  { split; [intros Hne; specialize (Hlen Hne); unfold MIN_ARTICLE_LENGTH in Hlen; lia|].
    split; [|discriminate]. intros _. split; [reflexivity|].
    destruct name as [|c name]; [reflexivity|].
    specialize (Hlen eq_refl). unfold MIN_ARTICLE_LENGTH in Hlen. lia. }
  split; [exact Hlen|]. split; [discriminate|reflexivity].
Qed.

Lemma scrape_url_unnamed a i url_idx url w d w' :
  Llm.key_present (GEMINI_API_KEY E) = false ->
  scrape_url E a i url_idx url w = (inr d, w') -> unnamed d.
Proof.
  intros Hkey H. destruct (scrape_url_inv _ _ _ _ _ _ _ H) as [_ Hd].
  destruct (Hd d eq_refl) as (_ & _ & _ & _ & _ & name & Hname & _ & Hk).
  unfold unnamed. now rewrite Hname, (Hk Hkey).
Qed.

Section Every.

(** What every dict of [scrape_url] satisfies, every dict of the scrape
    does. *)
Variable P : article -> Prop.

Hypothesis scrape_url_P :
  forall a i url_idx url w d w',
    scrape_url E a i url_idx url w = (inr d, w') -> P d.

Lemma scrape_urls_spec a i story_urls :
  forall url_idx acc w r w',
    scrape_urls E a i url_idx story_urls acc w = (r, w') ->
    quiet_step (GEMINI_API_KEY E) w w' /\
    forall out, r = inr out ->
      exists added,
        out = acc ++ added /\
        length added = length story_urls /\
        Forall P added.
Proof.
  induction story_urls as [|u rest IH]; intros url_idx acc w r w'; simpl.
  - intros [= <- <-]. split; [apply quiet_step_refl|].
    intros out [= <-]. exists []. rewrite app_nil_r.
    split; [reflexivity|]. split; [reflexivity|constructor].
  - unfold bind at 1.
    destruct (scrape_url E a i url_idx u w) as [[e|d] w1] eqn:Hone.
    + intros [= <- <-]. split; [exact (scrape_url_quiet _ _ _ _ _ _ _ Hone)|].
      discriminate.
    + intros Hrest. destruct (IH _ _ _ _ _ Hrest) as [Hq Hout].
      split; [exact (quiet_step_trans _ _ _ _
                       (scrape_url_quiet _ _ _ _ _ _ _ Hone) Hq)|].
      intros out Hr. destruct (Hout out Hr) as (added & -> & Hlen & Hall).
      exists (d :: added). rewrite <- app_assoc. split; [reflexivity|].
      split; [simpl; lia|]. constructor; [|exact Hall].
      exact (scrape_url_P _ _ _ _ _ _ _ Hone).
Qed.

Lemma scrape_stories_spec articles :
  forall i acc w r w',
    scrape_stories E articles i acc w = (r, w') ->
    quiet_step (GEMINI_API_KEY E) w w' /\
    forall out, r = inr out ->
      exists added,
        out = acc ++ added /\
        (length added <= length articles)%nat /\
        Forall P added.
Proof.
  induction articles as [|a articles IH]; intros i acc w r w'; simpl.
  - intros [= <- <-]. split; [apply quiet_step_refl|].
    intros out [= <-]. exists []. rewrite app_nil_r.
    split; [reflexivity|]. split; [simpl; lia|constructor].
  - assert (Hskip :
      scrape_stories E articles (i + 1) acc w = (r, w') ->
      quiet_step (GEMINI_API_KEY E) w w' /\
      forall out, r = inr out ->
        exists added,
          out = acc ++ added /\
          (length added <= S (length articles))%nat /\
          Forall P added).
    { intros Hrest. destruct (IH _ _ _ _ _ Hrest) as [Hq Hout].
      split; [exact Hq|]. intros out Hr.
      destruct (Hout out Hr) as (added & -> & Hlen & Hall).
      exists added. split; [reflexivity|]. split; [lia|exact Hall]. }
    assert (Hstep : forall story_urls, (length story_urls <= 1)%nat ->
      (bind (scrape_urls E a i 1 story_urls acc)
         (fun acc0 => scrape_stories E articles (i + 1) acc0)) w = (r, w') ->
      quiet_step (GEMINI_API_KEY E) w w' /\
      forall out, r = inr out ->
        exists added,
          out = acc ++ added /\
          (length added <= S (length articles))%nat /\
          Forall P added).
    { intros story_urls Hone. unfold bind.
      destruct (scrape_urls E a i 1 story_urls acc w) as [[e|acc1] w1] eqn:Hurls;
        destruct (scrape_urls_spec _ _ _ _ _ _ _ _ Hurls) as [Hq1 Hout1].
      - intros [= <- <-]. split; [exact Hq1|discriminate].
      - destruct (Hout1 acc1 eq_refl) as (o1 & -> & Hl1 & Ha1).
        intros Hrest. destruct (IH _ _ _ _ _ Hrest) as [Hq2 Hout2].
        split; [exact (quiet_step_trans _ _ _ _ Hq1 Hq2)|].
        intros out Hr. destruct (Hout2 out Hr) as (o2 & -> & Hl2 & Ha2).
        exists (o1 ++ o2). rewrite <- app_assoc. split; [reflexivity|].
        split; [rewrite length_app; lia|]. apply Forall_app. auto. }
    destruct (Py.contains "news.google.com" (Feed.link a)).
    + unfold get_story_url.
      destruct (page_url_after_goto E (Feed.link a)) as [e|u]; [exact Hskip|].
      destruct (Py.nonempty u); [|exact Hskip].
      exact (Hstep [u] (le_n 1)).
    + exact (Hstep [Feed.link a] (le_n 1)).
Qed.

Lemma scrape_all_articles_spec articles w r w' :
  scrape_all_articles E articles w = (r, w') ->
  quiet_step (GEMINI_API_KEY E) w w' /\
  forall scraped, r = inr scraped ->
    (length scraped <= length articles)%nat /\ Forall P scraped.
Proof.
  unfold scrape_all_articles. destruct articles as [|a articles].
  - intros [= <- <-]. split; [apply quiet_step_refl|].
    intros scraped [= <-]. split; [simpl; lia|constructor].
  - unfold bind at 1. unfold lift at 1.
    destruct (browser_start E) as [e|[]].
    { intros [= <- <-]. split; [apply quiet_step_refl|discriminate]. }
    unfold bind at 1.
    destruct (scrape_stories E (a :: articles) 1 [] w) as [[e|out] w1] eqn:Hrun;
      destruct (scrape_stories_spec _ _ _ _ _ _ Hrun) as [Hq Hout].
    { intros [= <- <-]. split; [exact Hq|discriminate]. }
    unfold bind, lift, ret. destruct (browser_close E) as [e|[]].
    { intros [= <- <-]. split; [exact Hq|discriminate]. }
    intros [= <- <-]. split; [exact Hq|].
    intros scraped [= <-].
    destruct (Hout out eq_refl) as (added & Heq & Hlen & Hall).
    simpl app in Heq. subst added. auto.
Qed.

End Every.

(** Whatever the scrape ends in, it is a quiet step. *)
Lemma scrape_all_articles_quiet articles w r w' :
  scrape_all_articles E articles w = (r, w') ->
  quiet_step (GEMINI_API_KEY E) w w'.
Proof.
  intros H.
  apply (scrape_all_articles_spec (fun _ => True) (fun _ _ _ _ _ _ _ _ => I)
           _ _ _ _ H).
Qed.

(** What is left of a stripped text starts with a non-blank character. *)
Lemma lstrip_head l :
  forall c t, Py.lstrip_list l = c :: t -> Py.is_space c = false.
Proof.
  induction l as [|d l IH]; intros c t; simpl; [discriminate|].
  destruct (Py.is_space d) eqn:Hd; [apply IH|].
  intros [= <- _]. exact Hd.
Qed.

Lemma lstrip_suffix l : exists pre, l = pre ++ Py.lstrip_list l.
Proof.
  induction l as [|d l [pre IH]]; simpl; [now exists []|].
  destruct (Py.is_space d); [|now exists []].
  exists (d :: pre). simpl. now rewrite <- IH.
Qed.

Lemma strip_head s c t :
  Py.strip s = String c t -> Py.is_space c = false.
Proof.
  unfold Py.strip. set (l1 := Py.lstrip_list (list_ascii_of_string s)).
  destruct (lstrip_suffix (rev l1)) as [pre Hpre].
  set (l2 := Py.lstrip_list (rev l1)) in *.
  intros Hs.
  assert (Hl1 : l1 = rev l2 ++ rev pre).
  { rewrite <- rev_app_distr, <- Hpre. now rewrite rev_involutive. }
  destruct (rev l2) as [|x xs] eqn:Hr; [discriminate|].
  simpl in Hs. injection Hs as -> _.
  apply (lstrip_head (list_ascii_of_string s) c (xs ++ rev pre)).
  exact Hl1.
Qed.

(** [scrape_article_content] never returns the empty string. *)
Lemma scrape_article_content_nonempty url :
  Py.nonempty (scrape_article_content E url) = true.
Proof.
  unfold scrape_article_content.
  destruct (page_paragraphs E url) as [e|paragraphs]; [reflexivity|].
  cbv zeta. unfold long_paragraphs.
  destruct (List.filter _ _) as [|p1 rest] eqn:Hf; [reflexivity|].
  assert (Hin : In p1 (List.filter (fun p => 30 <? Py.len p) (map Py.strip paragraphs)))
    by (rewrite Hf; now left).
  apply filter_In in Hin as [Hin Hlen].
  apply in_map_iff in Hin as (x & Hx & _).
  destruct p1 as [|c s]; [discriminate|].
  pose proof (strip_head x c s Hx) as Hc.
  assert (Htext : exists s', Py.join " " (String c s :: rest) = String c s').
  { unfold Py.join. destruct rest; simpl; eauto. }
  destruct Htext as [s' ->]. cbn [Py.nonempty].
  now apply FormatMore.strip_nonempty.
Qed.

Lemma scrape_url_zero_iff_marker_prefix a i url_idx url w d w' :
  scrape_url E a i url_idx url w = (inr d, w') -> zero_iff_marker_prefix d.
Proof.
  intros H. destruct (scrape_url_inv _ _ _ _ _ _ _ H) as [_ Hd].
  destruct (Hd d eq_refl) as (_ & _ & _ & Htext & Hn & _).
  unfold zero_iff_marker_prefix. rewrite Htext, Hn. cbn [get].
  pose proof (scrape_article_content_nonempty url) as Hne.
  clear Htext Hn Hd H.
  set (text := scrape_article_content E url) in *.
  split; [exact Hne|].
  destruct (Py.startswith "ERROR" text); cbn [negb andb]; [tauto|].
  destruct (Py.startswith "NO_CONTENT" text); cbn [negb andb]; [tauto|].
  split; [|intros [Hf|Hf]; discriminate]. intros [= Hzero]. exfalso.
  destruct text; [discriminate|]. unfold Py.len in Hzero. simpl in Hzero. lia.
Qed.

(** With no webhook URL the later stages post nothing, whether they
    return or raise. *)
Lemma process_scraped_quiet scraped w r w' :
  Notifier.configured (SLACK_URL E) = None ->
  process_scraped E scraped w = (r, w') ->
  webhook_calls w' = webhook_calls w.
Proof.
  intros Hurl. unfold process_scraped.
  destruct (group_by_company scraped) as [|g groups]; [now intros [= <- <-]|].
  unfold bind at 1. unfold lift.
  destruct (attach_matches E (g :: groups) []) as [e|with_isin];
    [now intros [= <- <-]|].
  destruct with_isin as [|x xs]; [now intros [= <- <-]|].
  unfold bind at 1. unfold Driver.summarize_multiple_articles,
    Summarizer.summarize_multiple_articles.
  destruct (Summarizer.summarize_loop _ _ _ _ _ (x :: xs) [] w) as [[e|out] w1] eqn:Hsum;
    apply SummarizerMore.summarize_loop_footprint in Hsum as [Hw1 _].
  { intros [= <- <-]. exact Hw1. }
  destruct out as [|o out]; [intros [= <- <-]; exact Hw1|].
  unfold bind at 1.
  destruct (print_summary_results (o :: out)) as [e|[]]; simpl.
  { intros [= <- <-]. exact Hw1. }
  destruct (slack_messages_of E (o :: out)) as [|m ms];
    [intros [= <- <-]; exact Hw1|].
  unfold Driver.send_slack_message, Notifier.send_slack_message. rewrite Hurl.
  intros [= <- <-]. simpl. exact Hw1.
Qed.

Lemma main_quiet (p : poll) (processed : gset Feed.article_id) (w : world) r w' :
  Notifier.configured (SLACK_URL E) = None ->
  main E p processed w = (r, w') ->
  webhook_calls w' = webhook_calls w.
Proof.
  intros Hurl. unfold main.
  destruct (Feed.fetch_business_news_rss _ _ _ _) as [|a articles];
    [now intros [= <- <-]|].
  unfold bind at 1.
  destruct (scrape_all_articles E (a :: articles) w) as [[e|scraped] w1] eqn:Hscrape;
    destruct (scrape_all_articles_quiet _ _ _ _ Hscrape) as (Hw1 & _).
  { intros [= <- <-]. exact Hw1. }
  destruct scraped as [|d scraped]; [intros [= <- <-]; exact Hw1|].
  unfold bind at 1.
  destruct (process_scraped E (d :: scraped) w1) as [[e|[]] w2] eqn:Hrest;
    apply (process_scraped_quiet _ _ _ _ Hurl) in Hrest;
    intros [= <- <-]; congruence.
Qed.

Lemma iteration_quiet (p : poll) (processed : gset Feed.article_id) w r w' :
  Notifier.configured (SLACK_URL E) = None ->
  iteration E p processed w = (r, w') ->
  webhook_calls w' = webhook_calls w.
Proof.
  intros Hurl. unfold iteration, try_except, bind, ret.
  destruct (main E p processed w) as [[e|l] w1] eqn:Hmain;
    apply (main_quiet _ _ _ _ _ Hurl) in Hmain; intros [= <- <-]; exact Hmain.
Qed.

(** No company named anywhere: nothing to group. *)
Lemma group_unnamed scraped :
  Forall unnamed scraped -> group_by_company scraped = [].
Proof.
  unfold group_by_company. intros Hall.
  generalize (@nil (string * list article)).
  induction Hall as [|d scraped Hd Hall IH]; intros groups; simpl; [reflexivity|].
  unfold unnamed in Hd. rewrite Hd. simpl. apply IH.
Qed.

(** What [main] can return: nothing, or the articles the fetcher gave. *)
Lemma main_returns (p : poll) (processed : gset Feed.article_id) w l w' :
  main E p processed w = (inr l, w') ->
  l = [] \/
  l = Feed.fetch_business_news_rss (parse_date E) processed (current_time p)
        (response p).
Proof.
  unfold main.
  destruct (Feed.fetch_business_news_rss _ _ _ _) as [|a articles];
    [intros [= <- <-]; now left|].
  unfold bind at 1.
  destruct (scrape_all_articles E (a :: articles) w) as [[e|scraped] w1];
    [discriminate|].
  destruct scraped as [|d scraped]; [intros [= <- <-]; now left|].
  unfold bind at 1.
  destruct (process_scraped E (d :: scraped) w1) as [[e|[]] w2]; [discriminate|].
  intros [= <- <-]. now right.
Qed.

(** What an iteration ends in, given how the scrape and the later stages
    went. *)
Lemma iteration_after_scrape (p : poll) (processed : gset Feed.article_id)
    (w w1 w2 : world) (scraped : list article) :
  let articles :=
    Feed.fetch_business_news_rss (parse_date E) processed (current_time p)
      (response p) in
  scrape_all_articles E articles w = (inr scraped, w1) ->
  process_scraped E scraped w1 = (inr tt, w2) ->
  iteration E p processed w =
    match scraped with
    | [] => (inr processed, w1)
    | _ => (inr (mark processed articles), w2)
    end.
Proof.
  intros articles Hscrape Hrest.
  unfold iteration, try_except, main. fold articles.
  destruct articles as [|a articles'] eqn:Hart.
  - simpl in Hscrape. injection Hscrape as <- <-. reflexivity.
  - unfold bind at 1 2. rewrite Hscrape.
    destruct scraped as [|d scraped']; [reflexivity|].
    unfold bind. rewrite Hrest. reflexivity.
Qed.

(** One pass of the loop: it returns, the set grows, by keys of the polled
    feed only, and without a webhook URL nothing is posted. *)
Lemma iteration_spec (p : poll) (processed : gset Feed.article_id) (w : world) :
  exists (processed' : gset Feed.article_id) (w' : world),
    iteration E p processed w = (inr processed', w') /\
    processed ⊆ processed' /\
    (forall k, k ∈ processed' -> k ∈ processed \/ In k (feed_keys [p])) /\
    (Notifier.configured (SLACK_URL E) = None ->
     webhook_calls w' = webhook_calls w).
Proof.
  destruct (iteration E p processed w) as [r w'] eqn:Hit.
  assert (Hquiet : Notifier.configured (SLACK_URL E) = None ->
                   webhook_calls w' = webhook_calls w).
  { intros Hurl. exact (iteration_quiet p processed w r w' Hurl Hit). }
  revert Hit. unfold iteration, try_except, bind, ret.
  destruct (main E p processed w) as [[e|l] w1] eqn:Hmain; intros [= <- <-].
  - exists processed, w1. split; [reflexivity|]. split; [set_solver|]. auto.
  - exists (mark processed l), w1. split; [reflexivity|].
    split; [apply DriverFacts.mark_grows|]. split; [|exact Hquiet].
    intros k Hk. apply DriverFacts.mark_spec in Hk as [Hk|(a & Ha & <-)]; [now left|].
    right. destruct (main_returns p processed w l w1 Hmain) as [->| ->];
      [inversion Ha|].
    apply FeedMore.fetch_ids_from_feed in Ha as (items & item & Hresp & Hin & ->).
    unfold feed_keys. simpl. rewrite Hresp, app_nil_r. now apply in_map.
Qed.

Lemma run_spec (polls : list poll) :
  forall (processed : gset Feed.article_id) (w : world),
    exists (processed' : gset Feed.article_id) (w' : world),
      run E polls processed w = (inr processed', w') /\
      processed ⊆ processed' /\
      (forall k, k ∈ processed' -> k ∈ processed \/ In k (feed_keys polls)) /\
      (Notifier.configured (SLACK_URL E) = None ->
       webhook_calls w' = webhook_calls w).
Proof.
  induction polls as [|p polls IH]; intros processed w; simpl run.
  - exists processed, w. split; [reflexivity|]. split; [set_solver|]. auto.
  - unfold bind.
    destruct (iteration_spec p processed w) as (P1 & w1 & -> & Hs1 & Hk1 & Hq1).
    destruct (IH P1 w1) as (P2 & w2 & -> & Hs2 & Hk2 & Hq2).
    exists P2, w2. split; [reflexivity|]. split; [set_solver|].
    split; [|intros Hurl; rewrite (Hq2 Hurl); auto].
    intros k Hk.
    replace (feed_keys (p :: polls)) with (feed_keys [p] ++ feed_keys polls)
      by (unfold feed_keys; simpl; now rewrite app_nil_r).
    rewrite in_app_iff.
    destruct (Hk2 k Hk) as [H|H]; [|auto]. destruct (Hk1 k H); auto.
Qed.

(** Links the browser cannot follow give no dict. *)
Lemma scrape_stories_unresolved articles :
  forallb (unresolved E) articles = true ->
  forall i acc w, scrape_stories E articles i acc w = (inr acc, w).
Proof.
  induction articles as [|a articles IH]; intros Hall i acc w; simpl in *;
    [reflexivity|].
  apply andb_true_iff in Hall as [Ha Hall]. unfold unresolved in Ha.
  apply andb_true_iff in Ha as [-> Hnone].
  destruct (get_story_url E (Feed.link a)); [discriminate|]. now apply IH.
Qed.

End WithExternals.

(** An address [urlparse] cannot read ends the scrape in [ValueError], after
    the page was fetched; the driver's handler then leaves the set as it
    was. *)
Example malformed_address_ends_the_scrape :
  fst (scrape_all_articles Fixtures.malformed_externals [toy_article] empty_world)
    = inl ValueError /\
  fst (iteration Fixtures.malformed_externals toy_poll ∅ empty_world) = inr ∅.
Proof. split; vm_compute; reflexivity. Qed.

(** X18.  When [scrape_all_articles] returns, it returns at most one dict
    per feed article, and every dict is consistent: a company is named only
    for a text longer than 200 characters, and a text that begins with ERROR
    or NO_CONTENT is recorded with length 0 and no company.  The scrape
    posts nothing to the webhook. *)
Theorem scrape_returns_consistent_dicts
    (E : externals) (articles : list Feed.article) (w w' : world)
    (scraped : list article) :
  scrape_all_articles E articles w = (inr scraped, w') ->
  (length scraped <= length articles)%nat /\
  Forall consistent scraped /\
  webhook_calls w' = webhook_calls w.
Proof.
  intros Hrun.
  destruct (scrape_all_articles_spec E consistent (scrape_url_consistent E)
              _ _ _ _ Hrun) as [(Hw & _) Hout].
  destruct (Hout scraped eq_refl) as [Hlen Hall]. auto.
Qed.

Lemma scrape_returns_consistent_dicts_witness :
  let run := scrape_all_articles (toy_externals Notifier.ok_post) [toy_article]
               empty_world in
  exists d,
    fst run = inr [d] /\
    Forall consistent [d] /\
    webhook_calls (snd run) = webhook_calls empty_world.
Proof.
  intros run.
  pose (scraped := match fst run with inr l => l | inl _ => [] end).
  destruct (scrape_returns_consistent_dicts (toy_externals Notifier.ok_post)
              [toy_article] empty_world (snd run) scraped)
    as (_ & Hall & Hw).
  - vm_compute. reflexivity.
  - assert (Hd : exists d, fst run = inr [d] /\ scraped = [d])
      by (eexists; split; vm_compute; reflexivity).
    destruct Hd as (d & Hrun & Heq). exists d. rewrite Heq in Hall. auto.
Defined.

(** X28.  In every dict a scrape returns, the text is not empty, and the
    recorded length is 0 exactly when the text begins with ERROR or
    NO_CONTENT.  That is the marker of a failed scrape, and equally the text
    of a page that itself begins with those letters. *)
Theorem zero_length_exactly_for_marker_prefix
    (E : externals) (articles : list Feed.article) (w w' : world)
    (scraped : list article) :
  scrape_all_articles E articles w = (inr scraped, w') ->
  Forall zero_iff_marker_prefix scraped.
Proof.
  intros Hrun.
  destruct (scrape_all_articles_spec E zero_iff_marker_prefix
              (scrape_url_zero_iff_marker_prefix E) _ _ _ _ Hrun) as [_ Hout].
  apply (Hout scraped eq_refl).
Qed.

Lemma zero_length_exactly_for_marker_prefix_witness :
  let run := scrape_all_articles Fixtures.errors_externals [toy_article]
               empty_world in
  exists d,
    fst run = inr [d] /\
    full_article d = Some (hd "" errors_page) /\
    article_length d = Some 0 /\
    zero_iff_marker_prefix d.
Proof.
  intros run.
  pose (scraped := match fst run with inr l => l | inl _ => [] end).
  assert (Hall : Forall zero_iff_marker_prefix scraped).
  { apply (zero_length_exactly_for_marker_prefix Fixtures.errors_externals
             [toy_article] empty_world (snd run)).
    vm_compute. reflexivity. }
  assert (Hd : exists d, fst run = inr [d] /\ scraped = [d] /\
                         full_article d = Some (hd "" errors_page) /\
                         article_length d = Some 0)
    by (eexists; repeat split; vm_compute; reflexivity).
  destruct Hd as (d & Hrun & Heq & Htext & Hlen). exists d.
  rewrite Heq in Hall. repeat (split; [assumption|]).
  now inversion Hall.
Defined.

(** X19.  With no webhook URL in the environment the driver loop posts
    nothing, however many polls it runs and whatever they deliver. *)
Theorem loop_without_webhook_url_posts_nothing
    (E : externals) (polls : list poll) (processed : gset Feed.article_id)
    (w : world) :
  Notifier.configured (SLACK_URL E) = None ->
  exists (processed' : gset Feed.article_id) (w' : world),
    run E polls processed w = (inr processed', w') /\
    webhook_calls w' = webhook_calls w.
Proof.
  intros Hurl.
  destruct (run_spec E polls processed w) as (P' & w' & Hrun & _ & _ & Hq).
  exists P', w'. auto.
Qed.

Lemma loop_without_webhook_url_posts_nothing_witness :
  exists (processed' : gset Feed.article_id) (w' : world),
    run Fixtures.silent_externals [toy_poll; toy_poll_again] ∅ empty_world
      = (inr processed', w') /\
    webhook_calls w' = webhook_calls empty_world.
Proof.
  apply (loop_without_webhook_url_posts_nothing Fixtures.silent_externals
           [toy_poll; toy_poll_again] ∅ empty_world).
  reflexivity.
Defined.

(** X20.  Without an API key, an iteration whose scrape returns has asked
    the model nothing and posted nothing, and no scraped dict names a
    company, so nothing is matched, summarized or sent; all the same, once
    at least one page was scraped, every fetched article is marked as
    processed. *)
Theorem iteration_without_api_key_marks_unsummarized_articles
    (E : externals) (p : poll) (processed : gset Feed.article_id)
    (w w1 : world) (scraped : list article) :
  Llm.key_present (GEMINI_API_KEY E) = false ->
  let articles :=
    Feed.fetch_business_news_rss (parse_date E) processed (current_time p)
      (response p) in
  scrape_all_articles E articles w = (inr scraped, w1) ->
  w1 = w /\
  Forall unnamed scraped /\
  iteration E p processed w =
    (inr (match scraped with
          | [] => processed
          | _ => mark processed articles
          end), w).
Proof.
  intros Hkey articles Hrun.
  destruct (scrape_all_articles_spec E unnamed
              (fun a i url_idx u w0 d w0' => scrape_url_unnamed E a i url_idx u w0 d w0' Hkey)
              _ _ _ _ Hrun) as [(_ & _ & Hw) Hout].
  destruct (Hout scraped eq_refl) as [_ Hun].
  pose proof (Hw Hkey) as Hw1. subst w1.
  split; [reflexivity|]. split; [exact Hun|].
  assert (Hrest : process_scraped E scraped w = (inr tt, w))
    by (unfold process_scraped; now rewrite (group_unnamed _ Hun)).
  rewrite (iteration_after_scrape E p processed w w w scraped Hrun Hrest).
  now destruct scraped.
Qed.

Lemma iteration_without_api_key_marks_unsummarized_articles_witness :
  iteration Fixtures.unconfigured_externals toy_poll ∅ empty_world
  = (inr (mark ∅ [toy_article]), empty_world).
Proof.
  pose (E := Fixtures.unconfigured_externals).
  pose (articles := Feed.fetch_business_news_rss (parse_date E) ∅
                      (current_time toy_poll) (response toy_poll)).
  pose (scrape_run := scrape_all_articles E articles empty_world).
  pose (scraped := match fst scrape_run with inr l => l | inl _ => [] end).
  destruct (iteration_without_api_key_marks_unsummarized_articles
              E toy_poll ∅ empty_world (snd scrape_run) scraped)
    as (_ & _ & Hit).
  - reflexivity.
  - vm_compute. reflexivity.
  - fold E. rewrite Hit.
    assert (Hs : exists d, scraped = [d]) by (eexists; vm_compute; reflexivity).
    destruct Hs as [d ->]. reflexivity.
Defined.

(** X21.  The driver loop never ends in an exception; the processed set
    only grows, and every key it gains is the (title, source) key of an
    item of a polled feed. *)
Theorem loop_never_raises_and_marks_only_feed_keys
    (E : externals) (polls : list poll) (processed : gset Feed.article_id)
    (w : world) :
  exists (processed' : gset Feed.article_id) (w' : world),
    run E polls processed w = (inr processed', w') /\
    processed ⊆ processed' /\
    (forall k, k ∈ processed' -> k ∈ processed \/ In k (feed_keys polls)).
Proof.
  destruct (run_spec E polls processed w) as (P' & w' & Hrun & Hsub & Hk & _).
  exists P', w'. auto.
Qed.

(** X22.  After an iteration that scraped something and ended without an
    exception, a second poll that delivers the same feed finds nothing new:
    the loop ends with the set the first iteration left and in the same
    world - no further model call, no further post. *)
Theorem unchanged_feed_is_processed_once
    (E : externals) (p p' : poll) (processed : gset Feed.article_id)
    (w w1 w2 : world) (scraped : list Article.article) :
  let articles :=
    Feed.fetch_business_news_rss (parse_date E) processed (current_time p)
      (response p) in
  scrape_all_articles E articles w = (inr scraped, w1) ->
  scraped <> [] ->
  process_scraped E scraped w1 = (inr tt, w2) ->
  response p' = response p ->
  current_time p <= current_time p' ->
  run E [p; p'] processed w = (inr (mark processed articles), w2).
Proof.
  intros articles Hscrape Hne Hrest Hresp Hlater.
  pose proof (DriverFacts.main_returns_fetched E p processed w scraped w1 w2
                Hscrape Hne Hrest) as Hmain.
  fold articles in Hmain.
  simpl run. unfold bind at 1. unfold iteration at 1.
  unfold try_except, bind at 1. rewrite Hmain. unfold ret at 1 2.
  unfold bind at 1. unfold iteration, try_except, bind, main.
  rewrite Hresp. unfold articles.
  rewrite (FeedMore.refetch_after_mark (parse_date E) processed (current_time p)
             (current_time p') (response p) Hlater).
  reflexivity.
Qed.

Lemma unchanged_feed_is_processed_once_witness :
  run (toy_externals Notifier.ok_post) [toy_poll; toy_poll_again] ∅ empty_world
  = (inr (mark ∅ [toy_article]),
     snd (iteration (toy_externals Notifier.ok_post) toy_poll ∅ empty_world)).
Proof.
  pose (E := toy_externals Notifier.ok_post).
  pose (articles := Feed.fetch_business_news_rss (parse_date E) ∅
                      (current_time toy_poll) (response toy_poll)).
  pose (scrape_run := scrape_all_articles E articles empty_world).
  pose (scraped := match fst scrape_run with inr l => l | inl _ => [] end).
  pose (rest_run := process_scraped E scraped (snd scrape_run)).
  rewrite (unchanged_feed_is_processed_once E toy_poll toy_poll_again ∅ empty_world
             (snd scrape_run) (snd rest_run) scraped).
  - vm_compute. reflexivity.
  - vm_compute. reflexivity.
  - vm_compute. discriminate.
  - vm_compute. reflexivity.
  - reflexivity.
  - vm_compute. discriminate.
Defined.

(** X23.  When every fetched link points to Google News and the browser
    gets past none of them, the iteration changes nothing: no dict, no model
    call, no post, and no article is marked - the next poll meets the same
    articles again. *)
Theorem unresolved_links_leave_feed_unmarked
    (E : externals) (p : poll) (processed : gset Feed.article_id) (w : world) :
  forallb (unresolved E)
    (Feed.fetch_business_news_rss (parse_date E) processed (current_time p)
       (response p)) = true ->
  iteration E p processed w = (inr processed, w).
Proof.
  intros Hall. unfold iteration, try_except, main.
  destruct (Feed.fetch_business_news_rss _ _ _ _) as [|a articles];
    [reflexivity|].
  unfold bind, scrape_all_articles, lift, ret.
  destruct (browser_start E) as [e|[]]; [reflexivity|].
  unfold bind. rewrite (scrape_stories_unresolved E (a :: articles) Hall).
  destruct (browser_close E) as [e|[]]; reflexivity.
Qed.

Lemma unresolved_links_leave_feed_unmarked_witness :
  Feed.fetch_business_news_rss (parse_date Fixtures.offline_externals) ∅
    (current_time toy_poll) (response toy_poll) = [toy_article] /\
  iteration Fixtures.offline_externals toy_poll ∅ empty_world
    = (inr ∅, empty_world).
Proof.
  split; [vm_compute; reflexivity|].
  apply (unresolved_links_leave_feed_unmarked Fixtures.offline_externals toy_poll
           ∅ empty_world).
  vm_compute. reflexivity.
Defined.

End DriverMore.

(** ** The stages after the scrape: when no exception can leave them *)

Module PipelineMore.
Import Article Driver LoopCheck.

Section WithExternals.

Variable E : externals.

Hypothesis typed_answers : answers_typed E.

Lemma summarize_article_data_typed article_text article_title company w :
  exists s w',
    Summarizer.summarize_article_data (GEMINI_API_KEY E) (generate_content E)
      (json_loads E) (summary_role E) (summary_task E)
      article_text article_title company w = (inr s, w') /\
    typed_summary s = true.
Proof.
  unfold Summarizer.summarize_article_data.
  destruct (Llm.key_present (GEMINI_API_KEY E)); simpl;
    [|eexists _, _; split; reflexivity].
  unfold try_except, bind, lift, ret, raise, Llm.ask. simpl.
  destruct (generate_content E (llm_calls w) _) as [e|response] eqn:Hask; simpl;
    [eexists _, _; split; reflexivity|].
  destruct (Llm.json_str_of (Py.strip response)) as [e|json_str] eqn:Hcut; simpl;
    [eexists _, _; split; reflexivity|].
  destruct (json_loads E json_str) as [e|result] eqn:Hloads; simpl;
    [eexists _, _; split; reflexivity|].
  apply (typed_answers _ _ _ _ _ Hask Hcut) in Hloads.
  destruct result; simpl; try (eexists _, _; split; reflexivity).
  eexists _, _. split; [reflexivity|]. exact Hloads.
Qed.

Lemma show_preview_typed s :
  typed_summary s = true -> Summarizer.show_preview s = inr tt.
Proof.
  unfold typed_summary, Summarizer.show_preview.
  destruct (summary s); try discriminate.
  destruct (numeric_data s) as [| | | |items|]; try discriminate.
  intros _. simpl. now destruct items.
Qed.

Lemma summarize_loop_typed articles :
  forall acc w,
    forallb typed_article acc = true ->
    exists out w',
      Summarizer.summarize_loop (GEMINI_API_KEY E) (generate_content E)
        (json_loads E) (summary_role E) (summary_task E) articles acc w
        = (inr out, w') /\
      forallb typed_article out = true.
Proof.
  induction articles as [|a articles IH]; intros acc w Hacc; simpl.
  - exists acc, w. auto.
  - unfold bind at 1. unfold Summarizer.summarize_one.
    destruct (get (article_length a) 0 <? Summarizer.min_length);
      [exact (IH acc w Hacc)|].
    destruct (Summarizer.is_sentinel _); [exact (IH acc w Hacc)|].
    unfold bind at 1.
    destruct (summarize_article_data_typed (get (full_article a) "")
                (get (title a) "") (get (company_name a) "") w)
      as (s & w1 & -> & Hs).
    unfold bind, lift, ret. rewrite (show_preview_typed s Hs).
    apply IH. rewrite forallb_app, Hacc. simpl.
    unfold typed_article. simpl. now rewrite Hs.
Qed.

Lemma show_article_typed a :
  typed_article a = true -> show_article a = inr tt.
Proof.
  unfold typed_article, typed_summary, show_article.
  destruct (summary_of a) as [s|]; [|reflexivity].
  destruct (summary s); try discriminate.
  destruct (numeric_data s) as [| | | |items|]; try discriminate.
  intros _. simpl. now destruct items.
Qed.

Lemma count_points_typed a :
  typed_article a = true -> exists n, count_points a = inr n.
Proof.
  unfold typed_article, typed_summary, count_points.
  destruct (summary_of a) as [s|]; [|eauto].
  destruct (summary s); try discriminate.
  destruct (numeric_data s); try discriminate. simpl. eauto.
Qed.

Lemma each_show_article_typed l :
  forallb typed_article l = true -> each show_article l = inr tt.
Proof.
  induction l as [|a l IH]; simpl; [reflexivity|].
  intros H. apply andb_true_iff in H as [Ha Hl].
  rewrite (show_article_typed a Ha). simpl. auto.
Qed.

Lemma each_count_points_typed l :
  forallb typed_article l = true ->
  each (fun a => bindE (count_points a) (fun _ => inr tt)) l = inr tt.
Proof.
  induction l as [|a l IH]; simpl; [reflexivity|].
  intros H. apply andb_true_iff in H as [Ha Hl].
  destruct (count_points_typed a Ha) as [n ->]. simpl. auto.
Qed.

Lemma print_summary_results_typed l :
  forallb typed_article l = true -> print_summary_results l = inr tt.
Proof.
  intros Hall. unfold print_summary_results. destruct l as [|a0 l0]; [reflexivity|].
  rewrite (each_show_article_typed _ Hall). simpl bindE.
  exact (each_count_points_typed _ Hall).
Qed.

Lemma attach_matches_returns groups :
  forall acc, exists out, attach_matches E groups acc = inr out.
Proof.
  induction groups as [|[company l] groups IH]; intros acc; simpl.
  - eauto.
  - assert (Hget : exists matches,
      Matcher.get_isin_for_company (scorer E) (read_excel E) company
        Matcher.default_excel_file 3 70 = inr matches).
    { unfold Matcher.get_isin_for_company.
      destruct (negb (Py.nonempty company)); [eauto|].
      unfold Matcher.try_exceptE.
      destruct (read_excel E Matcher.default_excel_file) as [e|df]; simpl; [eauto|].
      destruct (negb (Matcher.has_column df Matcher.company_column)); simpl; [eauto|].
      destruct (Matcher.collect df 70 1 _) as [e|rs]; simpl; eauto. }
    destruct Hget as [matches ->]. simpl.
    destruct matches as [|first rest]; apply IH.
Qed.

Hypothesis reachable : Notifier.never_raises (requests_post E).

Lemma send_slack_message_returns items w :
  exists w', Driver.send_slack_message E (Notifier.PyList items) w = (inr tt, w').
Proof.
  unfold Driver.send_slack_message, Notifier.send_slack_message.
  destruct (Notifier.configured (SLACK_URL E)) as [url|].
  - destruct (NotifierFacts.send_each_calls (requests_post E) url
                (Notifier.sendable_items items) reachable 1 w) as (w' & -> & _).
    eauto.
  - eexists. reflexivity.
Qed.

Lemma process_scraped_returns scraped w :
  exists w', process_scraped E scraped w = (inr tt, w').
Proof.
  unfold process_scraped.
  destruct (group_by_company scraped) as [|g groups]; [eexists; reflexivity|].
  destruct (attach_matches_returns (g :: groups) []) as (with_isin & Hattach).
  unfold bind at 1. unfold lift. rewrite Hattach.
  destruct with_isin as [|x xs]; [eexists; reflexivity|].
  unfold bind at 1. unfold Driver.summarize_multiple_articles,
    Summarizer.summarize_multiple_articles.
  destruct (summarize_loop_typed (x :: xs) [] w eq_refl) as (out & w1 & -> & Hout).
  destruct out as [|o out]; [eexists; reflexivity|].
  unfold bind at 1. rewrite (print_summary_results_typed _ Hout).
  destruct (slack_messages_of E (o :: out)) as [|m ms]; [eexists; reflexivity|].
  apply send_slack_message_returns.
Qed.

End WithExternals.

(** X24.  If the webhook post never raises and every answer of the model
    that can be cut out and parsed has a string under 'summary' and a list
    under 'numeric_data' (where present), then, once the scrape has
    returned, no exception leaves the later stages, and the iteration marks
    every fetched article when at least one page was scraped, and none
    otherwise. *)
Theorem well_typed_answers_and_reachable_webhook_mark_the_feed
    (E : externals) (p : poll) (processed : gset Feed.article_id)
    (w w1 : world) (scraped : list article) :
  Notifier.never_raises (requests_post E) ->
  answers_typed E ->
  let articles :=
    Feed.fetch_business_news_rss (parse_date E) processed (current_time p)
      (response p) in
  scrape_all_articles E articles w = (inr scraped, w1) ->
  exists w2,
    process_scraped E scraped w1 = (inr tt, w2) /\
    iteration E p processed w =
      match scraped with
      | [] => (inr processed, w1)
      | _ => (inr (mark processed articles), w2)
      end.
Proof.
  intros Hpost Hanswers articles Hscrape.
  destruct (process_scraped_returns E Hanswers Hpost scraped w1) as [w2 Hrest].
  exists w2. split; [exact Hrest|].
  exact (DriverMore.iteration_after_scrape E p processed w w1 w2 scraped
           Hscrape Hrest).
Qed.

Lemma well_typed_answers_and_reachable_webhook_mark_the_feed_witness :
  fst (iteration (toy_externals Notifier.ok_post) toy_poll ∅ empty_world)
  = inr (mark ∅ [toy_article]).
Proof.
  pose (E := toy_externals Notifier.ok_post).
  pose (articles := Feed.fetch_business_news_rss (parse_date E) ∅
                      (current_time toy_poll) (response toy_poll)).
  pose (scrape_run := scrape_all_articles E articles empty_world).
  pose (scraped := match fst scrape_run with inr l => l | inl _ => [] end).
  destruct (well_typed_answers_and_reachable_webhook_mark_the_feed
              E toy_poll ∅ empty_world (snd scrape_run) scraped)
    as (w2 & _ & Hit).
  - intros history url text. eexists. reflexivity.
  - intros history prompt response json_str v _ _. simpl. unfold toy_loads.
    destruct (String.eqb json_str "{company}"); [intros [= <-]; reflexivity|].
    destruct (String.eqb json_str "{summary}"); [intros [= <-]; reflexivity|].
    discriminate.
  - vm_compute. reflexivity.
  - fold E. rewrite Hit.
    assert (Hs : exists d, scraped = [d]) by (eexists; vm_compute; reflexivity).
    destruct Hs as [d ->]. reflexivity.
Defined.

End PipelineMore.

(** ** Console report of the scrape *)

Module ReportMore.
Import Article Report.

Lemma total_app {A} (f : A -> Z) (l l' : list A) :
  total f (l ++ l') = total f l + total f l'.
Proof. unfold total. induction l as [|x l IH]; simpl; [reflexivity|]. rewrite IH. lia. Qed.

Lemma total_perm {A} (f : A -> Z) (l l' : list A) :
  Permutation l l' -> total f l = total f l'.
Proof. unfold total. induction 1; simpl; lia. Qed.

Lemma total_map {A B} (f : B -> Z) (g : A -> B) (l : list A) :
  total f (map g l) = total (fun x => f (g x)) l.
Proof. unfold total. induction l as [|x l IH]; simpl; [reflexivity|]. now rewrite IH. Qed.

Lemma total_ext {A} (f g : A -> Z) (l : list A) :
  (forall x, In x l -> f x = g x) -> total f l = total g l.
Proof.
  unfold total. induction l as [|x l IH]; intros H; simpl; [reflexivity|].
  rewrite (H x (or_introl eq_refl)), IH; [reflexivity|].
  intros y Hy. apply H. now right.
Qed.

Lemma insert_asc_perm k l : Permutation (k :: l) (insert_asc k l).
Proof.
  induction l as [|x l IH]; simpl; [reflexivity|].
  destruct (k <=? x); [reflexivity|].
  rewrite perm_swap. now constructor.
Qed.

Lemma sorted_perm l : Permutation l (sorted l).
Proof.
  unfold sorted. induction l as [|x l IH]; simpl; [reflexivity|].
  rewrite <- insert_asc_perm. now constructor.
Qed.

Lemma insert_asc_sorted k l :
  Sorted Z.le l -> Sorted Z.le (insert_asc k l).
Proof.
  induction 1 as [|x l Hl IH Hhd]; simpl; [repeat constructor|].
  destruct (k <=? x) eqn:Hk.
  - apply Z.leb_le in Hk. repeat constructor; auto.
  - apply Z.leb_gt in Hk. constructor; [exact IH|].
    destruct l as [|y l]; simpl; [constructor; lia|].
    inversion Hhd; subst. destruct (k <=? y); constructor; lia.
Qed.

Lemma sorted_sorted l : Sorted Z.le (sorted l).
Proof.
  unfold sorted. induction l as [|x l IH]; simpl; [constructor|].
  now apply insert_asc_sorted.
Qed.

Lemma mapR_inr {A B} (f : A -> error + B) (l : list A) :
  forall out, mapR f l = inr out -> Forall2 (fun x y => f x = inr y) l out.
Proof.
  induction l as [|x l IH]; simpl; intros out.
  - intros [= <-]. constructor.
  - destruct (f x) as [e|y] eqn:Hx; simpl; [discriminate|].
    destruct (mapR f l) as [e|ys]; simpl; [discriminate|].
    intros [= <-]. constructor; auto.
Qed.

Lemma mapR_returns {A B} (f : A -> error + B) (l : list A) :
  (forall x, In x l -> exists y, f x = inr y) -> exists out, mapR f l = inr out.
Proof.
  induction l as [|x l IH]; intros H; simpl; [eauto|].
  destruct (H x (or_introl eq_refl)) as [y ->]. simpl.
  destruct IH as [ys ->]; [intros z Hz; apply H; now right|]. simpl. eauto.
Qed.

(** The comprehension keeps a sublist. *)
Lemma valid_articles_sub articles :
  forall vs,
    valid_articles_of articles = inr vs ->
    (length vs <= length articles)%nat /\ (forall a, In a vs -> In a articles).
Proof.
  induction articles as [|a articles IH]; simpl; intros vs.
  - intros [= <-]. split; [simpl; lia|auto].
  - destruct (is_valid a) as [e|v]; simpl; [discriminate|].
    destruct (valid_articles_of articles) as [e|vs']; simpl; [discriminate|].
    destruct (IH vs' eq_refl) as [Hlen Hin].
    intros [= <-]. destruct v; simpl; (split; [lia|]).
    + intros b [->|Hb]; auto.
    + auto.
Qed.

Lemma valid_articles_returns articles :
  forallb complete articles = true ->
  exists vs, valid_articles_of articles = inr vs.
Proof.
  induction articles as [|a articles IH]; simpl; [eauto|].
  intros H. apply andb_true_iff in H as [Ha Hrest].
  destruct (IH Hrest) as [vs Hvs].
  assert (Hv : exists v, is_valid a = inr v).
  { unfold complete in Ha. unfold is_valid.
    destruct (title a); [|discriminate]. destruct (source a); [|discriminate].
    destruct (url a); [|discriminate].
    destruct (full_article a) as [text|]; [|discriminate].
    destruct (article_length a) as [n|]; [|discriminate].
    cbn [item bindR]. destruct (Py.startswith "ERROR" text); [eauto|].
    destruct (Py.startswith "NO_CONTENT" text); cbn [bindR]; eauto. }
  destruct Hv as [v ->]. rewrite Hvs. simpl. eauto.
Qed.

Lemma add_to_story_keys k a stories :
  forall i, In i (map fst (add_to_story k a stories)) ->
            i = k \/ In i (map fst stories).
Proof.
  induction stories as [|[j l] stories IH]; simpl; intros i.
  - intros [<-|[]]. now left.
  - destruct (j =? k); simpl; [auto|].
    intros [<-|H]; [auto|]. destruct (IH i H); auto.
Qed.

Lemma add_to_story_grouped k a stories n :
  grouped stories n -> grouped (add_to_story k a stories) (n + 1).
Proof.
  unfold grouped. revert n.
  induction stories as [|[j l] stories IH]; simpl; intros n (Hnd & Hne & Hsum).
  - split; [repeat constructor; auto|]. split; [repeat constructor; discriminate|].
    unfold total in *. simpl in *. lia.
  - inversion Hnd as [|x xs Hnotin Hnd']; subst.
    inversion Hne as [|g gs Hl Hne']; subst. simpl in Hl.
    destruct (j =? k) eqn:Hjk; simpl.
    + split; [constructor; auto|]. split.
      * constructor; [|exact Hne']. simpl. destruct l; discriminate.
      * unfold total in *. simpl in *. rewrite length_app. simpl. lia.
    + apply Z.eqb_neq in Hjk.
      destruct (IH (total (fun g : Z * list article => Z.of_nat (length (snd g))) stories))
        as (Hnd1 & Hne1 & Hsum1); [auto|].
      split; [|split].
      * constructor; [|exact Hnd1]. intros Hin.
        apply add_to_story_keys in Hin as [->|Hin]; [congruence|auto].
      * constructor; auto.
      * unfold total in *. simpl in *. lia.
Qed.

Lemma group_by_story_grouped vs :
  grouped (group_by_story vs) (Z.of_nat (length vs)).
Proof.
  unfold group_by_story.
  assert (Hgen : forall stories n,
    grouped stories n ->
    grouped (fold_left (fun stories a => add_to_story (get (story_index a) 1) a stories)
               vs stories) (n + Z.of_nat (length vs))).
  { induction vs as [|a vs IH]; intros stories n Hg; simpl fold_left.
    - simpl. now rewrite Z.add_0_r.
    - replace (n + Z.of_nat (length (a :: vs)))
        with (n + 1 + Z.of_nat (length vs)) by (simpl length; lia).
      apply IH. now apply add_to_story_grouped. }
  apply (Hgen [] 0). split; [constructor|]. split; constructor.
Qed.

(** Articles stay within the list that was grouped. *)
Lemma add_to_story_members (P : article -> Prop) k a stories :
  P a ->
  Forall (fun g : Z * list article => Forall P (snd g)) stories ->
  Forall (fun g : Z * list article => Forall P (snd g)) (add_to_story k a stories).
Proof.
  intros Ha. induction 1 as [|[j l] stories Hl Hrest IH]; simpl.
  - repeat constructor. exact Ha.
  - destruct (j =? k).
    + constructor; [|exact Hrest]. simpl in *. apply Forall_app. split; [exact Hl|].
      repeat constructor. exact Ha.
    + constructor; [exact Hl|exact IH].
Qed.

Lemma group_by_story_members (P : article -> Prop) vs :
  Forall P vs ->
  Forall (fun g : Z * list article => Forall P (snd g)) (group_by_story vs).
Proof.
  unfold group_by_story. intros Hall.
  assert (Hs : Forall (fun g : Z * list article => Forall P (snd g)) [])
    by constructor.
  revert Hs. generalize (@nil (Z * list article)).
  induction Hall as [|a vs Ha Hall IH]; intros stories Hs; simpl; [exact Hs|].
  apply IH. now apply add_to_story_members.
Qed.

Lemma story_at_listed stories :
  List.NoDup (map fst stories) ->
  forall k l, In (k, l) stories -> story_at k stories = inr l.
Proof.
  induction stories as [|[j l'] stories IH]; simpl; intros Hnd k l; [tauto|].
  inversion Hnd as [|x xs Hnotin Hnd']; subst.
  intros [[= -> ->]|Hin].
  - now rewrite Z.eqb_refl.
  - destruct (j =? k) eqn:Hjk; [|now apply IH].
    apply Z.eqb_eq in Hjk as ->. exfalso. apply Hnotin.
    apply in_map_iff. exists (k, l). auto.
Qed.

Lemma story_at_key (stories : list (Z * list article)) (k : Z) :
  In k (map fst stories) -> exists l, In (k, l) stories.
Proof.
  intros Hin. apply in_map_iff in Hin as ([j l] & <- & Hin). eauto.
Qed.

Lemma total_size_at stories n :
  grouped stories n ->
  total (size_at stories) (sorted (map fst stories)) = n.
Proof.
  intros (Hnd & _ & <-).
  rewrite <- (total_perm _ _ _ (sorted_perm (map fst stories))), total_map.
  apply total_ext. intros [k l] Hin. unfold size_at. simpl.
  now rewrite (story_at_listed stories Hnd k l Hin).
Qed.

Lemma count_le_total stories n :
  grouped stories n -> Z.of_nat (length stories) <= n.
Proof.
  intros (_ & Hne & <-). unfold total.
  induction Hne as [|[k l] stories Hl _ IH]; simpl; [lia|].
  simpl in Hl. destruct l; [congruence|]. simpl length in *. lia.
Qed.

Lemma story_of_size stories k s :
  story_of stories k = inr s ->
  Z.of_nat (length (story_entries s)) = size_at stories k.
Proof.
  unfold story_of, size_at.
  destruct (story_at k stories) as [e|l]; simpl; [discriminate|].
  destruct (first_title l) as [e|t]; simpl; [discriminate|].
  destruct (mapR entry_of l) as [e|entries] eqn:Hmap; simpl; [discriminate|].
  intros [= <-]. simpl. apply mapR_inr in Hmap.
  now rewrite (Forall2_length _ _ _ Hmap).
Qed.

Lemma listed_is_total_size stories keys :
  forall stories_json,
    mapR (story_of stories) keys = inr stories_json ->
    listed stories_json = total (size_at stories) keys /\
    length stories_json = length keys.
Proof.
  intros stories_json Hmap. apply mapR_inr in Hmap. unfold listed, total.
  induction Hmap as [|k s keys stories_json Hk _ IH]; simpl; [auto|].
  destruct IH as [-> ->]. now rewrite (story_of_size _ _ _ Hk).
Qed.

(** Complete dicts give every step of the report what it subscripts. *)
Lemma complete_fields a :
  complete a = true ->
  exists t s u text n,
    title a = Some t /\ source a = Some s /\ url a = Some u /\
    full_article a = Some text /\ article_length a = Some n.
Proof.
  unfold complete.
  destruct (title a), (source a), (url a), (full_article a), (article_length a);
    try discriminate.
  intros _. eauto 10.
Qed.

Lemma collect_companies_returns vs :
  Forall (fun a => complete a = true) vs ->
  forall found, exists companies, collect_companies vs found = inr companies.
Proof.
  induction 1 as [|a vs Ha _ IH]; intros found; simpl; [eauto|].
  destruct (Py.nonempty _); [|apply IH].
  destruct (complete_fields a Ha) as (t & s & u & text & n & Ht & Hs & _).
  unfold mention_of, domain_or_source. rewrite Ht, Hs. simpl. apply IH.
Qed.

Lemma total_length_returns vs :
  Forall (fun a => complete a = true) vs ->
  exists chars, total_length vs = inr chars.
Proof.
  induction 1 as [|a vs Ha _ IH]; simpl; [eauto|].
  destruct (complete_fields a Ha) as (t & s & u & text & n & _ & _ & _ & _ & ->).
  destruct IH as [m ->]. simpl. eauto.
Qed.

Lemma stories_return stories n :
  grouped stories n ->
  Forall (fun g : Z * list article => Forall (fun a => complete a = true) (snd g))
    stories ->
  forall k, In k (sorted (map fst stories)) ->
    (exists u, show_story stories k = inr u) /\
    (exists s, story_of stories k = inr s).
Proof.
  intros (Hnd & Hne & _) Hall k Hk.
  apply (Permutation_in _ (Permutation_sym (sorted_perm _))) in Hk.
  destruct (story_at_key stories k Hk) as [l Hin].
  unfold show_story, story_of. rewrite (story_at_listed stories Hnd k l Hin). simpl.
  rewrite List.Forall_forall in Hall, Hne.
  pose proof (Hall _ Hin) as Hl. pose proof (Hne _ Hin) as Hl0. simpl in Hl, Hl0.
  assert (Ht : exists t, first_title l = inr t).
  { destruct l as [|a l]; [congruence|]. inversion Hl; subst.
    destruct (complete_fields a H1) as (t & _ & _ & _ & _ & Ht & _).
    exists t. simpl. now rewrite Ht. }
  destruct Ht as [t ->]. simpl.
  rewrite List.Forall_forall in Hl.
  destruct (mapR_returns domain_or_source l) as [ds ->].
  { intros a Ha. destruct (complete_fields a (Hl a Ha)) as (_ & s & _ & _ & _ & _ & Hs & _).
    unfold domain_or_source. rewrite Hs. simpl. eauto. }
  destruct (mapR_returns entry_of l) as [es ->].
  { intros a Ha.
    destruct (complete_fields a (Hl a Ha))
      as (_ & s & u & text & _ & _ & Hs & Hu & Htext & _).
    unfold entry_of, domain_or_source. rewrite Hs, Hu, Htext. simpl. eauto. }
  simpl. eauto.
Qed.

Lemma print_json_results_returns articles :
  forallb complete articles = true ->
  exists r, print_json_results articles = inr r.
Proof.
  intros Hall. unfold print_json_results.
  destruct articles as [|a0 articles0]; [eauto|].
  destruct (valid_articles_returns _ Hall) as [vs Hvs]. rewrite Hvs. cbn [bindR].
  destruct vs as [|v vs]; [eauto|].
  assert (Hcomplete : Forall (fun a => complete a = true) (v :: vs)).
  { apply List.Forall_forall. intros a Ha.
    apply (proj2 (valid_articles_sub _ _ Hvs)) in Ha.
    rewrite forallb_forall in Hall. auto. }
  destruct (collect_companies_returns _ Hcomplete []) as [companies ->]. cbn [bindR].
  pose proof (group_by_story_grouped (v :: vs)) as Hg.
  pose proof (group_by_story_members _ _ Hcomplete) as Hm.
  set (stories := group_by_story (v :: vs)) in *.
  destruct (mapR_returns (show_story stories) (sorted (map fst stories))) as [us ->].
  { intros k Hk. apply (stories_return stories _ Hg Hm k Hk). }
  destruct (mapR_returns (story_of stories) (sorted (map fst stories))) as [ss ->].
  { intros k Hk. apply (stories_return stories _ Hg Hm k Hk). }
  cbn [bindR]. destruct (total_length_returns _ Hcomplete) as [chars ->].
  cbn [bindR].
  destruct (Z.of_nat (length stories) =? 0) eqn:Hz; [|eauto].
  exfalso. apply Z.eqb_eq in Hz.
  destruct Hg as (_ & _ & Hsum). destruct stories; [|simpl in Hz; lia].
  unfold total in Hsum. simpl in Hsum. lia.
Qed.

Section WithExternals.

Variable E : Driver.externals.

Lemma scrape_url_complete a i url_idx url w d w' :
  Driver.scrape_url E a i url_idx url w = (inr d, w') -> complete d = true.
Proof.
  intros H. destruct (DriverMore.scrape_url_inv E _ _ _ _ _ _ _ H) as [_ Hd].
  destruct (Hd d eq_refl) as (Ht & Hs & Hu & Htext & Hn & _).
  unfold complete. now rewrite Ht, Hs, Hu, Htext, Hn.
Qed.

End WithExternals.

(** X25.  [print_json_results] never raises on what a scrape returns:
    every dict built by [scrape_all_articles] has the keys the report
    subscripts, every story it indexes is there and not empty, and the
    statistics never divide by zero. *)
Theorem report_of_the_scrape_never_raises
    (E : Driver.externals) (articles : list Feed.article) (w w' : world)
    (scraped : list article) :
  Driver.scrape_all_articles E articles w = (inr scraped, w') ->
  exists shown, print_json_results scraped = inr shown.
Proof.
  intros Hrun.
  destruct (DriverMore.scrape_all_articles_spec E (fun d => complete d = true)
              (scrape_url_complete E) _ _ _ _ Hrun) as [_ Hout].
  destruct (Hout scraped eq_refl) as [_ Hall].
  apply print_json_results_returns.
  apply forallb_forall. now apply List.Forall_forall.
Qed.

Lemma report_of_the_scrape_never_raises_witness :
  let run := Driver.scrape_all_articles (Driver.toy_externals Notifier.ok_post)
               [Driver.toy_article] empty_world in
  exists scraped shown,
    fst run = inr scraped /\
    scraped <> [] /\
    print_json_results scraped = inr shown.
Proof.
  intros run.
  pose (scraped := match fst run with inr l => l | inl _ => [] end).
  destruct (report_of_the_scrape_never_raises (Driver.toy_externals Notifier.ok_post)
              [Driver.toy_article] empty_world (snd run) scraped) as [shown Hshown].
  - vm_compute. reflexivity.
  - exists scraped, shown. split; [vm_compute; reflexivity|].
    split; [vm_compute; discriminate|exact Hshown].
Defined.

(** X26.  Whenever the report shows a result, it accounts for every dict:
    the filtered-out count and the article count add up to the input, every
    counted article is listed under exactly one story of the JSON result,
    there is one JSON entry per story, and at least one story but no more
    stories than articles. *)
Theorem report_lists_every_valid_article_once
    (articles : list article) (shown : report) :
  print_json_results articles = inr (Some shown) ->
  0 <= filtered_count shown /\
  filtered_count shown + total_articles shown = Z.of_nat (length articles) /\
  listed (result shown) = total_articles shown /\
  Z.of_nat (length (result shown)) = total_stories shown /\
  1 <= total_stories shown <= total_articles shown.
Proof.
  unfold print_json_results. destruct articles as [|a0 articles0]; [discriminate|].
  destruct (valid_articles_of (a0 :: articles0)) as [e|vs] eqn:Hvs;
    cbn [bindR]; [discriminate|].
  destruct vs as [|v vs]; [discriminate|].
  destruct (collect_companies (v :: vs) []) as [e|companies];
    cbn [bindR]; [discriminate|].
  pose proof (group_by_story_grouped (v :: vs)) as Hg.
  set (stories := group_by_story (v :: vs)) in *.
  destruct (mapR (show_story stories) _) as [e|us]; cbn [bindR]; [discriminate|].
  destruct (mapR (story_of stories) _) as [e|ss] eqn:Hss; cbn [bindR];
    [discriminate|].
  destruct (total_length (v :: vs)) as [e|chars]; cbn [bindR]; [discriminate|].
  destruct (Z.of_nat (length stories) =? 0) eqn:Hz; [discriminate|].
  intros [= <-]. cbn [filtered_count total_articles result total_stories].
  apply Z.eqb_neq in Hz.
  destruct (valid_articles_sub _ _ Hvs) as [Hlen _].
  destruct (listed_is_total_size stories _ ss Hss) as [Hlisted Hcount].
  pose proof (total_size_at stories _ Hg) as Htotal.
  pose proof (count_le_total stories _ Hg) as Hle.
  pose proof (Permutation_length (sorted_perm (map fst stories))) as Hperm.
  rewrite length_map in Hperm.
  simpl length in *. repeat split; lia.
Qed.

Lemma report_lists_every_valid_article_once_witness :
  exists shown,
    print_json_results
      [Article.scraped "Acme Corp posted record profits." 250;
       Article.scraped "ERROR: timeout" 0;
       Article.scraped "Acme Corp opened a plant." 300] = inr (Some shown) /\
    filtered_count shown = 1 /\
    listed (result shown) = total_articles shown.
Proof.
  eexists. split; [vm_compute; reflexivity|].
  split; [reflexivity|].
  refine (proj1 (proj2 (proj2
    (report_lists_every_valid_article_once
       [Article.scraped "Acme Corp posted record profits." 250;
        Article.scraped "ERROR: timeout" 0;
        Article.scraped "Acme Corp opened a plant." 300] _ _)))).
  vm_compute. reflexivity.
Defined.

End ReportMore.

(** ** Resolving a Google News link *)

Module ResolverMore.
Import Resolver.

(** A string that starts with [pre ++ q] contains [q]. *)
Lemma startswith_contains_tail (pre q : string) :
  forall s, Py.startswith (String.append pre q) s = true -> Py.contains q s = true.
Proof.
  induction pre as [|a pre IH]; intros s;
    rewrite ?StrFacts.append_cons, ?StrFacts.append_nil.
  - intros H. destruct s; simpl in *; now rewrite H.
  - destruct s as [|b s]; simpl; [discriminate|].
    intros H. apply andb_true_iff in H as [_ H].
    rewrite (IH s H). apply orb_true_r.
Qed.

Lemma contains_tail (pre q s : string) :
  Py.contains (String.append pre q) s = true -> Py.contains q s = true.
Proof.
  induction s as [|c s IH]; intros H.
  - simpl in H. rewrite orb_false_r in H. now apply startswith_contains_tail in H.
  - change (Py.startswith (String.append pre q) (String c s)
            || Py.contains (String.append pre q) s = true) in H.
    apply orb_true_iff in H as [H|H].
    + now apply startswith_contains_tail in H.
    + change (Py.startswith q (String c s) || Py.contains q s = true).
      rewrite (IH H). apply orb_true_r.
Qed.

Lemma first_external_clean hrefs :
  forall href,
    first_external hrefs = inr (Some href) ->
    Py.contains "google.com" href = false.
Proof.
  induction hrefs as [|[e|[h|]] hrefs IH]; intros href; simpl; try discriminate; auto.
  destruct (Py.nonempty h && negb (Py.contains "google.com" h)) eqn:Hh; [|auto].
  intros [= <-]. apply andb_true_iff in Hh as [_ Hh]. now apply negb_true_iff in Hh.
Qed.

(** X27.  Whatever [resolve_google_news_url] returns is not a Google News
    address: it is the page the browser landed on when that is outside
    news.google.com, and otherwise a link that does not mention google.com
    at all. *)
Theorem resolved_url_is_not_google_news
    (page_url_after_goto : string -> exn + string)
    (external_links : string -> exn + list (exn + option string))
    (google_url resolved : string) :
  resolve_google_news_url page_url_after_goto external_links google_url
    = Some resolved ->
  Py.contains "news.google.com" resolved = false.
Proof.
  unfold resolve_google_news_url.
  destruct (page_url_after_goto google_url) as [e|final_url]; [discriminate|].
  destruct (Py.contains "news.google.com" final_url) eqn:Hfinal;
    cbn [negb]; [|now intros [= <-]].
  destruct (external_links google_url) as [e|links]; cbn [bindE]; [discriminate|].
  destruct (first_external (take 3 links)) as [e|[href|]] eqn:Hfirst;
    try discriminate.
  intros [= <-]. apply first_external_clean in Hfirst.
  destruct (Py.contains "news.google.com" href) eqn:Hnews; [|reflexivity].
  apply (contains_tail "news." "google.com") in Hnews. congruence.
Qed.

Lemma resolved_url_is_not_google_news_witness :
  let page_url_after_goto (_ : string) : exn + string :=
    inr "https://news.google.com/articles/1" in
  let external_links (_ : string) : exn + list (exn + option string) :=
    inr [inr None; inr (Some "https://maps.google.com/x");
         inr (Some "https://example.com/a"); inr (Some "https://example.org/b")] in
  resolve_google_news_url page_url_after_goto external_links
    "https://news.google.com/rss/articles/1" = Some "https://example.com/a" /\
  Py.contains "news.google.com" "https://example.com/a" = false.
Proof.
  intros page_url_after_goto external_links.
  split; [vm_compute; reflexivity|].
  apply (resolved_url_is_not_google_news page_url_after_goto external_links
           "https://news.google.com/rss/articles/1").
  vm_compute. reflexivity.
Defined.

End ResolverMore.

